(* ===== verification/_CoqProject ===== *)
-Q . S2P
Prelude.v
Binary64.v
NumberFormat.v
NumberParse.v
Rounding.v
LiteralSpec.v
Shortest.v
ReadBack.v
JsValue.v
Receipt.v
ChartLib.v
Render.v
PriceCell.v
Pipeline.v
Events.v
System.v
Liveness.v
Runs.v
Load.v
