(* ===== verification/Prelude.v ===== *)
(** * A verification development of the expense tracker (src/script.js)

    ** The program

    src/script.js is a browser script of one page.  It keeps an array
    [data] of expense entries [{vendor, price}] (line 12), a table body
    and a Chart.js pie chart that show it (lines 8-10), and five event
    listeners.  [addEntry(file)] (lines 15-35) uploads a file to an S3
    bucket through Amplify's [Storage.put] under the key
    [receipts/${file.name}], calls [fetchReceiptDetails] (lines 39-54),
    which asks an HTTP API for the vendor and total of that key, pushes
    the entry [{vendor || 'Unknown Vendor', total || 0}] and redraws the
    table ([updateTable], lines 59-69) and the chart ([updateChart],
    lines 72-103).  The [change] listener of the file input and the
    [drop] listener of the drop area (lines 106-132) call addEntry once
    per file, but with a fake vendor string made from [Math.random()]
    instead of the file; [dragover] and [dragleave] toggle the class
    [dragging] of the drop area.  Each call of addEntry suspends at four
    awaits, so calls started together interleave and complete in any
    order.

    ** The development, file by file (in dependency order)

    - Prelude.v: this header, the [js_scope] notation scope, the hint
      databases [expense] and [expense_rw], the tactics [invc] and
      [destruct_ifs], and string and list lemmas.
    - Binary64.v: JavaScript numbers as [SpecFloat.spec_float] at
      binary64 precision; [ToBoolean] on numbers, [||] on numbers
      ([num_or], the [total || 0] of line 29), [Math.floor], [*], and
      the correctly rounded value of a decimal ([round_decimal]).
    - NumberFormat.v: [Number::toString] (shortest round-tripping
      digits) and [Number.prototype.toFixed] of ECMA-262, on exact
      integer arithmetic; [toFixed(2)] prints the price cell (line 65).
    - NumberParse.v: [parseFloat] on strings (line 48): white space,
      the longest StrDecimalLiteral prefix, rounding.
    - Rounding.v: the rounding of [SpecFloat]: the shifted mantissa plus
      the increment of [round_nearest_even], within half a unit of the
      exact value (the round and sticky bits carry the discarded
      fraction); hence a quotient of integers is within one unit in the
      53rd bit, an integer below 2^53 is exact, and [toFixed(2)] of a
      parsed decimal and [Math.floor(x * 100)] are as claimed below.
    - LiteralSpec.v: the grammar of StrDecimalLiteral as inductive
      relations, and the equivalence of the one-pass scanner with
      "the longest prefix the grammar accepts".
    - Shortest.v: a value strictly inside the rounding interval of a
      float reads back as that float; [dec_exponent] is the decimal
      logarithm; hence the digits of [Number::toString] always read
      back as the number ([printed_value]), and they have as many
      digits as the search says ([shortest_digits]).
    - ReadBack.v: the four notations of [Number::toString]
      ([format_decimal]) scanned by [parseFloat]: each reads as the
      printed decimal, so the text of a Number reads back as it.
    - JsValue.v: the values of the script ([jsval]: the JSON of the API
      and [undefined]), [ToBoolean], [||], property reads, [ToString]
      (which throws on an object with an own [toString] key),
      [encodeURIComponent] (line 42) and the percent-decoding of the
      receiving side.
    - Receipt.v: fetchReceiptDetails, one definition per segment between
      awaits ([request_url], [on_json], [on_failure]), the errors the
      [catch] clauses receive and the console messages.
    - ChartLib.v: the interface of Chart.js the script relies on, as
      the typeclass [ChartLib] (new Chart, destroy, liveness,
      configuration) with its laws [ChartLibLaws]; the script's
      destroy-then-create of lines 76-78 as [redraw] over any instance,
      with its theorem proved from the laws alone; the canvas model (a
      list of chart instances) as an instance discharging the laws.
    - Render.v: the page state [ui] (data, rows, charts, [chart]),
      [updateTable] as [table_rows], [updateChart] with
      [destroy_current], equal to [redraw] on the canvas model.
    - PriceCell.v: the shape of the price cell printed by
      [toFixed(2)]: digits, a point and two digits below [10^21].
    - Pipeline.v: addEntry as a [task] (the await it is suspended at),
      its synchronous start [addEntry_start], and [task_step], the
      segment that runs when the environment settles the await; the
      [world] is the page, the bucket (a [gmap] from keys to stored
      objects), the console and the requested URLs.
    - Events.v: the listeners: [Math.random()] as a stream of draws,
      the demo loop [demo_loop], the class list of the drop area and
      [dispatch] of a DOM event.
    - System.v: the whole page as a state machine [sys_step] over [sys]
      (world, suspended calls, classes, draws, trace of DOM events),
      its reachable states, and the abstract append-only container.
    - Liveness.v: [eventually] over a step relation (every maximal run
      reaches a predicate) and the settlements of the pending calls.
    - Runs.v: reachability as executable runs, and the shape of the
      entries of [data].
    - Load.v: the module body (lines 5-12, 106, 117-123): the document
      as a tree of elements, [getElementById], the descendant
      [querySelector], [getContext] and [addEventListener] on [null],
      in a state-and-exception monad over the registered listeners
      (stdpp's [x ← m; k]); the dispatch of events to the registered
      listeners only; [updateTable] on a missing table body.

    ** What is proved

    - The page refines the specification's container (C1, C2, C21):
      [data] grows one entry at a time, each the entry of the call whose
      last segment ran, in completion order; when every vendor prints,
      the table is one row per entry and the only live chart shows
      exactly [data] (C1, C13, C7, C6).
    - A call of addEntry (C3, C8, C9): a rejected upload appends
      nothing, any other run stores the object, requests its details
      once and appends exactly one entry; failures of the fetch give
      [{Unknown, 0}]; the price is never NaN or -0.
    - Loading the page (C10, C19, C20): the module body registers its
      listeners in code order and stops at the first TypeError; it
      throws nothing exactly on the documents the specification asks
      for, and then the page dispatches events as [dispatch] does.
      Without [#fileInput] no listener exists, so a drop is not
      prevented; without the table body every completing call pushes
      its entry, throws at line 60 and never redraws the table or the
      chart.
    - The demo listeners (C4, C11, C12, C22): every upload goes to the
      key [receipts/undefined] with a fake vendor string as body, so no
      receipt is uploaded and uploads overwrite each other; a dispatch
      starts exactly one call per file; [dragover] and [drop] always
      prevent the default action; the class [dragging] is present
      exactly after a [dragover].
    - A rejected upload (C23) ends its own call with one console error
      and leaves the page, the bucket, the requests and every other
      call as they were.
    - The failure modes of the values the API returns (C5, C14, C17,
      C18, C15): an object with an own [toString] key as vendor makes
      [updateTable] throw for every later redraw, so the table and the
      chart stay behind [data]; the vendor text reaches [innerHTML]
      unescaped.
    - The request (C16): the URL carries the key as a single query
      parameter that decodes back to it.
    - Prices (C24, C25, C26): [parseFloat] gives NaN only when no
      decimal literal begins the string; for a non-negative decimal
      string with at most two fraction digits and fewer than 2^51
      hundredths, [parseFloat(s).toFixed(2)] prints exactly its
      hundredths, and the pushed row shows them in its price cell.  The
      bound 2^51 keeps the rounding error of one unit in the 53rd bit
      below half a hundredth; it covers prices up to about 2.2 * 10^13.
    - The fake vendors (C27): for every value of [Math.random()], the
      demo loop's vendor is "Vendor k" with [0 <= k <= 99]; the product
      [x * 100] never rounds up to 100.
    - parseFloat is ECMA-262's (C32): the scanner returns the literal of
      the longest prefix of the trimmed string that the StrDecimalLiteral
      grammar accepts, and NaN exactly when none is accepted.
    - Number::toString (C28, C36): for every finite positive binary64
      value, the decimal it prints reads back as exactly that value, so
      the search over 1 to 16 digits and the 17-digit fallback are
      enough; and [parseFloat(result.total)] of a total the API returns
      as a JSON number is that number, [-0] read as [+0] (C36): each
      notation ToString prints scans back to the printed decimal.
    - Every call completes (C29, C33): whatever order and outcomes the
      browser gives the pending awaits, every run of settlements ends,
      after at most four per pending call, with every call returned and
      one entry more in [data] for every call past its upload and at
      most one for every call still uploading; a hung call blocks no
      other, and the same counts hold for the other calls (C33).
    - The Chart.js contract (C31): against any library keeping it, the
      redraw of updateChart never throws when the only live chart is the
      current one and leaves exactly one live chart.
    - The price cell (C35): below [10^21] in magnitude it is an optional
      minus sign, digits, a point and exactly two digits.  At [10^21]
      [toFixed] prints Number::toString instead, by its definition
      ([to_fixed_exponential] computes "1e+21").
    - Completion order (C34): two calls waiting on their details can
      complete in either order, and [data] follows the completion order;
      the two results are permutations of each other.
    - Types (C30): every entry of [data] in a reachable state has a
      truthy vendor and a price that is neither NaN nor -0.  The
      reachable states are exactly those of the executable runs from
      the loaded page ([reachable_iff_run]), so the witnesses compute
      them with [vm_compute].

    ** Modelling choices, bounds and fuel

    - Numbers are binary64 values of [SpecFloat], the specification of
      the kernel's primitive floats.  Its rounding is taken as the
      rounding of ECMA-262; Rounding.v proves the error bounds of it
      that the price claims need.
    - [Number::toString] searches the digit count [k = 1 .. 16] and then
      takes the nearest 17-digit decimal: 17 significant digits always
      round back to a binary64 value (proved in Shortest.v: the nearest
      17-digit decimal lies within a quarter unit of the value), so the
      fuel 16 is enough.  The
      candidates are the decimals just below and above the value (the
      nearest one when both round back, as ECMA-262 recommends).
    - Strings are Stdlib [string]s of 8-bit code units: the white space
      of [parseFloat] and the UTF-8 encoding of [encodeURIComponent] are
      those of code units below 256.
    - The event loop is modelled by a free choice of the next step: any
      pending await may settle next and any DOM event may be dispatched,
      which covers every schedule of the browser; the invariants hold on
      all of them.
    - Rows are the markup strings assigned to [innerHTML]; the HTML
      parser of the browser is not modelled.

    ** Not modelled

    - The imports and Amplify's configuration (lines 1-5): library
      set-up whose effects the script does not observe.  Load.v models
      the rest of the module body, the lookups included; the model of
      the page (System.v) is the page of a document that loads, with its
      table body (Load.v states when).
    - The bucket and the HTTP API are external services: the bucket is a
      map written when an upload resolves; the API's answer, the
      resolution or rejection of every promise and the values of
      [Math.random()] are inputs of the model.
    - Chart.js beyond its canvas contract: drawing, and the colours it
      gives the slices. *)

From stdpp Require Export base list strings gmap.
From Stdlib Require Export ZArith Lia Ascii SpecFloat DecimalString.

#[local] Open Scope string_scope.

(** ** Notation of the development *)

Declare Scope js_scope.
Delimit Scope js_scope with js.

(** The hint database of the development: the component files add the
    lemmas that close their routine goals, [expense_rw] the equations
    that [autorewrite] normalises with. *)
Create HintDb expense.
Create Rewrite HintDb expense_rw.

(** ** Tactics *)

(** [invc H]: invert a hypothesis and clean up the equations. *)
Ltac invc H := inversion H; subst; clear H.

(** [destruct_ifs]: split every [if] of a boolean test in the goal,
    remembering the test's value. *)
Ltac destruct_ifs :=
  repeat match goal with
         | |- context [if ?b then _ else _] =>
             lazymatch b with
             | context [if _ then _ else _] => fail
             | _ => destruct b eqn:?
             end
         end.

(** [zbool]: split every integer comparison [=?], [<=?] and [?=] of the
    goal by its specification, then close the cases by computation or
    [lia]. *)
Ltac zbool :=
  repeat match goal with
         | |- context [Z.eqb ?a ?b] => destruct (Z.eqb_spec a b)
         | |- context [Z.leb ?a ?b] => destruct (Z.leb_spec a b)
         | |- context [Z.compare ?a ?b] => destruct (Z.compare_spec a b)
         end; simpl; try reflexivity; try lia.

(** ** Strings *)

(** [str_repeat c n]: the string of [n] copies of [c]. *)
Fixpoint str_repeat (c : Ascii.ascii) (n : nat) : string :=
  match n with
  | O => EmptyString
  | S n' => String c (str_repeat c n')
  end.

(** [str_concat l]: the concatenation of the strings of [l]. *)
Definition str_concat (l : list string) : string :=
  foldr (fun s acc => s ++ acc) EmptyString l.

(** [str_join sep l]: the elements of [l] separated by [sep]. *)
Fixpoint str_join (sep : string) (l : list string) : string :=
  match l with
  | [] => EmptyString
  | [s] => s
  | s :: l' => s ++ sep ++ str_join sep l'
  end.

(** stdpp declares [String.append] [simpl never]: these two equations
    are its computation rules. *)
Lemma str_append_nil_l (s : string) : "" ++ s = s.
Proof. reflexivity. Qed.

Lemma str_append_cons c (s1 s2 : string) : String c s1 ++ s2 = String c (s1 ++ s2).
Proof. reflexivity. Qed.

Lemma str_length_append (s1 s2 : string) :
  String.length (s1 ++ s2) = String.length s1 + String.length s2.
Proof. induction s1 as [|c s1 IH]; [done |]. rewrite str_append_cons; simpl; by rewrite IH. Qed.

Lemma str_length_repeat c n : String.length (str_repeat c n) = n.
Proof. induction n as [|n IH]; simpl; [done | by rewrite IH]. Qed.

Lemma str_append_assoc (s1 s2 s3 : string) :
  s1 ++ (s2 ++ s3) = (s1 ++ s2) ++ s3.
Proof. induction s1 as [|c s1 IH]; [done |]. by rewrite !str_append_cons, IH. Qed.

Lemma str_append_nil_r (s : string) : s ++ "" = s.
Proof. induction s as [|c s IH]; [done |]. by rewrite str_append_cons, IH. Qed.

(** [s] occurs in [t] as a contiguous substring. *)
Definition str_infix (s t : string) : Prop := exists u v, t = u ++ s ++ v.

Lemma str_infix_app_l s u v : str_infix s (u ++ s ++ v).
Proof. by exists u, v. Qed.

#[export] Hint Rewrite str_append_nil_l str_append_cons str_length_append str_length_repeat str_append_nil_r : expense_rw.
#[export] Hint Resolve str_infix_app_l : expense.

(** ** Lists *)

#[local] Open Scope list_scope.

(** An append-only history: [l1] is a prefix of [l2]. *)
Lemma prefix_app_snoc {A} (l1 l2 : list A) x :
  l1 `prefix_of` l2 -> l1 `prefix_of` l2 ++ [x].
Proof. intros H. by apply prefix_app_r. Qed.

#[export] Hint Resolve prefix_app_snoc : expense.

(** [existsb] is false when no element satisfies the test. *)
Lemma existsb_false_lookup {A} (f : A -> bool) (l : list A) :
  (forall i x, l !! i = Some x -> f x = false) -> existsb f l = false.
Proof.
  induction l as [|x l IH]; intros H; simpl; [done |].
  rewrite (H 0 x eq_refl). apply IH. intros i y Hy. exact (H (S i) y Hy).
Qed.
#[export] Hint Resolve prefix_app_r : expense.

Lemma list_ascii_of_string_app (s1 s2 : string) :
  String.list_ascii_of_string (s1 ++ s2) = (String.list_ascii_of_string s1 ++ String.list_ascii_of_string s2)%list.
Proof. induction s1 as [|c s1 IH]; [done |]. rewrite str_append_cons. simpl. by rewrite IH. Qed.
