(* ===== verification/Binary64.v ===== *)
(** * JavaScript numbers as IEEE 754 binary64 values

    Every JavaScript number of src/script.js (the parsed [total], the
    displayed [price], the [Math.random()] draws of the demo handlers) is
    a binary64 value.  This file represents them with the Standard
    Library's [SpecFloat.spec_float] at precision 53 and maximal exponent
    1024, the specification of the kernel's primitive floats, and defines
    the operations the script applies to them: the decimal-to-binary
    rounding of number literals, [ToBoolean], [Math.floor] and
    multiplication.  Decimal printing is in [NumberFormat.v], parsing in
    [NumberParse.v]. *)

From S2P Require Import Prelude.

#[local] Open Scope Z_scope.

(** ** The binary64 format *)

Definition prec : Z := 53.
Definition emax : Z := 1024.

Abbreviation number := spec_float.

#[export] Instance number_eq_dec : EqDecision number.
Proof. solve_decision. Defined.

Definition NaN : number := S754_nan.
Definition PosInf : number := S754_infinity false.
Definition NegInf : number := S754_infinity true.
Definition PosZero : number := S754_zero false.
Definition NegZero : number := S754_zero true.

(** A well-formed binary64 value: canonical mantissa, exponent in range. *)
Definition valid (x : number) : bool := valid_binary prec emax x.

Definition is_nan (x : number) : bool :=
  match x with S754_nan => true | _ => false end.

Definition is_finite (x : number) : bool :=
  match x with S754_zero _ | S754_finite _ _ _ => true | _ => false end.

(** ** ToBoolean on numbers: +0, -0 and NaN are falsy *)

Definition num_truthy (x : number) : bool :=
  match x with
  | S754_zero _ | S754_nan => false
  | _ => true
  end.

(** [a || b] on two numbers: [a] unless it is falsy. *)
Definition num_or (a b : number) : number := if num_truthy a then a else b.

(** ** Exact values

    A finite nonzero value [m * 2^e] is the ratio [num / den] of the two
    positive integers [ratio m e]. *)

Definition ratio (m : positive) (e : Z) : Z * Z :=
  (Zpos m * 2 ^ Z.max 0 e, 2 ^ Z.max 0 (- e)).

(** ** Rounding a decimal to binary64

    The Number value of the mathematical value [(-1)^neg * m * 10^e],
    rounded to nearest, ties to even (ECMA-262 6.1.6.1 and the
    StringNumericValue of 7.1.4.1.1).  A positive exponent scales the
    integer, a negative one is a correctly rounded division by a power of
    ten; both use the rounding of [SpecFloat]. *)

Definition round_decimal (neg : bool) (m : Z) (e : Z) : number :=
  match m with
  | Zpos p =>
      if 0 <=? e
      then binary_normalize prec emax (cond_Zopp neg (Zpos p * 10 ^ e)) 0 neg
      else SFdiv prec emax (S754_finite neg p 0)
                 (S754_finite false (Z.to_pos (10 ^ (- e))) 0)
  | _ => S754_zero neg
  end.

(** ** Arithmetic used by the script *)

(** [x * y] *)
Definition mul (x y : number) : number := SFmul prec emax x y.

(** [Math.floor(x)]: the greatest integral number not above [x];
    NaN, infinities and zeros are returned unchanged. *)
Definition floor (x : number) : number :=
  match x with
  | S754_finite s m e =>
      if 0 <=? e then x
      else
        let d := 2 ^ (- e) in
        if s
        then binary_normalize prec emax (- ((Zpos m + d - 1) / d)) 0 true
        else binary_normalize prec emax (Zpos m / d) 0 false
  | _ => x
  end.

(** The number of an integer literal, e.g. the [100] of [Math.random() * 100]. *)
Definition of_Z (z : Z) : number := binary_normalize prec emax z 0 false.

(** ** The sign of a rounded decimal *)

(** The rounding of [SpecFloat] treats the sign apart from the mantissa. *)
Lemma binary_round_aux_opp mx ex lx :
  binary_round_aux prec emax true mx ex lx = SFopp (binary_round_aux prec emax false mx ex lx).
Proof.
  unfold binary_round_aux.
  destruct (shr_fexp prec emax mx ex lx) as [mrs e'].
  destruct (shr_fexp prec emax _ e' loc_Exact) as [mrs' e''].
  destruct (shr_m mrs'); try reflexivity. simpl. by destruct (_ <=? _)%Z.
Qed.

(** [-d] rounds to the opposite of [d]. *)
Lemma round_decimal_neg m e : round_decimal true m e = SFopp (round_decimal false m e).
Proof.
  unfold round_decimal. destruct m as [|p|p]; try reflexivity.
  destruct (0 <=? e)%Z eqn:He.
  - apply Z.leb_le in He.
    assert (0 < Z.pos p * 10 ^ e)%Z as Hpos
      by (apply Z.mul_pos_pos; [lia | apply Z.pow_pos_nonneg; lia]).
    unfold binary_normalize, cond_Zopp.
    destruct (Z.pos p * 10 ^ e)%Z eqn:Hz; try lia. simpl.
    unfold binary_round. destruct (shl_align p0 0 _). apply binary_round_aux_opp.
  - unfold SFdiv. simpl. destruct (SFdiv_core_binary _ _ _ _ _ _) as [[mz ez] lz].
    apply binary_round_aux_opp.
Qed.
