(* ===== verification/NumberFormat.v ===== *)
(** * Printing binary64 numbers: [Number::toString] and [toFixed]

    The table of src/script.js prints each price with
    [entry.price.toFixed(2)] (updateTable, line 65), and template
    literals print numbers with [Number::toString] (ECMA-262 6.1.6.1.20);
    [toFixed] falls back to [Number::toString] for non-finite values and
    for magnitudes of at least 10^21.  Both are translated here from
    ECMA-262 (Number::toString, Number.prototype.toFixed), on exact
    integer arithmetic over the value [m * 2^e] of a number. *)

From S2P Require Import Prelude Binary64.

#[local] Open Scope string_scope.
#[local] Open Scope Z_scope.

(** ** Decimal digits of integers *)

Definition digits_of_pos (p : positive) : string :=
  NilEmpty.string_of_uint (Pos.to_uint p).

(** The decimal representation of a nonnegative integer ("0" for 0). *)
Definition digits_of_Z (z : Z) : string :=
  match z with
  | Zpos p => digits_of_pos p
  | _ => "0"
  end.

(** The number of decimal digits of a positive integer. *)
Definition ndigits (z : Z) : Z :=
  match z with
  | Zpos p => Z.of_nat (Decimal.nb_digits (Pos.to_uint p))
  | _ => 0
  end.

(** [floor (log10 (num / den))] for positive [num] and [den]: the digit
    counts fix it up to one, a comparison settles it. *)
Definition dec_exponent (num den : Z) : Z :=
  let t := ndigits num - ndigits den in
  if den * 10 ^ Z.max 0 t <=? num * 10 ^ Z.max 0 (- t) then t else t - 1.

(** ** Number::toString: the shortest decimal that rounds back *)

(** [x * 10^(k-n)] as a fraction [N / D]. *)
Definition scaled (num den k n : Z) : Z * Z :=
  if 0 <=? k - n then (num * 10 ^ (k - n), den) else (num, den * 10 ^ (n - k)).

(** [N / D] rounded to nearest, ties to even. *)
Definition nearest (N D : Z) : Z :=
  let q := N / D in
  let r := N mod D in
  if 2 * r <? D then q
  else if D <? 2 * r then q + 1
  else if Z.even q then q else q + 1.

(** A [k]-digit significand [s] with decimal exponent [n]; a rounding up
    to [10^k] moves to the next decade. *)
Definition normalise (k n s : Z) : Z * Z :=
  if s =? 10 ^ k then (10 ^ (k - 1), n + 1) else (s, n).

(** [s * 10^(n-k)] rounds to [x]. *)
Definition roundtrips (x : number) (k : Z) (sn : Z * Z) : bool :=
  bool_decide (round_decimal false sn.1 (sn.2 - k) = x).

(** The [k]-digit candidates below and above [x]; the closer one when
    both round back to [x] (ECMA-262 6.1.6.1.20, step 5 and its note). *)
Definition shortest_step (x : number) (num den n k : Z) : option (Z * Z) :=
  let '(N, D) := scaled num den k n in
  let lo := N / D in
  let hi := if N mod D =? 0 then lo else lo + 1 in
  let lo_ok := roundtrips x k (normalise k n lo) in
  let hi_ok := roundtrips x k (normalise k n hi) in
  if lo_ok && hi_ok then Some (normalise k n (nearest N D))
  else if lo_ok then Some (normalise k n lo)
  else if hi_ok then Some (normalise k n hi)
  else None.

(** Try [k = 1, 2, ...]; after 16 failures, 17 digits: the nearest
    17-digit decimal of a binary64 value always rounds back to it. *)
Fixpoint shortest_search (x : number) (num den n k : Z) (fuel : nat) : Z * Z * Z :=
  match fuel with
  | O =>
      let '(N, D) := scaled num den k n in
      let '(s, n') := normalise k n (nearest N D) in (s, k, n')
  | S fuel' =>
      match shortest_step x num den n k with
      | Some (s, n') => (s, k, n')
      | None => shortest_search x num den n (k + 1) fuel'
      end
  end.

(** The significand [s], its digit count [k] and the decimal exponent
    [n] of a positive finite number: [x = s * 10^(n-k)] after rounding. *)
Definition shortest (m : positive) (e : Z) : Z * Z * Z :=
  let '(num, den) := ratio m e in
  shortest_search (S754_finite false m e) num den (dec_exponent num den + 1) 1 16.

(** Steps 6 to 11 of Number::toString: plain, fractional, small or
    exponential notation. *)
Definition format_decimal (s k n : Z) : string :=
  let sd := digits_of_Z s in
  if (k <=? n) && (n <=? 21) then sd ++ str_repeat "0"%char (Z.to_nat (n - k))
  else if (0 <? n) && (n <=? 21) then
    String.substring 0 (Z.to_nat n) sd ++ "." ++ String.substring (Z.to_nat n) (Z.to_nat (k - n)) sd
  else if (-6 <? n) && (n <=? 0) then "0." ++ str_repeat "0"%char (Z.to_nat (- n)) ++ sd
  else
    let e := n - 1 in
    let c := if 0 <=? e then "+" else "-" in
    (if k =? 1 then sd else String.substring 0 1 sd ++ "." ++ String.substring 1 (Z.to_nat (k - 1)) sd)
      ++ "e" ++ c ++ digits_of_Z (Z.abs e).

Definition to_string (x : number) : string :=
  match x with
  | S754_nan => "NaN"
  | S754_zero _ => "0"
  | S754_infinity false => "Infinity"
  | S754_infinity true => "-Infinity"
  | S754_finite neg m e =>
      (if neg then "-" else "") ++
      (let '(s, k, n) := shortest m e in format_decimal s k n)
  end.

(** ** Number.prototype.toFixed *)

(** The integer [n] with [n / 10^f - x] closest to zero, the larger on a
    tie: [floor (x * 10^f + 1/2)]. *)
Definition fixed_n (num den : Z) (f : nat) : Z :=
  (2 * num * 10 ^ Z.of_nat f + den) / (2 * den).

(** Steps 10.b to 10.d: the digits of [n] with a point before the last
    [f], padded with zeros on the left. *)
Definition fixed_digits (n : Z) (f : nat) : string :=
  let m := digits_of_Z n in
  match f with
  | O => m
  | _ =>
      let k := String.length m in
      let '(m', k') := if (k <=? f)%nat then (str_repeat "0"%char (f + 1 - k)%nat ++ m, (f + 1)%nat) else (m, k) in
      String.substring 0 (k' - f)%nat m' ++ "." ++ String.substring (k' - f)%nat f m'
  end.

(** [x.toFixed(f)] for a fraction-digit count [f] in [0, 100] (the
    script passes 2, so the RangeError of other counts is unreachable). *)
Definition to_fixed (x : number) (f : nat) : string :=
  match x with
  | S754_nan | S754_infinity _ => to_string x
  | S754_zero _ => fixed_digits 0 f
  | S754_finite neg m e =>
      let sign := if neg then "-" else "" in
      let '(num, den) := ratio m e in
      if 10 ^ 21 * den <=? num then sign ++ to_string (S754_finite false m e)
      else sign ++ fixed_digits (fixed_n num den f) f
  end.
