(* ===== verification/NumberParse.v ===== *)
(** * Parsing numbers: [parseFloat]

    fetchReceiptDetails (src/script.js, line 48) converts the [total]
    field of the API's answer with [parseFloat(result.total)].  This file
    translates the string part of ECMA-262's [parseFloat] (19.2.4): skip
    leading white space, take the longest prefix that is a
    StrDecimalLiteral, and round its value to binary64 ([NaN] when no
    prefix is one).  The conversion of a non-string argument to a string
    is [ToString], in [JsValue.v].

    Strings are Stdlib [string]s, sequences of 8-bit code units: the
    white space recognised is the part of StrWhiteSpaceChar below 256
    (TAB, LF, VT, FF, CR, SP, NBSP). *)

From S2P Require Import Prelude Binary64.

#[local] Open Scope string_scope.
#[local] Open Scope Z_scope.

(** ** Characters *)

Definition code (c : ascii) : Z := Z.of_nat (nat_of_ascii c).

Definition is_ws (c : ascii) : bool :=
  let n := code c in
  (9 <=? n) && (n <=? 13) || (n =? 32) || (n =? 160).

Definition is_digit (c : ascii) : bool :=
  (48 <=? code c) && (code c <=? 57).

Definition digit_value (c : ascii) : Z := code c - 48.

(** TrimString(s, start) *)
Fixpoint trim_start (s : string) : string :=
  match s with
  | String c s' => if is_ws c then trim_start s' else s
  | EmptyString => EmptyString
  end.

(** The longest run of decimal digits at the head of [s], as its value
    and its length, and the rest of [s]. *)
Fixpoint span_digits (s : string) : Z * nat * string :=
  match s with
  | String c s' =>
      if is_digit c
      then let '(v, len, r) := span_digits s' in
           (digit_value c * 10 ^ Z.of_nat len + v, S len, r)
      else (0, O, s)
  | EmptyString => (0, O, EmptyString)
  end.

(** ** The longest StrDecimalLiteral prefix *)

(** The value a StrDecimalLiteral denotes. *)
Inductive literal :=
  | LitInfinity (neg : bool)
  | LitDecimal (neg : bool) (mant : Z) (exp : Z).

(** An optional sign. *)
Definition scan_sign (s : string) : bool * string :=
  match s with
  | String "-" r => (true, r)
  | String "+" r => (false, r)
  | _ => (false, s)
  end.

(** ExponentPart, when one follows: an [e] or [E], an optional sign and
    at least one digit; otherwise no exponent is consumed. *)
Definition scan_exponent (s : string) : Z :=
  match s with
  | String c r =>
      if (c =? "e")%char || (c =? "E")%char then
        let '(neg, r') := scan_sign r in
        let '(v, len, _) := span_digits r' in
        match len with
        | O => 0
        | _ => if neg then - v else v
        end
      else 0
  | EmptyString => 0
  end.

(** StrUnsignedDecimalLiteral: [Infinity], or digits with an optional
    fraction (at least one digit in all) and an optional exponent. *)
Definition scan_unsigned (neg : bool) (s : string) : option literal :=
  if String.prefix "Infinity" s then Some (LitInfinity neg)
  else
    let '(iv, ilen, r1) := span_digits s in
    let '(fv, flen, r2) :=
      match r1 with
      | String "." r => span_digits r
      | _ => (0, O, r1)
      end in
    match ilen, flen with
    | O, O => None
    | _, _ =>
        Some (LitDecimal neg (iv * 10 ^ Z.of_nat flen + fv)
                (scan_exponent r2 - Z.of_nat flen))
    end.

Definition scan_literal (s : string) : option literal :=
  let '(neg, r) := scan_sign s in scan_unsigned neg r.

(** StringNumericValue of the literal, rounded to binary64. *)
Definition literal_value (l : literal) : number :=
  match l with
  | LitInfinity neg => S754_infinity neg
  | LitDecimal neg m e => round_decimal neg m e
  end.

(** [parseFloat] on a string argument. *)
Definition parse_float_str (s : string) : number :=
  match scan_literal (trim_start s) with
  | Some l => literal_value l
  | None => NaN
  end.

(** ** The sign *)

(** The unsigned part reads the same literal whichever sign precedes it. *)
Lemma scan_unsigned_sign s :
  (scan_unsigned true s = None /\ scan_unsigned false s = None) \/
  (scan_unsigned true s = Some (LitInfinity true) /\
   scan_unsigned false s = Some (LitInfinity false)) \/
  (exists m e, scan_unsigned true s = Some (LitDecimal true m e) /\
               scan_unsigned false s = Some (LitDecimal false m e)).
Proof.
  unfold scan_unsigned. destruct (String.prefix "Infinity" s); [by right; left |].
  destruct (span_digits s) as [[iv ilen] r1].
  destruct (match r1 with String "." r => span_digits r | _ => (0, O, r1) end) as [[fv flen] r2].
  destruct ilen, flen; eauto 10.
Qed.

(** [parseFloat] reads a leading minus sign as negation: ["-" ++ s]
    parses to the opposite of what [s] parses to ("-0" to -0,
    "-Infinity" to -Infinity, garbage to NaN), when [s] itself starts
    with neither white space nor a sign. *)
Lemma parse_float_neg s :
  trim_start s = s -> scan_sign s = (false, s) ->
  parse_float_str (String "-" s) = SFopp (parse_float_str s).
Proof.
  intros Htrim Hsign. unfold parse_float_str, scan_literal.
  simpl. rewrite Htrim, Hsign.
  destruct (scan_unsigned_sign s) as [[-> ->] | [[-> ->] | (m & e & -> & ->)]]; try reflexivity.
  apply round_decimal_neg.
Qed.

