(* ===== verification/Rounding.v ===== *)
(** * Rounding error of decimal prices, and what [toFixed(2)] prints

    A receipt total reaches the table as [parseFloat(result.total)]
    (src/script.js line 48) and is printed by [entry.price.toFixed(2)]
    (line 65).  This file bounds the error of Stdlib's [SpecFloat]
    rounding, which [round_decimal] (Binary64.v) uses, and derives that
    [toFixed(2)] prints the exact hundredths of every decimal with at
    most two fraction digits below [2^51 / 100]:

    - [binary_round_aux_bracket]: rounding a mantissa of at least 53 bits
      keeps its top 53 bits and adds 0 or 1 in the last place;
    - [SFdiv_bracket]: the quotient of two integers is within one unit of
      its 53-bit truncation; [binary_normalize_exact]: integers below
      [2^53] are exact;
    - [to_fixed_scaled]: [toFixed(2)] of [v / 2^L] is [P] hundredths when
      [100 v / 2^L] lies within half a unit of [P];
    - [to_fixed_parse_float_scan] and [parse_float_nan_scan]: the price
      cell of a parsed decimal, and when [parseFloat] gives NaN, in terms
      of the scanner; LiteralSpec.v restates them in terms of the
      grammar of StrDecimalLiteral. *)

From S2P Require Import Prelude Binary64 NumberFormat NumberParse.

#[local] Open Scope Z_scope.

(** ** Binary digits *)

Lemma digits2_pos_size p : digits2_pos p = Pos.size p.
Proof. induction p; simpl; congruence. Qed.

Lemma Zdigits2_log2 p : Zdigits2 (Zpos p) = Z.log2 (Zpos p) + 1.
Proof. destruct p; simpl; rewrite ?digits2_pos_size; lia. Qed.

Lemma Zdigits2_bounds m : 0 < m -> 2 ^ (Zdigits2 m - 1) <= m < 2 ^ Zdigits2 m.
Proof.
  intros Hm. destruct m as [|p|p]; try lia.
  rewrite Zdigits2_log2, Z.add_simpl_r. pose proof (Z.log2_spec (Zpos p)). lia.
Qed.

Lemma Zdigits2_unique m d : 2 ^ (d - 1) <= m < 2 ^ d -> 0 < d -> Zdigits2 m = d.
Proof.
  intros Hb Hd. destruct m as [|p|p].
  - pose proof (Z.pow_pos_nonneg 2 (d - 1)). lia.
  - rewrite Zdigits2_log2. rewrite (Z.log2_unique (Zpos p) (d - 1)); [lia|lia|].
    rewrite Z.sub_1_r, Z.succ_pred. exact Hb.
  - pose proof (Z.pow_pos_nonneg 2 (d - 1)). lia.
Qed.

Lemma Zdigits2_le m k : 0 < m < 2 ^ k -> Zdigits2 m <= k.
Proof.
  intros Hm. pose proof (Zdigits2_bounds m ltac:(lia)) as Hb.
  destruct (Z.le_gt_cases (Zdigits2 m) k) as [|Hk]; [assumption|].
  assert (2 ^ k <= 2 ^ (Zdigits2 m - 1)) by (apply Z.pow_le_mono_r; lia). lia.
Qed.

(** ** Shifting right *)

Lemma shr_1_m x : 0 <= shr_m x -> shr_m (shr_1 x) = shr_m x / 2.
Proof.
  destruct x as [m r s]; simpl. intros Hm.
  destruct m as [|[p|p|]|p]; simpl; try lia; try reflexivity.
  - apply Z.div_unique with 1; lia.
  - apply Z.div_unique with 0; lia.
Qed.

Lemma iter_pos_div {A} (f : A -> A) (g : A -> Z) :
  (forall x, 0 <= g x -> g (f x) = g x / 2) ->
  forall n x, 0 <= g x -> g (iter_pos f n x) = g x / 2 ^ Zpos n.
Proof.
  intros Hf. assert (Hnn : forall x, 0 <= g x -> 0 <= g (f x)).
  { intros x Hx. rewrite Hf by exact Hx. apply Z.div_pos; lia. }
  assert (Hdd : forall a k, 0 <= a -> 0 <= a / 2 ^ Zpos k).
  { intros a k Ha. apply Z.div_pos; [lia | apply Z.pow_pos_nonneg; lia]. }
  assert (Hp : forall k, 0 < 2 ^ Zpos k) by (intros; apply Z.pow_pos_nonneg; lia).
  induction n as [n IH|n IH|]; intros x Hx; simpl.
  - assert (H1 : g (iter_pos f n (f x)) = g (f x) / 2 ^ Zpos n) by (apply IH, Hnn, Hx).
    rewrite IH by (rewrite H1; apply Hdd, Hnn, Hx).
    rewrite H1, Hf, !Z.div_div by (try apply Hp; lia).
    f_equal. rewrite (Pos2Z.inj_xI n). replace (2 * Zpos n + 1) with (Zpos n + Zpos n + 1) by lia.
    rewrite !Z.pow_add_r by lia. ring.
  - assert (H1 : g (iter_pos f n x) = g x / 2 ^ Zpos n) by (apply IH, Hx).
    rewrite IH by (rewrite H1; apply Hdd, Hx).
    rewrite H1, !Z.div_div by (try apply Hp; lia).
    f_equal. rewrite (Pos2Z.inj_xO n). replace (2 * Zpos n) with (Zpos n + Zpos n) by lia.
    rewrite !Z.pow_add_r by lia. ring.
  - rewrite Hf by exact Hx. reflexivity.
Qed.

Lemma shr_m_shr mrs e n :
  0 <= shr_m mrs ->
  shr_m (fst (shr mrs e n)) = shr_m mrs / 2 ^ Z.max 0 n /\ snd (shr mrs e n) = e + Z.max 0 n.
Proof.
  intros Hm. destruct n as [|p|p]; simpl.
  - rewrite Z.div_1_r. lia.
  - split; [apply (iter_pos_div shr_1 shr_m shr_1_m p mrs Hm) | lia].
  - rewrite Z.div_1_r. lia.
Qed.

Lemma round_nearest_even_cases m l : round_nearest_even m l = m \/ round_nearest_even m l = m + 1.
Proof. destruct l as [|[]]; simpl; try destruct Z.even; auto. Qed.

(** ** Rounding to nearest, ties to even *)

Lemma shr_fexp_spec m e l :
  0 <= m ->
  shr_m (fst (shr_fexp prec emax m e l)) = m / 2 ^ Z.max 0 (fexp prec emax (Zdigits2 m + e) - e) /\
  snd (shr_fexp prec emax m e l) = e + Z.max 0 (fexp prec emax (Zdigits2 m + e) - e).
Proof.
  intros Hm. unfold shr_fexp.
  assert (Hr : shr_m (shr_record_of_loc m l) = m) by (destruct l as [|[]]; reflexivity).
  rewrite <- Hr at 3. apply shr_m_shr. rewrite Hr. exact Hm.
Qed.

Lemma shr_fexp_noshift m e l :
  fexp prec emax (Zdigits2 m + e) - e <= 0 -> shr_fexp prec emax m e l = (shr_record_of_loc m l, e).
Proof.
  unfold shr_fexp, shr. intros H. destruct (fexp prec emax (Zdigits2 m + e) - e); [done | lia | done].
Qed.

Lemma loc_of_shr_record_of_loc m l : loc_of_shr_record (shr_record_of_loc m l) = l.
Proof. destruct l as [|[]]; reflexivity. Qed.

Lemma fexp_normal e : -1074 <= e - 53 -> fexp prec emax e = e - 53.
Proof. unfold fexp, emin, prec, emax. lia. Qed.

Lemma div_pow2_window m d :
  2 ^ (d - 1) <= m < 2 ^ d -> 53 <= d -> 2 ^ 52 <= m / 2 ^ (d - 53) < 2 ^ 53.
Proof.
  intros [Hlo Hhi] Hd. assert (Hp : 0 < 2 ^ (d - 53)) by (apply Z.pow_pos_nonneg; lia).
  split.
  - apply Z.div_le_lower_bound; [exact Hp|]. rewrite <- Z.pow_add_r by lia.
    replace (d - 53 + 52) with (d - 1) by lia. exact Hlo.
  - apply Z.div_lt_upper_bound; [exact Hp|]. rewrite <- Z.pow_add_r by lia.
    replace (d - 53 + 53) with d by lia. exact Hhi.
Qed.

(** ** The rounding of [binary_round_aux] *)

Lemma pow2_pos k : 0 <= k -> 0 < 2 ^ k.
Proof. intros. apply Z.pow_pos_nonneg; lia. Qed.


(** The right shift [shr_fexp] applies to a mantissa [mx] at exponent [ex]. *)
Definition rshift (mx ex : Z) : Z := Z.max 0 (fexp prec emax (Zdigits2 mx + ex) - ex).

Lemma rshift_window mx ex : 0 <= mx -> mx / 2 ^ rshift mx ex < 2 ^ 53 /\ -1074 <= ex + rshift mx ex.
Proof.
  intros Hm. split; [|unfold rshift, fexp, emin, prec, emax; lia].
  destruct (Z.eq_dec mx 0) as [->|Hm0]; [rewrite Z.div_0_l; [lia | apply Z.pow_nonzero; unfold rshift; lia]|].
  pose proof (Zdigits2_bounds mx ltac:(lia)) as [_ Hb]. unfold rshift, fexp, emin, prec, emax.
  apply Z.div_lt_upper_bound; [apply pow2_pos; lia|]. rewrite <- Z.pow_add_r by lia.
  eapply Z.lt_le_trans; [exact Hb | apply Z.pow_le_mono_r; lia].
Qed.

(** Rounding keeps the shifted mantissa [mx / 2^rshift] and adds the
    rounding increment of [round_nearest_even]; the result is +0 when
    both are zero, and a carry out of 53 bits moves the exponent up by
    one. *)
Lemma binary_round_aux_rne mx ex lx :
  0 <= mx -> ex + rshift mx ex <= 971 ->
  let m2 := round_nearest_even (mx / 2 ^ rshift mx ex)
              (loc_of_shr_record (fst (shr_fexp prec emax mx ex lx))) in
  (m2 = 0 /\ binary_round_aux prec emax false mx ex lx = S754_zero false) \/
  (m2 = 2 ^ 53 /\ ex + rshift mx ex = 971 /\ binary_round_aux prec emax false mx ex lx = S754_infinity false) \/
  exists M E,
    binary_round_aux prec emax false mx ex lx = S754_finite false M E /\
    (E = ex + rshift mx ex \/ E = ex + rshift mx ex + 1 /\ Zpos M = 2 ^ 52) /\ Zpos M < 2 ^ 53 /\
    Zpos M * 2 ^ (E - (ex + rshift mx ex)) = m2.
Proof.
  intros Hmx Hov m2. set (r := rshift mx ex) in *.
  assert (Hr : 0 <= r) by (unfold r, rshift; lia).
  destruct (rshift_window mx ex Hmx) as [Hw He1]. fold r in Hw, He1.
  assert (Hm1 : 0 <= mx / 2 ^ r) by (apply Z.div_pos; [lia | apply pow2_pos; lia]).
  unfold binary_round_aux.
  destruct (shr_fexp_spec mx ex lx ltac:(lia)) as [Hs1 Hse1]. fold (rshift mx ex) r in Hs1, Hse1.
  unfold m2 in *. clear m2.
  destruct (shr_fexp prec emax mx ex lx) as [mrs1 e1]. simpl in Hs1, Hse1 |- *.
  rewrite <- Hs1.
  set (m2 := round_nearest_even (shr_m mrs1) (loc_of_shr_record mrs1)).
  assert (Hm2 : m2 = mx / 2 ^ r \/ m2 = mx / 2 ^ r + 1)
    by (rewrite <- Hs1; apply round_nearest_even_cases).
  assert (Hd2 : Zdigits2 m2 <= 53 /\ m2 < 2 ^ 53 \/ Zdigits2 m2 = 54 /\ m2 = 2 ^ 53).
  { destruct (Z.eq_dec m2 (2 ^ 53)) as [Heq|Hne].
    - right. split; [apply Zdigits2_unique; lia | exact Heq].
    - left. destruct (Z.eq_dec m2 0) as [->|]; [split; [simpl; lia | lia]|].
      split; [apply Zdigits2_le|]; lia. }
  destruct (shr_fexp_spec m2 e1 loc_Exact ltac:(lia)) as [Hm3 He3].
  destruct (shr_fexp prec emax m2 e1 loc_Exact) as [mrs3 e3]. simpl in Hm3, He3.
  assert (Hv : shr_m mrs3 * 2 ^ (e3 - e1) = m2 /\ 0 <= shr_m mrs3 < 2 ^ 53 /\
               (e3 = e1 \/ e3 = e1 + 1 /\ shr_m mrs3 = 2 ^ 52)).
  { unfold fexp, emin, prec, emax in Hm3, He3.
    destruct Hd2 as [[H53 Hlt]|[H54 Heq]].
    - rewrite Z.max_l in Hm3, He3 by lia. rewrite Hm3, Z.div_1_r. replace (e3 - e1) with 0 by lia. lia.
    - rewrite H54, Z.max_r in Hm3, He3 by lia. rewrite Z.max_l in Hm3, He3 by lia.
      replace (54 + e1 - 53 - e1) with 1 in Hm3 by lia.
      replace (e3 - e1) with 1 by lia. rewrite Hm3, Heq.
      split; [reflexivity | split; [split; [discriminate | reflexivity] | right; split; [lia | reflexivity]]]. }
  destruct Hv as (Hv & Hpos & Hlim).
  destruct (shr_m mrs3) as [|M|M] eqn:EM; [left | right | lia].
  - split; [lia | reflexivity].
  - destruct (Z.leb_spec e3 (emax - prec)) as [Hle|Hgt]; unfold emax, prec in *.
    + right. exists M, e3. split_and!; [reflexivity | lia | lia |].
      replace (e3 - (ex + r)) with (e3 - e1) by lia. exact Hv.
    + left. split_and!; [| lia | reflexivity].
      destruct Hlim as [-> | [He31 Hm]]; [lia|]. rewrite Hm in Hv. rewrite <- Hv.
      replace (e3 - e1) with 1 by lia. reflexivity.
Qed.

(** With a positive shifted mantissa the result is finite. *)
Lemma binary_round_aux_spec mx ex lx :
  0 < mx / 2 ^ rshift mx ex -> ex + rshift mx ex < 971 ->
  exists M E d,
    binary_round_aux prec emax false mx ex lx = S754_finite false M E /\
    ex + rshift mx ex <= E <= ex + rshift mx ex + 1 /\
    Zpos M * 2 ^ (E - (ex + rshift mx ex)) = mx / 2 ^ rshift mx ex + d /\
    mx / 2 ^ rshift mx ex + d =
      round_nearest_even (mx / 2 ^ rshift mx ex) (loc_of_shr_record (fst (shr_fexp prec emax mx ex lx))).
Proof.
  intros Hm1 Hov.
  assert (Hmx : 0 < mx).
  { destruct (Z.le_gt_cases mx 0); [|lia].
    assert (mx / 2 ^ rshift mx ex <= 0) by (apply Z.div_le_upper_bound; [apply pow2_pos; unfold rshift; lia | lia]).
    lia. }
  pose proof (round_nearest_even_cases (mx / 2 ^ rshift mx ex)
                (loc_of_shr_record (fst (shr_fexp prec emax mx ex lx)))) as Hc.
  destruct (binary_round_aux_rne mx ex lx ltac:(lia) ltac:(lia)) as [[H0 _]|[(_ & H971 & _)|(M & E & HR & HE & HM & HV)]];
    [lia | lia |].
  exists M, E, (round_nearest_even (mx / 2 ^ rshift mx ex)
                  (loc_of_shr_record (fst (shr_fexp prec emax mx ex lx))) - mx / 2 ^ rshift mx ex).
  split_and!; [exact HR | lia | lia | lia | lia].
Qed.

(** Rounding a mantissa of at least 53 bits in the normal range keeps its
    top 53 bits [m1 = mx / 2^t] and adds 0 or 1 in the last place. *)
Lemma binary_round_aux_bracket mx ex lx :
  0 < mx -> 53 <= Zdigits2 mx -> -1074 <= ex + Zdigits2 mx - 53 -> ex + Zdigits2 mx < 1024 ->
  exists M E d,
    binary_round_aux prec emax false mx ex lx = S754_finite false M E /\
    (d = 0 \/ d = 1) /\ ex + (Zdigits2 mx - 53) <= E /\
    Zpos M * 2 ^ (E - (ex + (Zdigits2 mx - 53))) = mx / 2 ^ (Zdigits2 mx - 53) + d /\
    (lx = loc_Exact -> Zdigits2 mx = 53 -> d = 0).
Proof.
  intros Hm Hd Hlo Hhi.
  assert (Hr : rshift mx ex = Zdigits2 mx - 53) by (unfold rshift; rewrite fexp_normal by lia; lia).
  pose proof (div_pow2_window mx (Zdigits2 mx) (Zdigits2_bounds mx Hm) Hd) as Hw.
  destruct (binary_round_aux_spec mx ex lx) as (M & E & d & HR & HE & HV & Hround); rewrite ?Hr;
    [lia | lia |]. rewrite Hr in HE, HV, Hround.
  exists M, E, d. split_and!; [exact HR | | lia | exact HV |].
  - pose proof (round_nearest_even_cases (mx / 2 ^ (Zdigits2 mx - 53))
                  (loc_of_shr_record (fst (shr_fexp prec emax mx ex lx)))). lia.
  - intros -> H53. rewrite shr_fexp_noshift in Hround by (rewrite fexp_normal; lia).
    simpl in Hround. lia.
Qed.

(** A mantissa that needs no shift is kept exactly. *)
Lemma binary_round_aux_exact p ex :
  fexp prec emax (Zdigits2 (Zpos p) + ex) <= ex -> ex <= 971 ->
  binary_round_aux prec emax false (Zpos p) ex loc_Exact = S754_finite false p ex.
Proof.
  intros Hf He. unfold binary_round_aux.
  rewrite shr_fexp_noshift by lia. simpl.
  rewrite shr_fexp_noshift by lia. simpl.
  rewrite (proj2 (Z.leb_le ex (emax - prec))) by (unfold emax, prec; lia). reflexivity.
Qed.

(** ** Rounding to nearest: the discarded fraction *)

Definition frac_loc (n d : Z) : location :=
  if n =? 0 then loc_Exact else loc_Inexact (Z.compare (2 * n) d).

Definition shr_rep (x : shr_record) (n d : Z) : Prop :=
  0 <= n < d /\ shr_r x = (d <=? 2 * n) /\ shr_s x = negb (n =? 0) && negb (2 * n =? d).

Lemma shr_record_of_loc_rep m n d : 0 <= n < d -> shr_rep (shr_record_of_loc m (frac_loc n d)) n d.
Proof. intros Hn. unfold frac_loc, shr_rep. split; [lia|]. zbool. Qed.

Lemma loc_of_shr_rep x n d : shr_rep x n d -> loc_of_shr_record x = frac_loc n d.
Proof.
  destruct x as [m r s]. unfold shr_rep, frac_loc. simpl. intros (Hn & -> & ->). zbool.
Qed.

Lemma shr_1_rep x n d :
  0 <= shr_m x -> shr_rep x n d -> shr_rep (shr_1 x) ((shr_m x mod 2) * d + n) (2 * d).
Proof.
  destruct x as [m r s]. unfold shr_rep. simpl. intros Hm (Hn & Hr & Hs).
  assert (Hrs : r || s = negb (n =? 0)) by (rewrite Hr, Hs; zbool).
  destruct m as [|[p|p|]|p]; simpl; try lia; rewrite ?Hrs.
  - change (0 mod 2) with 0. split; [lia|]. zbool.
  - replace (Zpos p~1 mod 2) with 1 by (apply Z.mod_unique with (Zpos p); lia).
    split; [lia|]. zbool.
  - replace (Zpos p~0 mod 2) with 0 by (apply Z.mod_unique with (Zpos p); lia).
    split; [lia|]. zbool.
  - change (1 mod 2) with 1. split; [lia|]. zbool.
Qed.

Lemma iter_pos_nat {A} (f : A -> A) p x : iter_pos f p x = Nat.iter (Pos.to_nat p) f x.
Proof.
  revert x. induction p as [p IH|p IH|]; intros x; cbn [iter_pos].
  - rewrite IH, IH, Pos2Nat.inj_xI, <- Nat.iter_add, <- Nat.iter_succ_r. f_equal. lia.
  - rewrite IH, IH, Pos2Nat.inj_xO, <- Nat.iter_add. f_equal. lia.
  - reflexivity.
Qed.

Lemma iter_shr_1_rep k x n d :
  0 <= shr_m x -> shr_rep x n d ->
  shr_rep (Nat.iter k shr_1 x) ((shr_m x mod 2 ^ Z.of_nat k) * d + n) (2 ^ Z.of_nat k * d) /\
  shr_m (Nat.iter k shr_1 x) = shr_m x / 2 ^ Z.of_nat k.
Proof.
  intros Hm Hr. induction k as [|k [IHr IHm]].
  - simpl. rewrite Z.mod_1_r, Z.div_1_r, Z.mul_1_l. auto.
  - rewrite Nat.iter_succ. set (y := Nat.iter k shr_1 x) in *.
    assert (Hy : 0 <= shr_m y) by (rewrite IHm; apply Z.div_pos; [lia | apply pow2_pos; lia]).
    pose proof (shr_1_rep y _ _ Hy IHr) as H.
    assert (Hp : 2 ^ Z.of_nat (S k) = 2 ^ Z.of_nat k * 2)
      by (rewrite Nat2Z.inj_succ, Z.pow_succ_r by lia; ring).
    pose proof (pow2_pos (Z.of_nat k) ltac:(lia)).
    rewrite Hp, shr_1_m, IHm, Z.div_div by (lia || assumption). split; [|reflexivity].
    rewrite Z.rem_mul_r by lia. rewrite IHm in H.
    replace (((shr_m x mod 2 ^ Z.of_nat k + 2 ^ Z.of_nat k * (shr_m x / 2 ^ Z.of_nat k mod 2)) * d + n))
      with (shr_m x / 2 ^ Z.of_nat k mod 2 * (2 ^ Z.of_nat k * d) + (shr_m x mod 2 ^ Z.of_nat k * d + n)) by ring.
    replace (2 ^ Z.of_nat k * 2 * d) with (2 * (2 ^ Z.of_nat k * d)) by ring. exact H.
Qed.

Lemma shr_fexp_rep mx ex n d :
  0 <= mx -> 0 <= n < d ->
  let t := Z.max 0 (fexp prec emax (Zdigits2 mx + ex) - ex) in
  shr_rep (fst (shr_fexp prec emax mx ex (frac_loc n d))) ((mx mod 2 ^ t) * d + n) (2 ^ t * d).
Proof.
  intros Hm Hn t. unfold t, shr_fexp, shr.
  pose proof (shr_record_of_loc_rep mx n d Hn) as H0.
  destruct (fexp prec emax (Zdigits2 mx + ex) - ex) as [|p|p]; simpl fst.
  - rewrite Z.pow_0_r, Z.mod_1_r, Z.mul_1_l. exact H0.
  - rewrite iter_pos_nat, Z.max_r by lia.
    assert (Hr : shr_m (shr_record_of_loc mx (frac_loc n d)) = mx) by (destruct (frac_loc n d) as [|[]]; reflexivity).
    destruct (iter_shr_1_rep (Pos.to_nat p) (shr_record_of_loc mx (frac_loc n d)) n d ltac:(rewrite Hr; lia) H0) as [H _].
    rewrite Hr, positive_nat_Z in H. exact H.
  - rewrite Z.max_l, Z.pow_0_r, Z.mod_1_r, Z.mul_1_l by lia. exact H0.
Qed.

Lemma round_nearest_even_frac m n d :
  0 <= n < d -> Z.abs (2 * d * (round_nearest_even m (frac_loc n d) - m) - 2 * n) <= d.
Proof.
  intros Hn. unfold frac_loc. destruct (Z.eqb_spec n 0) as [->|Hn0]; simpl; [lia|].
  destruct (Z.compare_spec (2 * n) d); simpl; try destruct (Z.even m); lia.
Qed.

(** Rounding to nearest: the result is [m1 + δ] units [2^U] (+0 when
    that is zero), where [m1] units is the exact value [(mx + n / d) * 2^ex]
    truncated, and [m1 + δ] is within half a unit of it;
    [U = ex + rshift mx ex]. *)
Lemma binary_round_aux_nearest mx ex n d :
  0 <= mx -> ex + rshift mx ex <= 971 -> 0 <= n < d ->
  exists δ, (δ = 0 \/ δ = 1) /\
    Z.abs (2 * (2 ^ rshift mx ex * d) * δ
           - 2 * ((mx mod 2 ^ rshift mx ex) * d + n)) <= 2 ^ rshift mx ex * d /\
    ((mx / 2 ^ rshift mx ex + δ = 0 /\
      binary_round_aux prec emax false mx ex (frac_loc n d) = S754_zero false) \/
     (mx / 2 ^ rshift mx ex + δ = 2 ^ 53 /\ ex + rshift mx ex = 971 /\
      binary_round_aux prec emax false mx ex (frac_loc n d) = S754_infinity false) \/
     exists M E,
       binary_round_aux prec emax false mx ex (frac_loc n d) = S754_finite false M E /\
       (E = ex + rshift mx ex \/ E = ex + rshift mx ex + 1 /\ Zpos M = 2 ^ 52) /\ Zpos M < 2 ^ 53 /\
       Zpos M * 2 ^ (E - (ex + rshift mx ex)) = mx / 2 ^ rshift mx ex + δ).
Proof.
  intros Hm Hov Hn.
  pose proof (binary_round_aux_rne mx ex (frac_loc n d) Hm Hov) as Hr. cbv zeta in Hr.
  pose proof (shr_fexp_rep mx ex n d ltac:(lia) Hn) as Hrep. cbv zeta in Hrep. fold (rshift mx ex) in Hrep.
  rewrite (loc_of_shr_rep _ _ _ Hrep) in Hr. destruct Hrep as (Hb & _).
  set (m1 := mx / 2 ^ rshift mx ex) in *.
  exists (round_nearest_even m1 (frac_loc ((mx mod 2 ^ rshift mx ex) * d + n) (2 ^ rshift mx ex * d)) - m1).
  pose proof (round_nearest_even_frac m1 _ _ Hb) as Hne.
  pose proof (round_nearest_even_cases m1 (frac_loc ((mx mod 2 ^ rshift mx ex) * d + n) (2 ^ rshift mx ex * d))).
  split_and!; [lia | exact Hne |].
  replace (m1 + _) with (round_nearest_even m1 (frac_loc ((mx mod 2 ^ rshift mx ex) * d + n) (2 ^ rshift mx ex * d)))
    by lia.
  exact Hr.
Qed.

(** ** Division and normalisation *)

(** Correctly rounded division of two integers: the result is within one
    unit in the last place above the 53-bit truncation [p * 2^L / den]. *)
Lemma SFdiv_bracket p den :
  Zdigits2 (Zpos p) <= Zdigits2 (Zpos den) + 52 ->
  Zdigits2 (Zpos den) - Zdigits2 (Zpos p) <= 1021 ->
  exists M E L d,
    SFdiv prec emax (S754_finite false p 0) (S754_finite false den 0) = S754_finite false M E /\
    0 <= L /\ 0 <= E + L /\ (d = 0 \/ d = 1) /\
    Zpos M * 2 ^ (E + L) = Zpos p * 2 ^ L / Zpos den + d /\
    2 ^ 52 <= Zpos p * 2 ^ L / Zpos den < 2 ^ 53.
Proof.
  intros H1 H2. unfold SFdiv, SFdiv_core_binary.
  set (d1 := Zdigits2 (Zpos p)) in *. set (d2 := Zdigits2 (Zpos den)) in *.
  pose proof (Zdigits2_bounds (Zpos p) ltac:(lia)) as Bp.
  pose proof (Zdigits2_bounds (Zpos den) ltac:(lia)) as Bd. fold d1 d2 in Bp, Bd.
  assert (Hd1 : 1 <= d1) by (unfold d1; simpl; lia).
  assert (Hd2 : 1 <= d2) by (unfold d2; simpl; lia).
  rewrite !Z.add_0_r, Z.sub_0_r, fexp_normal by lia.
  replace (Z.min (d1 - d2 - 53) 0) with (d1 - d2 - 53) by lia.
  set (s := 0 - (d1 - d2 - 53)).
  assert (Hs : 0 < s) by (unfold s; lia).
  replace (match s with Zpos _ => Z.shiftl (Zpos p) s | Z0 => Zpos p | Zneg _ => 0 end)
    with (Zpos p * 2 ^ s) by (destruct s; try lia; rewrite Z.shiftl_mul_pow2 by lia; reflexivity).
  assert (HS : 2 ^ (d1 - 1) * 2 ^ s = 2 ^ 52 * 2 ^ d2)
    by (rewrite <- !Z.pow_add_r by lia; f_equal; unfold s; lia).
  assert (Hq : 2 ^ 52 <= Zpos p * 2 ^ s / Zpos den < 2 ^ 54).
  { split.
    - apply Z.div_le_lower_bound; [lia|].
      assert (Zpos den * 2 ^ 52 <= 2 ^ d2 * 2 ^ 52) by (apply Z.mul_le_mono_nonneg_r; lia).
      assert (2 ^ (d1 - 1) * 2 ^ s <= Zpos p * 2 ^ s)
        by (apply Z.mul_le_mono_nonneg_r; [pose proof (pow2_pos s); lia | lia]).
      lia.
    - apply Z.div_lt_upper_bound; [lia|].
      assert (E2 : 2 ^ d1 = 2 * 2 ^ (d1 - 1)) by (rewrite <- Z.pow_succ_r by lia; f_equal; lia).
      assert (E3 : 2 ^ d2 = 2 * 2 ^ (d2 - 1)) by (rewrite <- Z.pow_succ_r by lia; f_equal; lia).
      assert (Zpos p * 2 ^ s < 2 ^ d1 * 2 ^ s) by (apply Z.mul_lt_mono_pos_r; [apply pow2_pos; lia | lia]).
      assert (2 ^ 54 * 2 ^ (d2 - 1) <= 2 ^ 54 * Zpos den) by (apply Z.mul_le_mono_nonneg_l; lia).
      lia. }
  unfold Z.div in Hq. destruct (Z.div_eucl (Zpos p * 2 ^ s) (Zpos den)) as [q r] eqn:Hqr.
  simpl in Hq.
  pose proof (Zdigits2_bounds q ltac:(lia)) as Bq.
  assert (Hdq : Zdigits2 q = 53 \/ Zdigits2 q = 54).
  { destruct (Z.lt_ge_cases q (2 ^ 53)).
    - left. apply Zdigits2_unique; lia.
    - right. apply Zdigits2_unique; lia. }
  destruct (binary_round_aux_bracket q (d1 - d2 - 53) (new_location (Zpos den) r))
    as (M & E & d & HR & Hd & HE & HV & _); [lia | lia | lia | lia |].
  set (t := Zdigits2 q - 53) in *.
  assert (Hq' : q = Zpos p * 2 ^ s / Zpos den) by (unfold Z.div; rewrite Hqr; reflexivity).
  exists M, E, (s - t), d. simpl xorb. rewrite HR. split; [reflexivity|].
  assert (Ht : 0 <= t <= 1) by (unfold t; lia).
  assert (Hm1 : Zpos p * 2 ^ (s - t) / Zpos den = q / 2 ^ t).
  { rewrite Hq', Z.div_div by (try apply pow2_pos; lia).
    assert (Hst : 2 ^ s = 2 ^ (s - t) * 2 ^ t) by (rewrite <- Z.pow_add_r by lia; f_equal; lia).
    rewrite Hst.
    rewrite Z.mul_assoc. symmetry.
    apply Z.div_mul_cancel_r; [lia | pose proof (pow2_pos t); lia]. }
  rewrite Hm1. split; [lia|]. split; [unfold s in *; lia|]. split; [exact Hd|]. split.
  - replace (E + (s - t)) with (E - (d1 - d2 - 53 + t)) by (unfold s; lia). exact HV.
  - apply (div_pow2_window q (Zdigits2 q)); lia.
Qed.

Lemma iter_xO_mul n k : Zpos (Pos.iter xO n k) = Zpos n * 2 ^ Zpos k.
Proof.
  induction k as [|k IH] using Pos.peano_ind; [simpl; lia|].
  rewrite Pos.iter_succ, Pos2Z.inj_succ, Z.pow_succ_r by lia.
  change (Zpos (Pos.iter xO n k)~0) with (2 * Zpos (Pos.iter xO n k)). rewrite IH. ring.
Qed.

(** An integer below [2^53] is represented exactly. *)
Lemma binary_normalize_exact N :
  0 < N < 2 ^ 53 ->
  exists M E K,
    binary_normalize prec emax N 0 false = S754_finite false M E /\
    0 <= K /\ 0 <= E + K /\ Zpos M * 2 ^ (E + K) = N * 2 ^ K /\ N * 2 ^ K < 2 ^ 53.
Proof.
  intros HN. destruct N as [|n|n]; try lia. simpl binary_normalize. unfold binary_round.
  pose proof (Zdigits2_bounds (Zpos n) ltac:(lia)) as Bn.
  change (Zpos (digits2_pos n)) with (Zdigits2 (Zpos n)).
  set (dn := Zdigits2 (Zpos n)) in *.
  assert (Hdn : 1 <= dn <= 53).
  { split; [unfold dn; simpl; lia|].
    destruct (Z.le_gt_cases dn 53); [lia|].
    assert (2 ^ 53 <= 2 ^ (dn - 1)) by (apply Z.pow_le_mono_r; lia). lia. }
  rewrite Z.add_0_r, fexp_normal by lia.
  set (k := 53 - dn).
  assert (Hal : exists mz, shl_align n 0 (dn - 53) = (mz, - k) /\ Zpos mz = Zpos n * 2 ^ k).
  { unfold shl_align. rewrite Z.sub_0_r. unfold k.
    destruct (dn - 53) as [|q|q] eqn:Eq; [|lia|].
    - exists n. simpl. split; [f_equal; lia | replace (53 - dn) with 0 by lia; lia].
    - exists (Pos.iter xO n q). split; [f_equal; lia | rewrite iter_xO_mul; do 2 f_equal; lia]. }
  destruct Hal as (mz & -> & Hmz).
  assert (Hw : 2 ^ 52 <= Zpos mz < 2 ^ 53).
  { rewrite Hmz. unfold k.
    assert (2 ^ 52 = 2 ^ (dn - 1) * 2 ^ (53 - dn)) by (rewrite <- Z.pow_add_r by lia; f_equal; lia).
    assert (2 ^ 53 = 2 ^ dn * 2 ^ (53 - dn)) by (rewrite <- Z.pow_add_r by lia; f_equal; lia).
    pose proof (pow2_pos (53 - dn)). nia. }
  assert (Hd : Zdigits2 (Zpos mz) = 53) by (apply Zdigits2_unique; lia).
  destruct (binary_round_aux_bracket (Zpos mz) (- k) loc_Exact) as (M & E & d & HR & _ & HE & HV & Hex);
    [lia | lia | unfold k; lia | unfold k; lia |].
  rewrite HR. exists M, E, k. rewrite (Hex eq_refl Hd), Hd in HV.
  rewrite Z.sub_diag, Z.add_0_r, Z.pow_0_r, Z.div_1_r, Z.add_0_r in HV.
  repeat split; unfold k in *; try lia.
  replace (E + (53 - dn)) with (E - - (53 - dn)) by lia. lia.
Qed.

(** ** What [toFixed(2)] prints *)

Lemma div_window N D P : 0 < D -> 2 * P * D <= N < 2 * (P + 1) * D -> N / (2 * D) = P.
Proof. intros HD HN. symmetry. apply Z.div_unique with (N - 2 * D * P); lia. Qed.

Lemma mul_window_cancel a b c X : 0 < X -> a * X <= b * X < c * X -> a <= b < c.
Proof. intros HX [H1 H2]. split; nia. Qed.

(** [toFixed(2)] of a positive number [v / 2^L] prints [P] hundredths when
    [100 * v / 2^L] lies within half a unit of [P]. *)
Lemma to_fixed_scaled M E L P :
  0 <= L -> 0 <= E + L -> Zpos M * 2 ^ (E + L) <= 2 ^ 53 ->
  2 * P * 2 ^ L <= 200 * (Zpos M * 2 ^ (E + L)) + 2 ^ L < 2 * (P + 1) * 2 ^ L ->
  to_fixed (S754_finite false M E) 2 = fixed_digits P 2.
Proof.
  intros HL HEL Hv HP. unfold to_fixed, ratio, fixed_n.
  change (10 ^ Z.of_nat 2) with 100.
  destruct (Z.le_gt_cases 0 E) as [HE|HE].
  - rewrite (Z.max_r 0 E), (Z.max_l 0 (- E)), Z.pow_0_r by lia.
    rewrite Z.pow_add_r in Hv, HP by lia.
    pose proof (pow2_pos L). pose proof (pow2_pos E).
    assert (Hs : 2 * P * 2 ^ L <= (200 * (Zpos M * 2 ^ E) + 1) * 2 ^ L < 2 * (P + 1) * 2 ^ L) by lia.
    apply mul_window_cancel in Hs; [|lia].
    assert (Zpos M * 2 ^ E <= 2 ^ 53) by nia.
    rewrite (proj2 (Z.leb_gt _ _)) by lia.
    rewrite div_window with (P := P) by lia. reflexivity.
  - rewrite (Z.max_l 0 E), (Z.max_r 0 (- E)), Z.pow_0_r, Z.mul_1_r by lia.
    assert (H2L : 2 ^ L = 2 ^ (- E) * 2 ^ (E + L)) by (rewrite <- Z.pow_add_r by lia; f_equal; lia).
    rewrite H2L in HP. pose proof (pow2_pos (E + L)). pose proof (pow2_pos (- E)).
    assert (Hs : 2 * P * 2 ^ (- E) * 2 ^ (E + L) <= (200 * Zpos M + 2 ^ (- E)) * 2 ^ (E + L)
                 < 2 * (P + 1) * 2 ^ (- E) * 2 ^ (E + L)) by lia.
    apply mul_window_cancel in Hs; [|lia].
    assert (Zpos M <= 2 ^ 53) by nia.
    rewrite (proj2 (Z.leb_gt _ _)) by lia.
    rewrite div_window with (P := P) by lia. reflexivity.
Qed.


(** A correctly rounded quotient [p / den] with [den <= 100] dividing
    [100 * p] prints its exact hundredths [P]: the error of one unit in
    the 53rd bit stays below half a hundredth while [P < 2^51]. *)
Lemma to_fixed_SFdiv p den P :
  Zpos den <= 100 -> Zpos p * 100 = P * Zpos den -> P < 2 ^ 51 ->
  to_fixed (SFdiv prec emax (S754_finite false p 0) (S754_finite false den 0)) 2 = fixed_digits P 2.
Proof.
  intros Hden HpP HP.
  assert (Hdp : Zdigits2 (Zpos p) <= 51) by (apply Zdigits2_le; nia).
  assert (Hdd : Zdigits2 (Zpos den) <= 7) by (apply Zdigits2_le; lia).
  pose proof (Zdigits2_bounds (Zpos p) ltac:(lia)).
  assert (1 <= Zdigits2 (Zpos p)) by (simpl; lia).
  assert (1 <= Zdigits2 (Zpos den)) by (simpl; lia).
  destruct (SFdiv_bracket p den) as (M & E & L & d & -> & HL & HEL & Hd & HV & Hw); [lia | lia |].
  set (m1 := Zpos p * 2 ^ L / Zpos den) in *.
  pose proof (pow2_pos L HL).
  pose proof (Z.mul_div_le (Zpos p * 2 ^ L) (Zpos den) ltac:(lia)) as Hlo.
  pose proof (Z.mul_succ_div_gt (Zpos p * 2 ^ L) (Zpos den) ltac:(lia)) as Hhi.
  fold m1 in Hlo, Hhi.
  assert (Hm1 : 100 * m1 <= P * 2 ^ L).
  { apply (Z.mul_le_mono_pos_r _ _ (Zpos den)); [lia|]. nia. }
  assert (Hm2 : P * 2 ^ L < 100 * (m1 + 1)).
  { apply (Z.mul_lt_mono_pos_r (Zpos den)); [lia|]. nia. }
  assert (Hm3 : 200 < 2 ^ L) by nia.
  apply (to_fixed_scaled M E L); [lia | lia | lia | rewrite HV; lia].
Qed.

(** A nonnegative decimal [m * 10^e] with [e >= -2] and fewer than
    [2^51] hundredths prints as its exact hundredths. *)
Lemma to_fixed_round_decimal m e :
  0 <= m -> -2 <= e -> m * 10 ^ (e + 2) < 2 ^ 51 ->
  to_fixed (round_decimal false m e) 2 = fixed_digits (m * 10 ^ (e + 2)) 2.
Proof.
  intros Hm He HP. destruct m as [|p|p]; [reflexivity | | lia]. unfold round_decimal.
  destruct (Z.le_gt_cases 0 e) as [He0|He0].
  - rewrite (proj2 (Z.leb_le 0 e)) by exact He0. simpl cond_Zopp.
    rewrite Z.pow_add_r in HP |- * by lia. change (10 ^ 2) with 100 in HP |- *.
    pose proof (Z.pow_pos_nonneg 10 e ltac:(lia)).
    destruct (binary_normalize_exact (Zpos p * 10 ^ e)) as (M & E & K & -> & HK & HEK & HV & Hlt);
      [nia|].
    pose proof (pow2_pos K HK).
    apply (to_fixed_scaled M E K); [lia | lia | lia | rewrite HV; nia].
  - rewrite (proj2 (Z.leb_gt 0 e)) by exact He0.
    assert (e = -1 \/ e = -2) as [->| ->] by lia; apply to_fixed_SFdiv; simpl; lia.
Qed.

(** ** No NaN from a literal *)

Lemma binary_round_aux_not_nan sx mx ex lx :
  0 <= mx -> binary_round_aux prec emax sx mx ex lx <> S754_nan.
Proof.
  intros Hm. unfold binary_round_aux.
  destruct (shr_fexp_spec mx ex lx Hm) as [Hm1 _].
  destruct (shr_fexp prec emax mx ex lx) as [mrs1 e1]. simpl in Hm1.
  set (m2 := round_nearest_even (shr_m mrs1) (loc_of_shr_record mrs1)).
  assert (H2 : 0 <= m2).
  { assert (0 <= shr_m mrs1) by (rewrite Hm1; apply Z.div_pos; [lia | apply pow2_pos; lia]).
    destruct (round_nearest_even_cases (shr_m mrs1) (loc_of_shr_record mrs1)); unfold m2; lia. }
  destruct (shr_fexp_spec m2 e1 loc_Exact H2) as [Hm3 _].
  destruct (shr_fexp prec emax m2 e1 loc_Exact) as [mrs3 e3]. simpl in Hm3.
  assert (0 <= shr_m mrs3) by (rewrite Hm3; apply Z.div_pos; [lia | apply pow2_pos; lia]).
  destruct (shr_m mrs3); [done | destruct (_ <=? _); done | lia].
Qed.

Lemma binary_normalize_not_nan z e b : binary_normalize prec emax z e b <> S754_nan.
Proof.
  destruct z as [|p|p]; simpl; [done | |]; unfold binary_round;
    destruct shl_align; apply binary_round_aux_not_nan; lia.
Qed.

Lemma SFdiv_core_binary_nonneg m1 e1 m2 e2 :
  0 <= m1 -> 0 < m2 -> 0 <= fst (fst (SFdiv_core_binary prec emax m1 e1 m2 e2)).
Proof.
  intros H1 H2. unfold SFdiv_core_binary. cbv zeta.
  match goal with |- context [Z.div_eucl ?a ?b] =>
    assert (Ha : 0 <= a) by (destruct (e1 - e2 - _); [lia | apply Z.shiftl_nonneg; lia | lia]);
    pose proof (Z.div_pos a b Ha H2) as Hq; unfold Z.div in Hq; destruct (Z.div_eucl a b) end.
  exact Hq.
Qed.

Lemma SFdiv_finite_not_nan sx mx ex sy my ey :
  SFdiv prec emax (S754_finite sx mx ex) (S754_finite sy my ey) <> S754_nan.
Proof.
  simpl. pose proof (SFdiv_core_binary_nonneg (Zpos mx) ex (Zpos my) ey ltac:(lia) ltac:(lia)) as Hq.
  destruct (SFdiv_core_binary _ _ _ _ _ _) as [[q ez] lz]. apply binary_round_aux_not_nan, Hq.
Qed.

Lemma round_decimal_not_nan neg m e : round_decimal neg m e <> S754_nan.
Proof.
  unfold round_decimal. destruct m as [|p|p]; try done.
  destruct (0 <=? e); [apply binary_normalize_not_nan | apply SFdiv_finite_not_nan].
Qed.

(** ** [parseFloat] *)

Lemma span_digits_nonneg s : 0 <= fst (fst (span_digits s)).
Proof.
  induction s as [|c s IH]; simpl; [lia|].
  destruct (is_digit c) eqn:Hc; [|simpl; lia].
  destruct (span_digits s) as [[v len] r]. simpl in *.
  unfold is_digit in Hc. apply andb_true_iff in Hc as [Hc _]. apply Z.leb_le in Hc.
  unfold digit_value. pose proof (Z.pow_pos_nonneg 10 (Z.of_nat len) ltac:(lia) ltac:(lia)). nia.
Qed.

Lemma scan_literal_nonneg s neg m e : scan_literal s = Some (LitDecimal neg m e) -> 0 <= m.
Proof.
  unfold scan_literal. destruct (scan_sign s) as [sg r]. unfold scan_unsigned.
  destruct (String.prefix "Infinity" r); [done|].
  pose proof (span_digits_nonneg r) as H1.
  destruct (span_digits r) as [[iv ilen] r1]. simpl in H1.
  assert (H2 : 0 <= fst (fst (match r1 with String "." r => span_digits r | _ => (0, O, r1) end)))
    by (repeat case_match; simpl; try lia; subst; apply span_digits_nonneg).
  destruct (match r1 with String "." r => span_digits r | _ => (0, O, r1) end) as [[fv flen] r2].
  simpl in H2. pose proof (Z.pow_pos_nonneg 10 (Z.of_nat flen) ltac:(lia) ltac:(lia)).
  destruct ilen, flen; intros Hs; invc Hs; nia.
Qed.

(** [parseFloat] yields NaN exactly when the scanner reads no literal:
    a literal that is read never rounds to NaN. *)
Lemma parse_float_nan_scan s : parse_float_str s = NaN <-> scan_literal (trim_start s) = None.
Proof.
  unfold parse_float_str. split.
  - destruct (scan_literal (trim_start s)) as [[neg|neg m e]|]; simpl; try done.
    intros H. exfalso. exact (round_decimal_not_nan neg m e H).
  - intros ->. reflexivity.
Qed.

(** When the scanner reads [m * 10^e] with at most two fraction digits
    and fewer than [2^51] hundredths, [parseFloat(s).toFixed(2)] prints
    exactly the hundredths [m * 10^(e+2)]. *)
Lemma to_fixed_parse_float_scan s m e :
  scan_literal (trim_start s) = Some (LitDecimal false m e) -> -2 <= e -> m * 10 ^ (e + 2) < 2 ^ 51 ->
  to_fixed (parse_float_str s) 2 = fixed_digits (m * 10 ^ (e + 2)) 2.
Proof.
  intros Hs He HP. unfold parse_float_str. rewrite Hs.
  apply to_fixed_round_decimal; [exact (scan_literal_nonneg _ _ _ _ Hs) | exact He | exact HP].
Qed.

(** ** [Math.floor(Math.random() * 100)] *)

Lemma bounded_canonical m e :
  bounded prec emax m e = true -> fexp prec emax (Zdigits2 (Zpos m) + e) = e /\ e <= 971.
Proof.
  unfold bounded, canonical_mantissa. intros H. apply andb_true_iff in H as [H1 H2].
  apply Z.eqb_eq in H1. apply Z.leb_le in H2. split; [exact H1 | unfold emax, prec in H2; lia].
Qed.

(** [Math.floor(x * 100)] for a value [m * 2^e] of binary64 in [0, 1)
    is an integer [k] with [0 <= k < 100]: rounded to nearest, the
    product never reaches 100. *)
Lemma floor_mul_100 m e :
  bounded prec emax m e = true -> Zpos m < 2 ^ (- e) ->
  exists k, 0 <= k < 100 /\ floor (mul (S754_finite false m e) (of_Z 100)) = of_Z k.
Proof.
  intros Hb Hlt. destruct (bounded_canonical m e Hb) as [Hc _].
  pose proof (Zdigits2_bounds (Zpos m) ltac:(lia)) as Bm.
  unfold fexp, emin, prec, emax in Hc.
  assert (He : -1074 <= e <= -53).
  { split; [lia|]. destruct (Z.le_gt_cases e (-53)) as [|Hgt]; [assumption|].
    assert (H53 : Zdigits2 (Zpos m) = 53) by lia. rewrite H53 in Bm.
    assert (2 ^ (- e) <= 2 ^ 52) by (apply Z.pow_le_mono_r; lia). lia. }
  assert (Hm53 : Zpos m < 2 ^ 53).
  { assert (2 ^ Zdigits2 (Zpos m) <= 2 ^ 53) by (apply Z.pow_le_mono_r; lia). lia. }
  change (of_Z 100) with (S754_finite false 7036874417766400 (-46)). unfold mul. cbn [SFmul xorb].
  set (P := Zpos (m * 7036874417766400)).
  assert (HP : P = Zpos m * 7036874417766400) by (unfold P; lia).
  assert (HDP : Zdigits2 P <= 106) by (apply Zdigits2_le; lia).
  pose proof (Zdigits2_bounds P ltac:(lia)) as BP.
  assert (Hr : rshift P (e + -46) <= 53 /\ 2 ^ rshift P (e + -46) <= P).
  { unfold rshift, fexp, emin, prec, emax. split; [lia|].
    destruct (Z.max_spec 0 (Z.max (Zdigits2 P + (e + -46) - 53) (3 - 1024 - 53) - (e + -46))) as [[_ ->]|[_ ->]];
      [|simpl; lia].
    destruct (Z.max_spec (Zdigits2 P + (e + -46) - 53) (3 - 1024 - 53)) as [[_ ->]|[_ ->]].
    - transitivity (2 ^ 46); [apply Z.pow_le_mono_r; lia | lia].
    - transitivity (2 ^ (Zdigits2 P - 1)); [apply Z.pow_le_mono_r; lia | lia]. }
  set (r := rshift P (e + -46)) in *. destruct Hr as [Hr53 Hr2].
  assert (Hr0 : 0 <= r) by (unfold r, rshift; lia).
  assert (Hpos : 0 < P / 2 ^ r) by (apply Z.div_str_pos; lia).
  change loc_Exact with (frac_loc 0 1).
  destruct (binary_round_aux_nearest P (e + -46) 0 1)
    as (δ & Hδ & Hn & [[H0 _] | [(_ & H971 & _) | (M & E & -> & HE & _ & HV)]]);
    [lia | fold r; lia | lia | fold r in H0; lia | fold r in H971; lia |]. fold r in HE, HV, Hn.
  rewrite !Z.mul_1_r, Z.add_0_r in Hn.
  pose proof (pow2_pos r Hr0) as Hpr.
  pose proof (Z.div_mod P (2 ^ r) ltac:(lia)) as Hdm.
  pose proof (Z.mod_pos_bound P (2 ^ r) ltac:(lia)) as Hmb.
  assert (H52 : 2 ^ r <= 2 ^ 53) by (apply Z.pow_le_mono_r; lia).
  pose proof (pow2_pos (- e) ltac:(lia)) as HW.
  assert (HPW : P <= 7036874417766400 * 2 ^ (- e) - 7036874417766400) by lia.
  assert (Hkey : (P / 2 ^ r + δ) * 2 ^ r < 7036874417766400 * 2 ^ (- e)).
  { destruct Hδ as [-> | ->]; lia. }
  assert (HEe : 2 ^ (E - (e + -46)) = 2 ^ (E - (e + -46 + r)) * 2 ^ r)
    by (rewrite <- Z.pow_add_r by lia; f_equal; lia).
  assert (H46 : 2 ^ (- (e + -46)) = 2 ^ 46 * 2 ^ (- e)) by (rewrite <- Z.pow_add_r by lia; f_equal; lia).
  assert (Hv : Zpos M * 2 ^ (E - (e + -46)) < 100 * 2 ^ (- (e + -46))).
  { rewrite HEe, H46, Z.mul_assoc, HV. lia. }
  assert (Hsplit : 2 ^ (- (e + -46)) = 2 ^ (- E) * 2 ^ (E - (e + -46)))
    by (rewrite <- Z.pow_add_r by lia; f_equal; lia).
  pose proof (pow2_pos (E - (e + -46)) ltac:(lia)). pose proof (pow2_pos (- E) ltac:(lia)).
  exists (Zpos M / 2 ^ (- E)). split.
  - split; [apply Z.div_pos; lia|]. apply Z.div_lt_upper_bound; [lia|].
    rewrite Hsplit in Hv. apply (Z.mul_lt_mono_pos_r (2 ^ (E - (e + -46)))); [lia|]. lia.
  - unfold floor. rewrite (proj2 (Z.leb_gt 0 E)) by lia. reflexivity.
Qed.

(** [Number::toString] of an integer below 100 is its decimal digits. *)
Lemma to_string_of_Z_small k : 0 <= k < 100 -> to_string (of_Z k) = digits_of_Z k.
Proof.
  intros Hk.
  assert (Hall : forallb (fun j => String.eqb (to_string (of_Z j)) (digits_of_Z j))
                   (map Z.of_nat (seq 0 100)) = true) by (vm_compute; reflexivity).
  rewrite forallb_forall in Hall.
  apply String.eqb_eq, Hall, in_map_iff. exists (Z.to_nat k). split; [lia|].
  apply in_seq. lia.
Qed.
