(* ===== verification/LiteralSpec.v ===== *)
(** * parseFloat reads the longest StrDecimalLiteral prefix

    ECMA-262 (19.2.4, parseFloat) defines the number read from a trimmed
    string as the value of "the longest prefix of trimmedString that
    satisfies the syntax of a StrDecimalLiteral".  NumberParse.v
    computes it in one pass ([scan_literal]: sign, digits, fraction,
    exponent).  This file states the grammar of StrDecimalLiteral as
    inductive relations from a string to the literal it denotes, and
    proves that the one-pass scanner returns the literal of the longest
    prefix that the grammar accepts, and [None] exactly when no prefix
    is accepted ([scan_literal_longest]): the scanner and the
    specification's definition agree on every string. *)

From S2P Require Import Prelude Binary64 NumberFormat NumberParse Rounding.

#[local] Open Scope string_scope.
#[local] Open Scope Z_scope.

(** ** Digit strings *)

Fixpoint all_digits (s : string) : bool :=
  match s with
  | String c s' => is_digit c && all_digits s'
  | EmptyString => true
  end.

(** The mathematical value of a string of decimal digits. *)
Fixpoint digits_val (s : string) : Z :=
  match s with
  | String c s' => digit_value c * 10 ^ Z.of_nat (String.length s') + digits_val s'
  | EmptyString => 0
  end.

(** [s] does not begin with a decimal digit. *)
Definition no_digit_head (s : string) : Prop :=
  match s with
  | String c _ => is_digit c = false
  | EmptyString => True
  end.

(** ** The grammar of StrDecimalLiteral (ECMA-262, 7.1.4.1) *)

(** An optional sign, and whether it negates. *)
Inductive sign_part : string -> bool -> Prop :=
  | sign_none : sign_part "" false
  | sign_plus : sign_part "+" false
  | sign_minus : sign_part "-" true.

(** ExponentPart: [e] or [E], a SignedInteger. *)
Inductive exponent_part : string -> Z -> Prop :=
  | exponent_intro c sg neg ds :
      (c = "e"%char \/ c = "E"%char) -> sign_part sg neg -> ds <> "" -> all_digits ds = true ->
      exponent_part (String c (sg ++ ds)) (if neg then - digits_val ds else digits_val ds).

Inductive exponent_opt : string -> Z -> Prop :=
  | exponent_absent : exponent_opt "" 0
  | exponent_present x e : exponent_part x e -> exponent_opt x e.

(** StrUnsignedDecimalLiteral: [Infinity], [digits . digits? exp?],
    [. digits exp?] or [digits exp?]; the literal records the digits
    as an integer and the exponent of its last digit. *)
Inductive unsigned_literal (neg : bool) : string -> literal -> Prop :=
  | unsigned_infinity : unsigned_literal neg "Infinity" (LitInfinity neg)
  | unsigned_point i f x e :
      i <> "" -> all_digits i = true -> all_digits f = true -> exponent_opt x e ->
      unsigned_literal neg (i ++ String "." (f ++ x))
        (LitDecimal neg (digits_val (i ++ f)) (e - Z.of_nat (String.length f)))
  | unsigned_fraction f x e :
      f <> "" -> all_digits f = true -> exponent_opt x e ->
      unsigned_literal neg (String "." (f ++ x))
        (LitDecimal neg (digits_val f) (e - Z.of_nat (String.length f)))
  | unsigned_integer i x e :
      i <> "" -> all_digits i = true -> exponent_opt x e ->
      unsigned_literal neg (i ++ x) (LitDecimal neg (digits_val i) e).

(** StrDecimalLiteral: an optional sign and an unsigned literal. *)
Inductive decimal_literal : string -> literal -> Prop :=
  | decimal_intro sg neg u l :
      sign_part sg neg -> unsigned_literal neg u l -> decimal_literal (sg ++ u) l.

(** ** Longest prefixes *)

Definition str_prefix (p s : string) : Prop := exists r, s = p ++ r.

(** [p] is the longest prefix of [s] that [R] accepts, with value [v];
    any other accepted prefix is shorter, or is [p] with value [v]. *)
Definition longest {X} (R : string -> X -> Prop) (s p : string) (v : X) : Prop :=
  str_prefix p s /\ R p v /\
  forall p' v', str_prefix p' s -> R p' v' -> (String.length p' < String.length p)%nat \/ (p' = p /\ v' = v).

(** No prefix of [s] is accepted by [R]. *)
Definition no_prefix {X} (R : string -> X -> Prop) (s : string) : Prop :=
  forall p v, str_prefix p s -> ~ R p v.

(** ** Lemmas on strings *)

Lemma str_app_prefix_cases (p r p' r' : string) :
  p ++ r = p' ++ r' ->
  (exists m, p' = p ++ m /\ r = m ++ r') \/ (exists m, p = p' ++ m /\ r' = m ++ r).
Proof.
  revert p'. induction p as [|c p IH]; intros p' H.
  - left. by exists p'.
  - destruct p' as [|c' p']; [right; by exists (String c p) |].
    rewrite !str_append_cons in H. injection H as -> H.
    destruct (IH p' H) as [(m & -> & ->) | (m & -> & ->)]; [left | right]; by exists m.
Qed.

Lemma str_app_cancel_r (a b x : string) : a ++ x = b ++ x -> a = b.
Proof.
  intros H. pose proof (f_equal String.length H) as Hl. rewrite !str_length_append in Hl.
  destruct (str_app_prefix_cases _ _ _ _ H) as [(m & -> & _) | (m & -> & _)];
    rewrite str_length_append in Hl; destruct m; simpl in Hl; try lia; by rewrite str_append_nil_r.
Qed.

Lemma all_digits_app a b : all_digits (a ++ b) = all_digits a && all_digits b.
Proof. induction a as [|c a IH]; [done |]. rewrite str_append_cons. simpl. by rewrite IH, andb_assoc. Qed.

Lemma digits_val_app a b :
  digits_val (a ++ b) = digits_val a * 10 ^ Z.of_nat (String.length b) + digits_val b.
Proof.
  induction a as [|c a IH]; [done |]. rewrite str_append_cons. simpl.
  rewrite IH, str_length_append, Nat2Z.inj_add, Z.pow_add_r by lia. ring.
Qed.

Lemma span_digits_spec s :
  let '(v, n, r) := span_digits s in
  exists d, s = d ++ r /\ all_digits d = true /\ String.length d = n /\ digits_val d = v /\ no_digit_head r.
Proof.
  induction s as [|c s IH]; simpl; [by exists "" |].
  destruct (is_digit c) eqn:Hc.
  - destruct (span_digits s) as [[v n] r]. destruct IH as (d & -> & Hd & Hn & Hv & Hr).
    exists (String c d). rewrite str_append_cons. simpl. rewrite Hc, Hd, Hn, Hv. auto.
  - exists "". split_and!; try done.
Qed.

(** A run of digits followed by a non-digit is the longest one. *)
Lemma digits_run_max d r d' r' :
  all_digits d = true -> no_digit_head r -> d ++ r = d' ++ r' -> all_digits d' = true ->
  exists m, d = d' ++ m /\ r' = m ++ r.
Proof.
  intros Hd Hr H Hd'. destruct (str_app_prefix_cases _ _ _ _ H) as [(m & -> & Hm) | Hm]; [| exact Hm].
  rewrite all_digits_app in Hd'. apply andb_true_iff in Hd' as [_ Hm'].
  destruct m as [|c m]; [exists ""; rewrite !str_append_nil_r; auto |].
  simpl in Hm'. apply andb_true_iff in Hm' as [Hc _].
  rewrite Hm, str_append_cons in Hr. simpl in Hr. congruence.
Qed.

Lemma prefix_correct_str p s : String.prefix p s = true <-> str_prefix p s.
Proof.
  revert s. induction p as [|c p IH]; intros [|c' s]; simpl.
  - split; [by exists "" | done].
  - split; [by exists (String c' s) | done].
  - split; [discriminate | intros [r Hr]; discriminate].
  - destruct (Ascii.ascii_dec c c') as [->|Hne].
    + rewrite IH. split; intros [r Hr]; exists r; [by rewrite Hr | by injection Hr].
    + split; [discriminate | intros [r Hr]; injection Hr; congruence].
Qed.

(** ** Signs *)

Lemma scan_sign_spec r :
  let '(neg, r') := scan_sign r in
  exists sg, r = sg ++ r' /\ sign_part sg neg /\
    (sg = "" -> forall c t, r' = String c t -> c <> "+"%char /\ c <> "-"%char).
Proof.
  destruct r as [|c t]; simpl; [exists ""; split_and!; [done | constructor | discriminate] |].
  destruct (Ascii.ascii_dec c "-") as [->|Hm]; [exists "-"; split_and!; [done | constructor | discriminate] |].
  destruct (Ascii.ascii_dec c "+") as [->|Hp]; [exists "+"; split_and!; [done | constructor | discriminate] |].
  assert (scan_sign (String c t) = (false, String c t)) as Hs.
  { destruct c as [[] [] [] [] [] [] [] []]; first [reflexivity | congruence]. }
  simpl in Hs. rewrite Hs. exists "". split_and!; [done | constructor |].
  intros _ c' t' [= <- <-]. auto.
Qed.

(** A sign before a string that does not begin with a sign is read as
    that sign. *)
Lemma scan_sign_part sg neg c t :
  sign_part sg neg -> c <> "+"%char -> c <> "-"%char -> scan_sign (sg ++ String c t) = (neg, String c t).
Proof.
  intros Hs Hp Hm. destruct Hs; [| done | done].
  destruct c as [[] [] [] [] [] [] [] []]; first [reflexivity | congruence].
Qed.

Lemma digit_not_sign c : is_digit c = true -> c <> "+"%char /\ c <> "-"%char.
Proof. intros H. split; intros ->; discriminate. Qed.

(** ** The exponent part *)

Lemma exponent_part_shape x e :
  exponent_part x e ->
  exists c sg neg ds, x = String c (sg ++ ds) /\ (c = "e"%char \/ c = "E"%char) /\ sign_part sg neg /\
    ds <> "" /\ all_digits ds = true /\ e = if neg then - digits_val ds else digits_val ds.
Proof. intros []. eauto 10. Qed.

Lemma exponent_opt_head x e :
  exponent_opt x e -> (x = "" /\ e = 0) \/ exists c t, x = String c t /\ (c = "e"%char \/ c = "E"%char).
Proof. intros [| x' e' [c sg neg ds Hc _ _ _]]; [by left | right; eauto]. Qed.

Lemma nonempty_digits_head ds rest :
  ds <> "" -> all_digits ds = true -> exists c t, ds ++ rest = String c t /\ is_digit c = true.
Proof.
  destruct ds as [|c ds]; [done |]. intros _ H. simpl in H. apply andb_true_iff in H as [Hc _].
  exists c, (ds ++ rest). by rewrite str_append_cons.
Qed.

(** Whatever sign precedes a run of digits, [scan_sign] reads it. *)
Lemma scan_sign_digits r neg r'' sg neg' ds t :
  scan_sign r = (neg, r'') -> r = sg ++ ds ++ t -> sign_part sg neg' -> ds <> "" -> all_digits ds = true ->
  neg' = neg /\ r'' = ds ++ t.
Proof.
  intros Hs -> Hsg Hne Hds. destruct (nonempty_digits_head ds t Hne Hds) as (c & t' & Ht & Hc).
  rewrite Ht in Hs |- *. destruct (digit_not_sign c Hc) as [Hp Hm].
  rewrite (scan_sign_part sg neg' c t' Hsg Hp Hm) in Hs. by injection Hs as -> ->.
Qed.

Lemma exponent_indicator c : (c =? "e")%char || (c =? "E")%char = true <-> c = "e"%char \/ c = "E"%char.
Proof.
  rewrite orb_true_iff. split; intros [H|H]; [left | right | left | right];
    first [by apply Ascii.eqb_eq | subst; reflexivity].
Qed.

Lemma scan_exponent_spec r :
  (exists x, longest exponent_part r x (scan_exponent r)) \/
  (scan_exponent r = 0 /\ no_prefix exponent_part r).
Proof.
  destruct r as [|c r].
  { right. split; [done |]. intros p v [t Ht] Hx.
    destruct (exponent_part_shape _ _ Hx) as (? & ? & ? & ? & -> & _). discriminate. }
  simpl. destruct ((c =? "e")%char || (c =? "E")%char) eqn:Hce.
  2: { right. split; [done |]. intros p v [t Ht] Hx.
       destruct (exponent_part_shape _ _ Hx) as (c' & ? & ? & ? & -> & Hc' & _).
       rewrite str_append_cons in Ht. injection Ht as -> _. apply exponent_indicator in Hc'. congruence. }
  apply exponent_indicator in Hce.
  pose proof (scan_sign_spec r) as Hs. destruct (scan_sign r) as [neg r'] eqn:Hss.
  destruct Hs as (sg & Hr & Hsg & _).
  pose proof (span_digits_spec r') as Hd. destruct (span_digits r') as [[v len] rest].
  destruct Hd as (d & -> & Hdd & Hlen & Hv & Hrest).
  destruct len as [|len].
  - right. split; [done |]. intros p e' [t Ht] Hx.
    destruct (exponent_part_shape _ _ Hx) as (c' & sg' & neg' & ds & -> & _ & Hsg' & Hds & Hdds & _).
    rewrite str_append_cons in Ht. injection Ht as <- Ht. rewrite <- str_append_assoc in Ht.
    destruct (scan_sign_digits _ _ _ _ _ _ _ Hss Ht Hsg' Hds Hdds) as [_ Hrt].
    destruct d; [| discriminate]. rewrite str_append_nil_l in Hrt. subst rest.
    destruct (nonempty_digits_head ds t Hds Hdds) as (c0 & t0 & E & Hc0). rewrite E in Hrest. simpl in Hrest. congruence.
  - left. exists (String c (sg ++ d)). split_and!.
    + exists rest. by rewrite Hr, str_append_cons, str_append_assoc.
    + rewrite <- Hv. constructor; [done | done | by destruct d | done].
    + intros p e' [t Ht] Hx.
      destruct (exponent_part_shape _ _ Hx) as (c' & sg' & neg' & ds & -> & _ & Hsg' & Hds & Hdds & ->).
      rewrite str_append_cons in Ht. injection Ht as <- Ht. rewrite <- str_append_assoc in Ht.
      destruct (scan_sign_digits _ _ _ _ _ _ _ Hss Ht Hsg' Hds Hdds) as [-> Hrt].
      destruct (digits_run_max _ _ _ _ Hdd Hrest Hrt Hdds) as (m & -> & ->).
      rewrite Hr, <- !str_append_assoc in Ht. apply str_app_cancel_r in Ht. subst sg'.
      destruct m as [|c0 m].
      * right. rewrite !str_append_nil_r. split; [done |]. by rewrite <- Hv, str_append_nil_r.
      * left. simpl. rewrite !str_length_append. simpl. lia.
Qed.

Lemma exponent_part_length x e : exponent_part x e -> (0 < String.length x)%nat.
Proof. intros Hx. destruct (exponent_part_shape _ _ Hx) as (? & ? & ? & ? & -> & _). simpl. lia. Qed.

Lemma scan_exponent_opt r : exists x, longest exponent_opt r x (scan_exponent r).
Proof.
  destruct (scan_exponent_spec r) as [[x (Hp & Hx & Hmax)] | [He Hno]].
  - exists x. split_and!; [done | by constructor |]. intros p' v' Hp' Hx'.
    inversion Hx' as [|? ? Hx'']; subst; [left; simpl; exact (exponent_part_length _ _ Hx) |].
    exact (Hmax _ _ Hp' Hx'').
  - exists "". rewrite He. split_and!; [by exists r | constructor |]. intros p' v' Hp' Hx'.
    inversion Hx' as [|? ? Hx'']; subst; [by right | exfalso; exact (Hno _ _ Hp' Hx'')].
Qed.

(** A run of digits [f] and an optional exponent read from [d ++ r],
    where [d] is the whole run of digits and [xp] the longest exponent
    of [r]: either shorter than [d ++ xp], or exactly [d] and [xp]. *)
Lemma digits_exponent_max d r xp ep f x' e' t' :
  all_digits d = true -> no_digit_head r -> longest exponent_opt r xp ep ->
  all_digits f = true -> exponent_opt x' e' -> d ++ r = f ++ x' ++ t' ->
  (String.length (f ++ x') < String.length (d ++ xp))%nat \/ (f = d /\ x' = xp /\ e' = ep).
Proof.
  intros Hd Hr (_ & _ & Hmax) Hf Hx' H.
  destruct (digits_run_max _ _ _ _ Hd Hr H Hf) as (m & -> & Hm).
  destruct m as [|c m].
  - rewrite str_append_nil_l in Hm. rewrite !str_append_nil_r.
    destruct (Hmax x' e' (ex_intro _ t' (eq_sym Hm)) Hx') as [Hl | (-> & ->)]; [left | right; auto].
    rewrite !str_length_append. lia.
  - left. destruct (exponent_opt_head _ _ Hx') as [[-> _] | (c' & t & -> & Hc')].
    + rewrite !str_length_append. simpl. lia.
    + rewrite str_append_cons in Hm. injection Hm as -> _.
      rewrite all_digits_app in Hd. simpl in Hd. destruct Hc' as [-> | ->]; rewrite andb_false_r, ?andb_false_l in Hd; discriminate.
Qed.

Lemma unsigned_literal_head neg p l :
  unsigned_literal neg p l ->
  (p = "Infinity" /\ l = LitInfinity neg) \/ exists c t, p = String c t /\ (is_digit c = true \/ c = "."%char).
Proof.
  intros []; [by left | | | ]; right.
  - destruct (nonempty_digits_head i (String "." (f ++ x)) ltac:(done) ltac:(done)) as (c & t & -> & Hc). eauto.
  - eauto.
  - destruct (nonempty_digits_head i x ltac:(done) ltac:(done)) as (c & t & -> & Hc). eauto.
Qed.

(** The match of [scan_unsigned] on the character after the integer
    digits. *)
Lemma point_match_other c r :
  c <> "."%char ->
  match String c r with String "." r' => span_digits r' | _ => (0, O, String c r) end = (0, O, String c r).
Proof. intros Hc. destruct c as [[] [] [] [] [] [] [] []]; first [reflexivity | congruence]. Qed.

(** ** Heads of strings *)

Definition str_head (s : string) : option Ascii.ascii :=
  match s with String c _ => Some c | EmptyString => None end.

Lemma str_head_app a b :
  str_head (a ++ b) = match str_head a with Some c => Some c | None => str_head b end.
Proof. by destruct a. Qed.

Lemma digits_head i : i <> "" -> all_digits i = true -> exists c, str_head i = Some c /\ is_digit c = true.
Proof. destruct i as [|c i]; [done |]. simpl. intros _ H. apply andb_true_iff in H as [H _]. eauto. Qed.

(** Two descriptions of one string agree on its first character. *)
Ltac head_clash H :=
  let E := fresh in
  pose proof (f_equal str_head H) as E;
  rewrite ?str_head_app in E; simpl in E.

(** The longest exponent of a string that begins with a point is empty. *)
Lemma exponent_opt_point r : longest exponent_opt (String "." r) "" 0.
Proof.
  destruct (scan_exponent_opt (String "." r)) as [xp (Hp & Hx & Hmax)].
  assert (xp = "") as ->.
  { destruct (exponent_opt_head _ _ Hx) as [[-> _] | (c & t & -> & Hc)]; [done |].
    destruct Hp as [t' Ht']. rewrite str_append_cons in Ht'. injection Ht' as <- _.
    destruct Hc; discriminate. }
  inversion Hx as [Hq | ? ? Hpart]; [| subst; by apply exponent_part_length in Hpart].
  split_and!; [by exists (String "." r) | constructor |].
  intros p' v' Hp' Hx'. destruct (Hmax p' v' Hp' Hx') as [Hl | [-> ->]]; [by left | by right].
Qed.

(** No [Infinity] is read from [u]. *)
Definition no_infinity (u : string) : Prop := forall t, u <> "Infinity" ++ t.

(** The unsigned literal when no point follows the integer digits. *)
Lemma unsigned_without_point neg u d1 r1 :
  u = d1 ++ r1 -> all_digits d1 = true -> no_digit_head r1 -> (forall r, r1 <> String "." r) -> no_infinity u ->
  (d1 = "" -> no_prefix (unsigned_literal neg) u) /\
  (d1 <> "" -> exists p, longest (unsigned_literal neg) u p (LitDecimal neg (digits_val d1) (scan_exponent r1))).
Proof.
  intros -> Hd1 Hr1 Hnp Hni. split.
  - intros -> p l [t Ht] Hl. rewrite str_append_nil_l in Ht, Hni.
    destruct Hl as [| i f x e Hi Hdi _ _ | f x e Hf _ _ | i x e Hi Hdi _].
    + by apply (Hni t).
    + destruct (digits_head i Hi Hdi) as (c & Hc & Hdc). rewrite <- !str_append_assoc in Ht. head_clash Ht. rewrite Hc in *.
      destruct r1; simpl in *; congruence.
    + rewrite str_append_cons in Ht. by apply (Hnp _ Ht).
    + destruct (digits_head i Hi Hdi) as (c & Hc & Hdc). rewrite <- !str_append_assoc in Ht. head_clash Ht. rewrite Hc in *.
      destruct r1; simpl in *; congruence.
  - intros Hne. destruct (scan_exponent_opt r1) as [xp Hxp]. pose proof Hxp as (Hp & Hx & _).
    destruct Hp as [rest ->]. exists (d1 ++ xp). split_and!.
    + exists rest. by rewrite str_append_assoc.
    + by constructor.
    + intros p' l' [t Ht] Hl. destruct Hl as [| i f x e Hi Hdi Hdf Hx' | f x e Hf _ _ | i x e Hi Hdi Hx'].
      * exfalso. exact (Hni t Ht).
      * exfalso. rewrite <- (str_append_assoc i) in Ht.
        destruct (digits_run_max _ _ _ _ Hd1 Hr1 Ht Hdi) as (m & -> & Hm).
        destruct m as [|c m].
        -- rewrite str_append_nil_l, str_append_cons in Hm. by apply (Hnp _ (eq_sym Hm)).
        -- rewrite all_digits_app in Hd1. simpl in Hd1. rewrite str_append_cons in Hm. injection Hm as <- _.
           rewrite andb_false_r in Hd1. discriminate.
      * exfalso. destruct (digits_head d1 Hne Hd1) as (c & Hc & Hdc).
        head_clash Ht. rewrite Hc in *. simplify_eq/=.
      * rewrite <- (str_append_assoc i) in Ht.
        destruct (digits_exponent_max d1 _ xp _ i x e t Hd1 Hr1 Hxp Hdi Hx' Ht) as [Hl | (-> & -> & ->)];
          [by left | by right].
Qed.

(** The unsigned literal when a point follows the integer digits [d1]
    and the fraction digits [d2] follow the point. *)
Lemma unsigned_with_point neg u d1 d2 r2 :
  u = d1 ++ String "." (d2 ++ r2) -> all_digits d1 = true -> all_digits d2 = true -> no_digit_head r2 ->
  no_infinity u ->
  (d1 = "" -> d2 = "" -> no_prefix (unsigned_literal neg) u) /\
  (d1 <> "" \/ d2 <> "" ->
   exists p, longest (unsigned_literal neg) u p
     (LitDecimal neg (digits_val (d1 ++ d2)) (scan_exponent r2 - Z.of_nat (String.length d2)))).
Proof.
  intros -> Hd1 Hd2 Hr2 Hni.
  assert (Hpt : no_digit_head (String "." (d2 ++ r2))) by reflexivity.
  (* a point read after the integer digits [i] of [u] comes after all of [d1] *)
  assert (Hint : forall i f x t, all_digits i = true ->
            d1 ++ String "." (d2 ++ r2) = i ++ String "." (f ++ x) ++ t -> i = d1 /\ d2 ++ r2 = f ++ x ++ t).
  { intros i f x t Hdi Ht. destruct (digits_run_max _ _ _ _ Hd1 Hpt Ht Hdi) as (m & -> & Hm).
    destruct m as [|c m].
    - rewrite str_append_nil_l, !str_append_cons in Hm. injection Hm as Hm.
      rewrite str_append_nil_r. split; [done | by rewrite str_append_assoc, Hm].
    - rewrite str_append_cons in Hm. injection Hm as <- _.
      rewrite all_digits_app in Hd1. simpl in Hd1. by rewrite andb_false_r in Hd1. }
  destruct (scan_exponent_opt r2) as [xp Hxp]. pose proof Hxp as ([rest Hrest] & Hx & _).
  split.
  - intros -> -> p l [t Ht] Hl. rewrite str_append_nil_l in Ht. rewrite str_append_nil_l in Hni.
    destruct Hl as [| i f x e Hi Hdi _ _ | f x e Hf Hdf _ | i x e Hi Hdi _].
    + by apply (Hni t).
    + destruct (digits_head i Hi Hdi) as (c & Hc & Hdc). head_clash Ht. rewrite Hc in *. simplify_eq/=.
    + rewrite str_append_cons in Ht. injection Ht as Ht. rewrite str_append_nil_l, <- str_append_assoc in Ht.
      destruct (digits_head f Hf Hdf) as (c & Hc & Hdc). head_clash Ht. rewrite Hc in *.
      destruct r2; simpl in *; congruence.
    + destruct (digits_head i Hi Hdi) as (c & Hc & Hdc). head_clash Ht. rewrite Hc in *. simplify_eq/=.
  - intros Hne. destruct (String.eq_dec d1 "") as [->|Hd1ne].
    + (* [. digits exponent?] *)
      destruct Hne as [Hne | Hne]; [done |]. rewrite str_append_nil_l in Hni |- *.
      exists (String "." (d2 ++ xp)). split_and!.
      * exists rest. by rewrite Hrest, str_append_cons, str_append_assoc.
      * by constructor.
      * intros p' l' [t Ht] Hl. destruct Hl as [| i f x e Hi Hdi _ _ | f x e Hf Hdf Hx' | i x e Hi Hdi _].
        -- exfalso. exact (Hni t Ht).
        -- exfalso. destruct (digits_head i Hi Hdi) as (c & Hc & Hdc). head_clash Ht. rewrite Hc in *. simplify_eq/=.
        -- rewrite str_append_cons in Ht. injection Ht as Ht. rewrite <- str_append_assoc in Ht.
           destruct (digits_exponent_max d2 _ xp _ f x e t Hd2 Hr2 Hxp Hdf Hx' Ht) as [Hl | (-> & -> & ->)].
           ++ left. simpl. lia.
           ++ by right.
        -- exfalso. destruct (digits_head i Hi Hdi) as (c & Hc & Hdc). head_clash Ht. rewrite Hc in *. simplify_eq/=.
    + (* [digits . digits? exponent?] *)
      exists (d1 ++ String "." (d2 ++ xp)). split_and!.
      * exists rest. by rewrite Hrest, <- !str_append_assoc, str_append_cons, !str_append_assoc.
      * by constructor.
      * intros p' l' [t Ht] Hl. destruct Hl as [| i f x e Hi Hdi Hdf Hx' | f x e Hf Hdf Hx' | i x e Hi Hdi Hx'].
        -- exfalso. exact (Hni t Ht).
        -- rewrite <- (str_append_assoc i) in Ht. destruct (Hint i f x t Hdi Ht) as [-> Ht'].
           destruct (digits_exponent_max d2 _ xp _ f x e t Hd2 Hr2 Hxp Hdf Hx' Ht') as [Hl | (-> & -> & ->)].
           ++ left. rewrite !str_length_append in *. simpl. rewrite !str_length_append. lia.
           ++ by right.
        -- exfalso. destruct (digits_head d1 Hd1ne Hd1) as (c & Hc & Hdc). head_clash Ht. rewrite Hc in *. simplify_eq/=.
        -- rewrite <- (str_append_assoc i) in Ht. left.
           destruct (digits_exponent_max d1 _ "" 0 i x e t Hd1 Hpt (exponent_opt_point _) Hdi Hx' Ht) as [Hl | (-> & -> & _)];
             rewrite !str_length_append in *; simpl in *; lia.
Qed.

Lemma str_length_zero s : String.length s = O -> s = "".
Proof. by destruct s. Qed.

Lemma scan_unsigned_spec neg u :
  match scan_unsigned neg u with
  | Some l => exists p, longest (unsigned_literal neg) u p l
  | None => no_prefix (unsigned_literal neg) u
  end.
Proof.
  unfold scan_unsigned. destruct (String.prefix "Infinity" u) eqn:Hinf.
  { apply prefix_correct_str in Hinf as [t Ht]. exists "Infinity". split_and!; [by exists t | constructor |].
    intros p' l' [t' Ht'] Hl. destruct (unsigned_literal_head _ _ _ Hl) as [[-> ->] | (c & t0 & -> & Hc)]; [by right |].
    exfalso. rewrite Ht, !str_append_cons in Ht'. injection Ht' as <- _. destruct Hc as [Hc | Hc]; discriminate. }
  assert (Hni : no_infinity u).
  { intros t ->. rewrite (proj2 (prefix_correct_str "Infinity" _) (ex_intro _ t eq_refl)) in Hinf. discriminate. }
  pose proof (span_digits_spec u) as Hs. destruct (span_digits u) as [[iv ilen] r1].
  destruct Hs as (d1 & Hu & Hd1 & Hl1 & Hv1 & Hr1).
  assert (Hnp : forall r1, u = d1 ++ r1 -> no_digit_head r1 -> (forall r, r1 <> String "." r) ->
    match (match ilen, O with O, O => None | _, _ => Some (LitDecimal neg (iv * 10 ^ Z.of_nat O + 0) (scan_exponent r1 - Z.of_nat O)) end) with
    | Some l => exists p, longest (unsigned_literal neg) u p l
    | None => no_prefix (unsigned_literal neg) u
    end).
  { intros r0 Hu0 Hr0 Hnot. destruct (unsigned_without_point neg u d1 r0 Hu0 Hd1 Hr0 Hnot Hni) as [Hn Hs].
    destruct ilen as [|ilen].
    - apply Hn. by apply str_length_zero.
    - rewrite Z.pow_0_r, Z.mul_1_r, Z.add_0_r, Z.sub_0_r, <- Hv1. apply Hs. intros ->. discriminate. }
  destruct r1 as [|c r]; [exact (Hnp "" Hu I (fun r H => ltac:(discriminate H))) |].
  destruct (Ascii.ascii_dec c ".") as [->|Hc].
  2: { rewrite point_match_other by done. exact (Hnp _ Hu Hr1 (fun r' H => ltac:(injection H; congruence))). }
  cbn -[span_digits Z.pow].
  pose proof (span_digits_spec r) as Hs2. destruct (span_digits r) as [[fv flen] r2].
  destruct Hs2 as (d2 & -> & Hd2 & Hl2 & Hv2 & Hr2).
  destruct (unsigned_with_point neg u d1 d2 r2 Hu Hd1 Hd2 Hr2 Hni) as [Hn Hs].
  assert (Hval : iv * 10 ^ Z.of_nat flen + fv = digits_val (d1 ++ d2)) by (by rewrite digits_val_app, Hl2, Hv1, Hv2).
  destruct ilen as [|ilen], flen as [|flen].
  - apply Hn; by apply str_length_zero.
  - rewrite Hval, <- Hl2. apply Hs. right. intros ->. discriminate.
  - rewrite Hval, <- Hl2. apply Hs. left. intros ->. discriminate.
  - rewrite Hval, <- Hl2. apply Hs. left. intros ->. discriminate.
Qed.

(** An unsigned literal does not begin with a sign. *)
Lemma unsigned_literal_no_sign neg u l t :
  unsigned_literal neg u l -> exists c t', u ++ t = String c t' /\ c <> "+"%char /\ c <> "-"%char.
Proof.
  intros Hl. destruct (unsigned_literal_head _ _ _ Hl) as [[-> _] | (c & t0 & -> & Hc)].
  - eexists _, _. split; [by rewrite str_append_cons | split; discriminate].
  - exists c, (t0 ++ t). split; [by rewrite str_append_cons |].
    destruct Hc as [Hc | ->]; [exact (digit_not_sign c Hc) | split; discriminate].
Qed.

(** Any sign before an unsigned literal is the one [scan_sign] reads. *)
Lemma scan_sign_unsigned s neg r sg' neg' u' l' t :
  scan_sign s = (neg, r) -> s = sg' ++ u' ++ t -> sign_part sg' neg' -> unsigned_literal neg' u' l' ->
  neg' = neg /\ r = u' ++ t.
Proof.
  intros Hs -> Hsg Hl. destruct (unsigned_literal_no_sign _ _ _ t Hl) as (c & t' & Ht & Hp & Hm).
  rewrite Ht, (scan_sign_part sg' neg' c t' Hsg Hp Hm) in Hs. injection Hs as <- <-. split; [done | by rewrite Ht].
Qed.

Lemma scan_literal_spec s :
  match scan_literal s with
  | Some l => exists p, longest decimal_literal s p l
  | None => no_prefix decimal_literal s
  end.
Proof.
  unfold scan_literal. pose proof (scan_sign_spec s) as Hs. destruct (scan_sign s) as [neg r] eqn:Hss.
  destruct Hs as (sg & Hsr & Hsg & _).
  pose proof (scan_unsigned_spec neg r) as Hu. destruct (scan_unsigned neg r) as [l|].
  - destruct Hu as (p0 & [t0 Ht0] & Hp0 & Hmax). exists (sg ++ p0). split_and!.
    + exists t0. by rewrite Hsr, Ht0, str_append_assoc.
    + by apply (decimal_intro sg neg).
    + intros p' l' [t Ht] Hl. destruct Hl as [sg' neg' u' l' Hsg' Hu'].
      rewrite <- str_append_assoc in Ht.
      destruct (scan_sign_unsigned _ _ _ _ _ _ _ _ Hss Ht Hsg' Hu') as [-> Hr].
      rewrite Hsr, Hr in Ht. apply str_app_cancel_r in Ht. subst sg'.
      destruct (Hmax u' l' (ex_intro _ t Hr) Hu') as [Hl | [-> ->]]; [left | by right].
      rewrite !str_length_append. lia.
  - intros p' l' [t Ht] Hl. destruct Hl as [sg' neg' u' l' Hsg' Hu'].
    rewrite <- str_append_assoc in Ht.
    destruct (scan_sign_unsigned _ _ _ _ _ _ _ _ Hss Ht Hsg' Hu') as [-> Hr].
    exact (Hu u' l' (ex_intro _ t Hr) Hu').
Qed.

(** Two longest prefixes are the same, with the same value. *)
Lemma longest_unique {X} (R : string -> X -> Prop) s p v p' v' :
  longest R s p v -> longest R s p' v' -> p' = p /\ v' = v.
Proof.
  intros (Hp & HR & Hmax) (Hp' & HR' & Hmax').
  destruct (Hmax p' v' Hp' HR') as [Hl | Heq]; [| exact Heq].
  destruct (Hmax' p v Hp HR) as [Hl' | [-> ->]]; [lia | auto].
Qed.

(** The scanner reads the literal of the longest prefix. *)
Lemma scan_literal_longest s p l : longest decimal_literal s p l -> scan_literal s = Some l.
Proof.
  intros Hl. pose proof (scan_literal_spec s) as H. destruct (scan_literal s) as [l'|].
  - destruct H as [p' Hl']. by destruct (longest_unique _ _ _ _ _ _ Hl' Hl) as [_ ->].
  - destruct Hl as (Hp & HR & _). exfalso. exact (H p l Hp HR).
Qed.

(** A string the grammar accepts and the scanner reads whole is its own
    longest literal prefix. *)
Lemma longest_whole s l : decimal_literal s l -> scan_literal s = Some l -> longest decimal_literal s s l.
Proof.
  intros Hd Hs. pose proof (scan_literal_spec s) as H. rewrite Hs in H. destruct H as [p Hp].
  pose proof Hp as ([t Ht] & _ & Hmax). destruct (Hmax s l (ex_intro _ "" (eq_sym (str_append_nil_r s))) Hd)
    as [Hl | [-> _]]; [| exact Hp].
  exfalso. rewrite Ht, str_length_append in Hl. lia.
Qed.

(** C32: [parseFloat] on a string is the value of the longest prefix of
    the trimmed string that is a StrDecimalLiteral, and NaN when no
    prefix is one, as ECMA-262 defines it: the one-pass scanner reads
    exactly that prefix, and every other prefix the grammar accepts is
    shorter. *)
Theorem parse_float_longest_prefix s :
  (exists p l, longest decimal_literal (trim_start s) p l /\ parse_float_str s = literal_value l) \/
  (no_prefix decimal_literal (trim_start s) /\ parse_float_str s = NaN).
Proof.
  unfold parse_float_str. pose proof (scan_literal_spec (trim_start s)) as H.
  destruct (scan_literal (trim_start s)) as [l|]; [left | by right].
  destruct H as [p Hp]. by exists p, l.
Qed.

(** C25: [parseFloat] returns NaN exactly when no prefix of the string,
    with its leading white space removed, is a StrDecimalLiteral: a
    literal that is read never rounds to NaN. *)
Theorem parse_float_nan_iff s : parse_float_str s = NaN <-> no_prefix decimal_literal (trim_start s).
Proof.
  rewrite parse_float_nan_scan. pose proof (scan_literal_spec (trim_start s)) as H.
  destruct (scan_literal (trim_start s)) as [l|]; split; try done.
  intros Hno. destruct H as (p & Hp & HR & _). exfalso. exact (Hno p l Hp HR).
Qed.

(** C24: when the longest StrDecimalLiteral prefix of a string is a
    non-negative decimal (no minus sign) [m * 10^e] with at most two fraction digits ([e >= -2]) and fewer
    than [2^51] hundredths, [parseFloat(s).toFixed(2)] prints exactly
    its hundredths [m * 10^(e+2)]: the binary rounding error never shows
    in the price column. *)
Theorem to_fixed_parse_float s p m e :
  longest decimal_literal (trim_start s) p (LitDecimal false m e) -> -2 <= e -> m * 10 ^ (e + 2) < 2 ^ 51 ->
  to_fixed (parse_float_str s) 2 = fixed_digits (m * 10 ^ (e + 2)) 2.
Proof.
  intros Hl He HP. exact (to_fixed_parse_float_scan s m e (scan_literal_longest _ _ _ Hl) He HP).
Qed.

(** The witness: [" 12.3"], whose longest literal prefix is ["12.3"],
    the digits [123] with exponent [-1]. *)
Lemma to_fixed_parse_float_witness :
  longest decimal_literal (trim_start " 12.3") "12.3" (LitDecimal false 123 (-1)) /\
  to_fixed (parse_float_str " 12.3") 2 = fixed_digits 1230 2.
Proof.
  assert (Hd : decimal_literal "12.3" (LitDecimal false 123 (-1))).
  { change "12.3" with ("" ++ ("12" ++ String "." ("3" ++ ""))).
    change (LitDecimal false 123 (-1))
      with (LitDecimal false (digits_val ("12" ++ "3")) (0 - Z.of_nat (String.length "3"))).
    apply (decimal_intro "" false); [constructor |].
    apply unsigned_point; [discriminate | reflexivity | reflexivity | constructor]. }
  assert (H : longest decimal_literal (trim_start " 12.3") "12.3" (LitDecimal false 123 (-1)))
    by exact (longest_whole _ _ Hd ltac:(vm_compute; reflexivity)).
  split; [exact H |].
  apply (to_fixed_parse_float " 12.3" "12.3" 123 (-1)); [exact H | lia | lia].
Defined.
