(* ===== verification/Shortest.v ===== *)
(** * Number::toString prints a decimal that reads back as the number

    [NumberFormat.shortest] searches, for [k = 1, 2, ...], the [k]-digit
    decimals next to a finite binary64 value [m * 2^e] for one that
    [round_decimal] (the reading of a decimal literal, [Binary64.v])
    rounds back to it, and after 16 failures takes the nearest 17-digit
    decimal.  This file proves that the fallback is exact, so the digits
    [to_string] prints always denote the number ([shortest_roundtrips]):
    - rounding: a value strictly inside the rounding interval of a float
      rounds to it, for SpecFloat's [binary_round_aux] and for
      [round_decimal] (both branches: [binary_normalize] of an integer
      and [SFdiv] of a fraction);
    - digit counts: [ndigits] and [dec_exponent] are the decimal
      logarithm, by the lemmas of Stdlib's [DecimalPos];
    - the search: an accepted candidate rounds back
      ([shortest_step_ok]), and the nearest 17-digit decimal lies within
      a quarter unit of a float of 53 bits ([seventeen_digits_close]);
    - the digit count: every result [(s, k, n)] has [10^(k-1) <= s <
      10^k] ([shortest_digits]), which ReadBack.v needs to read the
      printed digits back. *)
From S2P Require Import Prelude Binary64 NumberFormat NumberParse Rounding.
From Stdlib Require Import DecimalPos DecimalFacts.
#[local] Open Scope Z_scope.

(** The number the decimal printed by Number::toString for [m * 2^e]
    denotes, read back as a literal would be (rounded to nearest). *)
Definition printed_value (m : positive) (e : Z) : number :=
  let '(s, k, n) := shortest m e in round_decimal false s (n - k).

(** The part of a unit below a float that still rounds to it, in
    quarters: a half unit, a quarter at a power of two above the least
    exponent. *)
Definition gap (Mx : positive) (Ex : Z) : Z :=
  if (Zpos Mx =? 2 ^ 52) && (-1074 <? Ex) then 1 else 2.


(** The shifted mantissa has 53 bits, or the unit is the least one. *)
Lemma rshift_structure mx ex :
  0 <= mx -> 53 <= Zdigits2 mx \/ ex <= -1074 ->
  2 ^ 52 <= mx / 2 ^ rshift mx ex \/ ex + rshift mx ex = -1074.
Proof.
  intros Hm Hd.
  destruct (Z.eq_dec mx 0) as [->|Hm0]; [right; simpl in Hd; unfold rshift, fexp, emin, prec, emax; simpl; lia|].
  pose proof (Zdigits2_bounds mx ltac:(lia)) as Hb.
  destruct (Z.le_gt_cases (-1074) (Zdigits2 mx + ex - 53)) as [Hn|Hs].
  - left. assert (Hr : rshift mx ex = Zdigits2 mx - 53) by (unfold rshift; rewrite fexp_normal by lia; lia).
    rewrite Hr. apply (div_pow2_window mx (Zdigits2 mx) Hb); lia.
  - right. unfold rshift, fexp, emin, prec, emax. lia.
Qed.

Lemma bounded_cases m e :
  bounded prec emax m e = true ->
  Zpos m < 2 ^ 53 /\ -1074 <= e <= 971 /\ (-1074 < e -> 2 ^ 52 <= Zpos m).
Proof.
  intros Hb. destruct (bounded_canonical m e Hb) as [Hc He].
  pose proof (Zdigits2_bounds (Zpos m) ltac:(lia)) as Bm.
  unfold fexp, emin, prec, emax in Hc.
  split_and!; [| lia | lia |].
  - assert (2 ^ Zdigits2 (Zpos m) <= 2 ^ 53) by (apply Z.pow_le_mono_r; lia). lia.
  - intros He1. assert (H53 : Zdigits2 (Zpos m) = 53) by lia. rewrite H53 in Bm. lia.
Qed.

Lemma mul_lt_cancel a b Y : 0 < Y -> a * Y < b * Y -> a < b.
Proof. intros HY H. apply (Z.mul_lt_mono_pos_r Y); assumption. Qed.

Lemma gap_cases Mx Ex : gap Mx Ex = 2 \/ gap Mx Ex = 1 /\ Zpos Mx = 2 ^ 52.
Proof. unfold gap. destruct (Z.eqb_spec (Zpos Mx) (2 ^ 52)), (Z.ltb_spec (-1074) Ex); simpl; lia. Qed.

(** A value strictly inside the rounding interval of a float rounds to
    that float.  The value is [(mx + n / d) * 2^ex]; the interval of
    [x = Mx * 2^Ex] reaches half a unit above and below, a quarter below
    at a power of two; both are compared at the scale [2^K]. *)
Lemma binary_round_aux_inside mx ex n d Mx Ex K :
  0 <= mx -> 0 <= n < d -> (53 <= Zdigits2 mx \/ ex <= -1074) ->
  bounded prec emax Mx Ex = true -> K <= ex -> K + 2 <= Ex ->
  (4 * Zpos Mx - gap Mx Ex) * (d * 2 ^ (Ex - 2 - K))
    < (mx * d + n) * 2 ^ (ex - K) ->
  (mx * d + n) * 2 ^ (ex - K) < (4 * Zpos Mx + 2) * (d * 2 ^ (Ex - 2 - K)) ->
  binary_round_aux prec emax false mx ex (frac_loc n d) = S754_finite false Mx Ex.
Proof.
  intros Hm Hn Hd Hb HK1 HK2 Hlo Hhi.
  destruct (bounded_cases Mx Ex Hb) as (HM53 & HEx & HMn).
  set (c := gap Mx Ex) in Hlo.
  assert (Hc : c = 1 /\ Zpos Mx = 2 ^ 52 /\ -1074 < Ex \/ c = 2 /\ (Zpos Mx <> 2 ^ 52 \/ Ex = -1074)).
  { unfold c, gap. destruct (Z.eqb_spec (Zpos Mx) (2 ^ 52)), (Z.ltb_spec (-1074) Ex); simpl; lia. }
  clearbody c.
  set (r := rshift mx ex) in *.
  assert (Hr0 : 0 <= r) by (unfold r, rshift; lia).
  pose proof (pow2_pos r Hr0) as Hpr.
  set (m1 := mx / 2 ^ r) in *. set (ρ := mx mod 2 ^ r) in *.
  assert (Hdm : mx = m1 * 2 ^ r + ρ) by (unfold m1, ρ; rewrite Z.mul_comm; apply Z.div_mod; lia).
  pose proof (Z.mod_pos_bound mx (2 ^ r) ltac:(lia)) as Hρ. fold ρ in Hρ.
  pose proof (pow2_pos (ex - K) ltac:(lia)) as HeK.
  pose proof (pow2_pos (Ex - 2 - K) ltac:(lia)) as HQ.
  set (Xs := (mx * d + n) * 2 ^ (ex - K)) in *.
  set (Q := 2 ^ (Ex - 2 - K)) in *.
  set (P := 2 ^ (ex + r - K)).
  assert (HP : 2 ^ r * 2 ^ (ex - K) = P) by (unfold P; rewrite <- Z.pow_add_r by lia; f_equal; lia).
  set (F := (ρ * d + n) * 2 ^ (ex - K)).
  assert (HXs : Xs = m1 * (d * P) + F) by (unfold Xs, F; rewrite Hdm, <- HP; ring).
  assert (HF : 0 <= F < d * P).
  { unfold F. rewrite <- HP.
    split; [apply Z.mul_nonneg_nonneg; [pose proof (Z.mul_nonneg_nonneg ρ d); lia | lia] |].
    assert (ρ * d <= (2 ^ r - 1) * d) by (apply Z.mul_le_mono_nonneg_r; lia).
    assert (ρ * d + n < 2 ^ r * d) by lia.
    replace (d * (2 ^ r * 2 ^ (ex - K))) with ((2 ^ r * d) * 2 ^ (ex - K)) by ring.
    apply Z.mul_lt_mono_pos_r; assumption. }
  destruct (rshift_window mx ex Hm) as [Hm153 HU]. fold r m1 in Hm153, HU.
  pose proof (rshift_structure mx ex Hm Hd) as Hst. fold r m1 in Hst.
  assert (Hm10 : 0 <= m1) by (unfold m1; apply Z.div_pos; lia).
  (* the unit [2^(ex + r)] is that of [x], or half of it at a power of two *)
  assert (HPQ : ex + r = Ex /\ P = 4 * Q \/ ex + r = Ex - 1 /\ P = 2 * Q).
  { destruct (Z.lt_total (ex + r) (Ex - 1)) as [Hlt|[Heq|Hgt]];
      [| right; split; [lia | unfold P, Q; rewrite <- (Z.pow_add_r 2 1) by lia; f_equal; lia] |].
    - (* a smaller unit: the value is below [x - h] *)
      exfalso. assert (HPle : P <= Q) by (apply Z.pow_le_mono_r; lia).
      assert (Hx : 2 ^ 52 <= Zpos Mx) by (apply HMn; lia).
      assert (Xs < 2 ^ 53 * (d * Q)) by nia. nia.
    - destruct (Z.eq_dec (ex + r) Ex) as [HE|HE].
      + left. split; [exact HE | unfold P, Q; rewrite <- (Z.pow_add_r 2 2) by lia; f_equal; lia].
      + (* a larger unit: the value is above [x + h] *)
        exfalso. assert (HPge : 8 * Q <= P).
        { change 8 with (2 ^ 3). unfold P, Q. rewrite <- Z.pow_add_r by lia. apply Z.pow_le_mono_r; lia. }
        destruct Hst as [Hst|Hst]; [|lia].
        assert (2 ^ 52 * (d * (8 * Q)) <= Xs) by nia. nia. }
  assert (Hov : ex + r <= 971) by lia.
  destruct (binary_round_aux_nearest mx ex n d Hm Hov Hn) as (δ & Hδ & Hne & Hout). fold r m1 ρ in Hne, Hout.
  assert (HneF : Z.abs (2 * (d * P) * δ - 2 * F) <= d * P).
  { unfold F. rewrite <- HP.
    replace (2 * (d * (2 ^ r * 2 ^ (ex - K))) * δ - 2 * ((ρ * d + n) * 2 ^ (ex - K)))
      with ((2 * (2 ^ r * d) * δ - 2 * (ρ * d + n)) * 2 ^ (ex - K)) by ring.
    rewrite Z.abs_mul, (Z.abs_eq (2 ^ (ex - K))) by lia. nia. }
  (* the rounded significand is that of [x] *)
  assert (Hsig : ex + r = Ex /\ m1 + δ = Zpos Mx \/ ex + r = Ex - 1 /\ m1 + δ = 2 ^ 53 /\ Zpos Mx = 2 ^ 52).
  { destruct HPQ as [[HE HP4]|[HE HP4]]; rewrite HP4 in HXs, HF, HneF.
    - left. split; [exact HE|].
      assert (H1 : 4 * Zpos Mx - c < 4 * m1 + 4) by (apply (mul_lt_cancel _ _ (d * Q)); nia).
      assert (H2 : 4 * m1 < 4 * Zpos Mx + 2) by (apply (mul_lt_cancel _ _ (d * Q)); nia).
      assert (m1 = Zpos Mx \/ m1 = Zpos Mx - 1) as [Hm1|Hm1] by lia; rewrite Hm1 in HXs.
      + destruct Hδ as [-> | ->]; [lia|]. exfalso. nia.
      + destruct Hδ as [-> | ->]; [|lia]. exfalso. nia.
    - right. split; [exact HE|].
      assert (Hx : 2 ^ 52 <= Zpos Mx) by (apply HMn; lia).
      assert (H1 : 4 * Zpos Mx - c < 2 * m1 + 2) by (apply (mul_lt_cancel _ _ (d * Q)); nia).
      assert (HMx : Zpos Mx = 2 ^ 52) by lia.
      assert (Hc1 : c = 1) by lia.
      assert (Hm1 : m1 = 2 ^ 53 - 1) by lia. rewrite Hm1 in HXs.
      destruct Hδ as [-> | ->]; [exfalso; nia | lia]. }
  destruct Hout as [[H0 _]|[(H53 & H971 & _)|(M & E & HR & HE & HM & HV)]]; [lia | lia |].
  rewrite HR. destruct Hsig as [(HUe & Hs)|(HUe & Hs & HMx)]; rewrite Hs in HV.
  - destruct HE as [HE | (HE & HM52)].
    + rewrite HE, Z.sub_diag, Z.mul_1_r in HV. rewrite HE, HUe. f_equal. lia.
    + rewrite HE in HV. replace (ex + r + 1 - (ex + r)) with 1 in HV by lia. lia.
  - destruct HE as [HE | (HE & HM52)].
    + rewrite HE, Z.sub_diag, Z.mul_1_r in HV. lia.
    + rewrite HE, HUe. f_equal; [lia | lia].
Qed.

Lemma new_location_frac den r : 0 < den -> 0 <= r < den -> new_location den r = frac_loc r den.
Proof.
  intros Hd Hr. unfold new_location, new_location_even, new_location_odd, frac_loc.
  destruct (Z.even den) eqn:Ev; [reflexivity|].
  assert (Ho : exists k, den = 2 * k + 1).
  { destruct (Z.Even_or_Odd den) as [[k Hk]|[k Hk]]; [|eauto].
    rewrite Hk, Z.even_mul in Ev. discriminate. }
  destruct Ho as [k ->]. zbool.
Qed.

(** The scale change of [binary_round_aux_inside]: both sides times [2^z]. *)
Lemma mul_pow2_lt a b z : 0 <= z -> a < b -> a * 2 ^ z < b * 2 ^ z.
Proof. intros Hz H. apply Z.mul_lt_mono_pos_r; [apply pow2_pos, Hz | exact H]. Qed.

(** A decimal [s * 10^e'] strictly inside the rounding interval of
    [x = Mx * 2^Ex] reads as [x]; the comparisons are cross-multiplied. *)
Lemma round_decimal_inside s e' Mx Ex :
  bounded prec emax Mx Ex = true ->
  (0 <= e' -> 2 ^ 53 <= Zpos s * 10 ^ e') ->
  (4 * Zpos Mx - gap Mx Ex)
    * 2 ^ Z.max 0 Ex * 10 ^ Z.max 0 (- e') < 4 * Zpos s * 10 ^ Z.max 0 e' * 2 ^ Z.max 0 (- Ex) ->
  4 * Zpos s * 10 ^ Z.max 0 e' * 2 ^ Z.max 0 (- Ex) < (4 * Zpos Mx + 2) * 2 ^ Z.max 0 Ex * 10 ^ Z.max 0 (- e') ->
  round_decimal false (Zpos s) e' = S754_finite false Mx Ex.
Proof.
  intros Hb Hbig Hlo Hhi. destruct (bounded_cases Mx Ex Hb) as (HM53 & HEx & HMn).
  set (c := gap Mx Ex) in *.
  pose proof (pow2_pos (Z.max 0 Ex) ltac:(lia)). pose proof (pow2_pos (Z.max 0 (- Ex)) ltac:(lia)).
  unfold round_decimal. destruct (Z.leb_spec 0 e') as [He|He].
  - (* an integer: rounded by [binary_normalize] *)
    specialize (Hbig He). rewrite (Z.max_r 0 e'), (Z.max_l 0 (- e')), Z.pow_0_r, Z.mul_1_r in Hlo, Hhi by lia.
    simpl cond_Zopp.
    destruct (Zpos s * 10 ^ e') as [|y|y] eqn:Ey; [lia | | lia].
    assert (HD : 54 <= Zdigits2 (Zpos y)).
    { pose proof (Zdigits2_bounds (Zpos y) ltac:(lia)).
      destruct (Z.le_gt_cases 54 (Zdigits2 (Zpos y))) as [|Hlt]; [assumption|].
      assert (2 ^ Zdigits2 (Zpos y) <= 2 ^ 53) by (apply Z.pow_le_mono_r; lia). lia. }
    unfold binary_normalize, binary_round.
    change (Zpos (digits2_pos y)) with (Zdigits2 (Zpos y)).
    unfold shl_align. rewrite fexp_normal by lia.
    replace (Zdigits2 (Zpos y) + 0 - 53 - 0) with (Zpos (Z.to_pos (Zdigits2 (Zpos y) - 53))) by lia.
    change loc_Exact with (frac_loc 0 1).
    apply (binary_round_aux_inside (Zpos y) 0 0 1 Mx Ex (Z.min 0 Ex - 2)); [lia | lia | lia | exact Hb | lia | lia | |].
    + fold c. replace (Ex - 2 - (Z.min 0 Ex - 2)) with (Z.max 0 Ex) by lia.
      replace (0 - (Z.min 0 Ex - 2)) with (2 + Z.max 0 (- Ex)) by lia.
      rewrite Z.pow_add_r by lia. change (2 ^ 2) with 4. lia.
    + replace (Ex - 2 - (Z.min 0 Ex - 2)) with (Z.max 0 Ex) by lia.
      replace (0 - (Z.min 0 Ex - 2)) with (2 + Z.max 0 (- Ex)) by lia.
      rewrite Z.pow_add_r by lia. change (2 ^ 2) with 4. lia.
  - (* a fraction: rounded by [SFdiv] *)
    rewrite (Z.max_l 0 e'), (Z.max_r 0 (- e')), Z.pow_0_r, Z.mul_1_r in Hlo, Hhi by lia.
    pose proof (Z.pow_pos_nonneg 10 (- e') ltac:(lia) ltac:(lia)) as H10.
    set (den := Z.to_pos (10 ^ (- e'))).
    assert (Hden : Zpos den = 10 ^ (- e')) by (unfold den; lia).
    unfold SFdiv, SFdiv_core_binary. cbv zeta. simpl xorb.
    set (d1 := Zdigits2 (Zpos s)). set (d2 := Zdigits2 (Zpos den)).
    set (e'' := Z.min (fexp prec emax (d1 + 0 - (d2 + 0))) (0 - 0)).
    assert (He'' : -1074 <= e'' <= 0) by (unfold e'', fexp, emin, prec, emax; lia).
    replace (match 0 - 0 - e'' with Zpos _ => Z.shiftl (Zpos s) (0 - 0 - e'') | Z0 => Zpos s | Zneg _ => 0 end)
      with (Zpos s * 2 ^ (- e''))
      by (destruct (0 - 0 - e'') eqn:ES; [rewrite Z.mul_comm; replace (- e'') with 0 by lia; simpl; lia
                                         | rewrite Z.shiftl_mul_pow2 by lia; do 2 f_equal; lia | lia]).
    pose proof (Z.div_mod (Zpos s * 2 ^ (- e'')) (Zpos den) ltac:(lia)) as Hqr.
    pose proof (Z.mod_pos_bound (Zpos s * 2 ^ (- e'')) (Zpos den) ltac:(lia)) as Hr.
    unfold Z.div, Z.modulo in Hqr, Hr.
    destruct (Z.div_eucl (Zpos s * 2 ^ (- e'')) (Zpos den)) as [q r] eqn:Eqr.
    assert (Hq0 : 0 <= q).
    { pose proof (Z.div_pos (Zpos s * 2 ^ (- e'')) (Zpos den) ltac:(pose proof (pow2_pos (- e'')); lia) ltac:(lia)).
      unfold Z.div in H1. rewrite Eqr in H1. exact H1. }
    rewrite new_location_frac by lia.
    assert (Hdig : 53 <= Zdigits2 q \/ e'' <= -1074).
    { pose proof (Zdigits2_bounds (Zpos s) ltac:(lia)) as Bs. pose proof (Zdigits2_bounds (Zpos den) ltac:(lia)) as Bd.
      fold d1 d2 in Bs, Bd.
      assert (1 <= d1) by (unfold d1; simpl; lia). assert (1 <= d2) by (unfold d2; simpl; lia).
      destruct (Z.le_gt_cases e'' (-1074)) as [|He2]; [right; assumption | left].
      assert (Hq52 : 2 ^ 52 <= q).
      { assert (HS : 2 ^ 52 * 2 ^ d2 <= 2 ^ (d1 - 1) * 2 ^ (- e'')).
        { rewrite <- !Z.pow_add_r by (unfold e'', fexp, emin, prec, emax in *; lia).
          apply Z.pow_le_mono_r; unfold e'', fexp, emin, prec, emax in *; lia. }
        assert (2 ^ (d1 - 1) * 2 ^ (- e'') <= Zpos s * 2 ^ (- e''))
          by (apply Z.mul_le_mono_nonneg_r; [pose proof (pow2_pos (- e'')); lia | lia]).
        assert (Zpos den * 2 ^ 52 <= 2 ^ d2 * 2 ^ 52) by (apply Z.mul_le_mono_nonneg_r; lia).
        nia. }
      destruct (Z.le_gt_cases 53 (Zdigits2 q)) as [|Hlt]; [assumption|].
      pose proof (Zdigits2_bounds q ltac:(lia)).
      assert (2 ^ Zdigits2 q <= 2 ^ 52) by (apply Z.pow_le_mono_r; lia). lia. }
    pose proof (pow2_pos (- e'') ltac:(lia)).
    set (K := Z.min e'' Ex - 2).
    set (z := - K - 2 - Z.max 0 (- Ex)).
    assert (Hz : 0 <= z) by (unfold z, K; lia).
    assert (HQ : 2 ^ (Ex - 2 - K) = 2 ^ Z.max 0 Ex * 2 ^ z) by (rewrite <- Z.pow_add_r by lia; f_equal; unfold z; lia).
    assert (HX : 2 ^ (e'' - K) * 2 ^ (- e'') = 4 * 2 ^ Z.max 0 (- Ex) * 2 ^ z).
    { rewrite <- !Z.pow_add_r by (unfold z, K; lia). change 4 with (2 ^ 2). rewrite <- !Z.pow_add_r by lia.
      f_equal. unfold z. lia. }
    apply (binary_round_aux_inside q e'' r (Zpos den) Mx Ex K); [lia | lia | exact Hdig | exact Hb | unfold K; lia | unfold K; lia | |].
    + fold c. replace ((q * Zpos den + r) * 2 ^ (e'' - K)) with (Zpos s * (2 ^ (e'' - K) * 2 ^ (- e''))) by nia.
      rewrite HQ, HX, Hden.
      replace ((4 * Zpos Mx - c) * (10 ^ (- e') * (2 ^ Z.max 0 Ex * 2 ^ z)))
        with ((4 * Zpos Mx - c) * 2 ^ Z.max 0 Ex * 10 ^ (- e') * 2 ^ z) by ring.
      replace (Zpos s * (4 * 2 ^ Z.max 0 (- Ex) * 2 ^ z)) with (4 * Zpos s * 2 ^ Z.max 0 (- Ex) * 2 ^ z) by ring.
      apply mul_pow2_lt; assumption.
    + replace ((q * Zpos den + r) * 2 ^ (e'' - K)) with (Zpos s * (2 ^ (e'' - K) * 2 ^ (- e''))) by nia.
      rewrite HQ, HX, Hden.
      replace ((4 * Zpos Mx + 2) * (10 ^ (- e') * (2 ^ Z.max 0 Ex * 2 ^ z)))
        with ((4 * Zpos Mx + 2) * 2 ^ Z.max 0 Ex * 10 ^ (- e') * 2 ^ z) by ring.
      replace (Zpos s * (4 * 2 ^ Z.max 0 (- Ex) * 2 ^ z)) with (4 * Zpos s * 2 ^ Z.max 0 (- Ex) * 2 ^ z) by ring.
      apply mul_pow2_lt; assumption.
Qed.

Lemma of_lu_lt d : Z.of_N (Unsigned.of_lu d) < 10 ^ Z.of_nat (Decimal.nb_digits d).
Proof.
  induction d; simpl Unsigned.of_lu; simpl Decimal.nb_digits;
    rewrite ?Nat2Z.inj_succ, ?Z.pow_succ_r by lia; rewrite ?N2Z.inj_add, ?N2Z.inj_mul; simpl; lia.
Qed.

Lemma usize_nb d : Unsigned.usize d = N.of_nat (Decimal.nb_digits d).
Proof. induction d; simpl; rewrite ?IHd; lia. Qed.

(** A big-endian numeral without leading zero is at least [10^(n-1)]. *)
Lemma of_lu_rev_ge d :
  Decimal.nzhead d = d -> d <> Decimal.Nil ->
  10 ^ (Z.of_nat (Decimal.nb_digits d) - 1) <= Z.of_N (Unsigned.of_lu (Decimal.rev d)).
Proof.
  intros Hn Hnil. destruct d as [|d|d|d|d|d|d|d|d|d|d]; [done| |..];
    [ exfalso; simpl in Hn; pose proof (nb_digits_nzhead d) as Hle; rewrite Hn in Hle; simpl in Hle; lia | .. ];
    unfold Decimal.rev; simpl Decimal.revapp; rewrite Unsigned.of_lu_revapp, usize_nb;
    simpl Decimal.nb_digits; rewrite Nat2Z.inj_succ, Z.sub_1_r, Z.pred_succ;
    rewrite N2Z.inj_add, N2Z.inj_mul, N2Z.inj_pow, nat_N_Z; simpl Unsigned.of_lu; simpl Z.of_N; lia.
Qed.

Lemma to_uint_nzhead p : Decimal.nzhead (Pos.to_uint p) = Pos.to_uint p.
Proof.
  pose proof (Unsigned.to_of (Pos.to_uint p)) as H. rewrite Unsigned.of_to in H. simpl in H.
  unfold Decimal.unorm in H. pose proof (Unsigned.to_uint_nonzero p) as Hz.
  destruct (Decimal.nzhead (Pos.to_uint p)); congruence.
Qed.

(** [ndigits] is the number of decimal digits. *)
Lemma ndigits_bounds p : 10 ^ (ndigits (Zpos p) - 1) <= Zpos p < 10 ^ ndigits (Zpos p).
Proof.
  unfold ndigits. pose proof (Unsigned.of_to p) as H. rewrite Unsigned.of_uint_alt in H.
  replace (Zpos p) with (Z.of_N (Unsigned.of_lu (Decimal.rev (Pos.to_uint p)))) by (rewrite H; reflexivity).
  split.
  - apply of_lu_rev_ge; [apply to_uint_nzhead | apply Unsigned.to_uint_nonnil].
  - rewrite <- (nb_digits_rev (Pos.to_uint p)). apply of_lu_lt.
Qed.

Lemma ndigits_pos p : 1 <= ndigits (Zpos p).
Proof.
  pose proof (ndigits_bounds p) as [_ H]. destruct (Z.le_gt_cases 1 (ndigits (Zpos p))) as [|Hlt]; [assumption|].
  destruct (Z.eq_dec (ndigits (Zpos p)) 0) as [E|E]; [rewrite E in H; simpl in H; lia|].
  rewrite Z.pow_neg_r in H by lia. lia.
Qed.

(** [10^a * u < v * 10^b]-style comparisons of powers with a common exponent. *)
Lemma pow10_split a b : 0 <= a -> 0 <= b -> 10 ^ a * 10 ^ b = 10 ^ (a + b).
Proof. intros. rewrite Z.pow_add_r; lia. Qed.

(** [dec_exponent num den] is [floor (log10 (num / den))]. *)
Lemma dec_exponent_spec num den :
  0 < num -> 0 < den ->
  den * 10 ^ Z.max 0 (dec_exponent num den) <= num * 10 ^ Z.max 0 (- dec_exponent num den) /\
  num * 10 ^ Z.max 0 (- dec_exponent num den - 1) < den * 10 ^ Z.max 0 (dec_exponent num den + 1).
Proof.
  intros Hn Hd. destruct num as [|pn|pn]; try lia. destruct den as [|pd|pd]; try lia.
  pose proof (ndigits_bounds pn) as [An1 An2]. pose proof (ndigits_bounds pd) as [Bd1 Bd2].
  pose proof (ndigits_pos pn). pose proof (ndigits_pos pd).
  set (A := ndigits (Zpos pn)) in *. set (B := ndigits (Zpos pd)) in *.
  assert (Hlow : Zpos pd * 10 ^ Z.max 0 (A - B - 1) <= Zpos pn * 10 ^ Z.max 0 (- (A - B - 1))).
  { assert (Zpos pd * 10 ^ Z.max 0 (A - B - 1) < 10 ^ B * 10 ^ Z.max 0 (A - B - 1))
      by (apply Z.mul_lt_mono_pos_r; [apply Z.pow_pos_nonneg; lia | lia]).
    assert (10 ^ (A - 1) * 10 ^ Z.max 0 (- (A - B - 1)) <= Zpos pn * 10 ^ Z.max 0 (- (A - B - 1)))
      by (apply Z.mul_le_mono_nonneg_r; [apply Z.pow_nonneg; lia | lia]).
    rewrite pow10_split in * by lia.
    replace (B + Z.max 0 (A - B - 1)) with (A - 1 + Z.max 0 (- (A - B - 1))) in * by lia. lia. }
  assert (Hup : Zpos pn * 10 ^ Z.max 0 (- (A - B) - 1) < Zpos pd * 10 ^ Z.max 0 (A - B + 1)).
  { assert (Zpos pn * 10 ^ Z.max 0 (- (A - B) - 1) < 10 ^ A * 10 ^ Z.max 0 (- (A - B) - 1))
      by (apply Z.mul_lt_mono_pos_r; [apply Z.pow_pos_nonneg; lia | lia]).
    assert (10 ^ (B - 1) * 10 ^ Z.max 0 (A - B + 1) <= Zpos pd * 10 ^ Z.max 0 (A - B + 1))
      by (apply Z.mul_le_mono_nonneg_r; [apply Z.pow_nonneg; lia | lia]).
    rewrite pow10_split in * by lia.
    replace (A + Z.max 0 (- (A - B) - 1)) with (B - 1 + Z.max 0 (A - B + 1)) in * by lia. lia. }
  unfold dec_exponent. fold A B.
  destruct (Z.leb_spec (Zpos pd * 10 ^ Z.max 0 (A - B)) (Zpos pn * 10 ^ Z.max 0 (- (A - B)))) as [Ht|Ht].
  - split; [exact Ht | exact Hup].
  - split; [exact Hlow|]. replace (- (A - B - 1) - 1) with (- (A - B)) by lia.
    replace (A - B - 1 + 1) with (A - B) by lia. exact Ht.
Qed.

(** ** Comparisons of decimal scalings *)

Lemma pow10_cross_le u v a b a' b' :
  0 <= a -> 0 <= b -> 0 <= a' -> 0 <= b' -> a - b = a' - b' -> 0 <= u -> 0 <= v ->
  u * 10 ^ a <= v * 10 ^ b -> u * 10 ^ a' <= v * 10 ^ b'.
Proof.
  intros Ha Hb Ha' Hb' Hd Hu Hv H.
  destruct (Z.le_gt_cases a a') as [Hc|Hc].
  - replace a' with (a + (a' - a)) by lia. replace b' with (b + (a' - a)) by lia.
    rewrite !Z.pow_add_r, !Z.mul_assoc by lia.
    apply Z.mul_le_mono_nonneg_r; [apply Z.pow_nonneg; lia | exact H].
  - replace a with (a' + (a - a')) in H by lia. replace b with (b' + (a - a')) in H by lia.
    rewrite !Z.pow_add_r, !Z.mul_assoc in H by lia.
    apply (Z.mul_le_mono_pos_r _ _ (10 ^ (a - a'))); [apply Z.pow_pos_nonneg; lia | exact H].
Qed.

Lemma pow10_cross_lt u v a b a' b' :
  0 <= a -> 0 <= b -> 0 <= a' -> 0 <= b' -> a - b = a' - b' -> 0 <= u -> 0 <= v ->
  u * 10 ^ a < v * 10 ^ b -> u * 10 ^ a' < v * 10 ^ b'.
Proof.
  intros Ha Hb Ha' Hb' Hd Hu Hv H.
  destruct (Z.le_gt_cases a a') as [Hc|Hc].
  - replace a' with (a + (a' - a)) by lia. replace b' with (b + (a' - a)) by lia.
    rewrite !Z.pow_add_r, !Z.mul_assoc by lia.
    apply Z.mul_lt_mono_pos_r; [apply Z.pow_pos_nonneg; lia | exact H].
  - replace a with (a' + (a - a')) in H by lia. replace b with (b' + (a - a')) in H by lia.
    rewrite !Z.pow_add_r, !Z.mul_assoc in H by lia.
    apply (Z.mul_lt_mono_pos_r (10 ^ (a - a'))); [apply Z.pow_pos_nonneg; lia | exact H].
Qed.

Lemma scaled_eq num den k n :
  scaled num den k n = (num * 10 ^ Z.max 0 (k - n), den * 10 ^ Z.max 0 (n - k)).
Proof.
  unfold scaled. destruct (Z.leb_spec 0 (k - n)).
  - rewrite (Z.max_r 0 (k - n)), (Z.max_l 0 (n - k)), Z.pow_0_r, Z.mul_1_r by lia. reflexivity.
  - rewrite (Z.max_l 0 (k - n)), (Z.max_r 0 (n - k)), Z.pow_0_r, Z.mul_1_r by lia. reflexivity.
Qed.

(** [nearest N D] is within half of [N / D]. *)
Lemma nearest_spec N D :
  0 < D -> Z.abs (2 * (nearest N D * D - N)) <= D /\ N / D <= nearest N D <= N / D + 1 /\
           (N mod D = 0 -> nearest N D = N / D).
Proof.
  intros HD. unfold nearest. pose proof (Z.div_mod N D ltac:(lia)). pose proof (Z.mod_pos_bound N D HD).
  set (q := N / D) in *. set (r := N mod D) in *.
  destruct (Z.ltb_spec (2 * r) D); [split; [|split]; lia|].
  destruct (Z.ltb_spec D (2 * r)); [split; [|split]; lia|].
  destruct (Z.even q); split; [| split | | split]; lia.
Qed.

(** ** The digits of [Number::toString] denote the number *)

(** A candidate accepted by the search rounds back to [x]. *)
Lemma shortest_step_ok x num den n k s n' :
  0 < den -> shortest_step x num den n k = Some (s, n') -> round_decimal false s (n' - k) = x.
Proof.
  intros Hden. unfold shortest_step. rewrite scaled_eq.
  set (N := num * 10 ^ Z.max 0 (k - n)). set (D := den * 10 ^ Z.max 0 (n - k)).
  assert (HD : 0 < D) by (unfold D; pose proof (Z.pow_pos_nonneg 10 (Z.max 0 (n - k))); nia).
  destruct (nearest_spec N D HD) as (_ & Hq & Hex).
  unfold roundtrips.
  set (lo := N / D) in *. set (hi := if N mod D =? 0 then lo else lo + 1).
  assert (Hnh : normalise k n (nearest N D) = normalise k n lo \/ normalise k n (nearest N D) = normalise k n hi).
  { unfold hi. destruct (Z.eqb_spec (N mod D) 0) as [E|E]; [left; rewrite (Hex E); reflexivity|].
    destruct (Z.eq_dec (nearest N D) lo) as [->|]; [left; reflexivity | right; f_equal; lia]. }
  destruct (normalise k n lo) as [s1 n1] eqn:E1. destruct (normalise k n hi) as [s2 n2] eqn:E2.
  destruct (bool_decide_reflect (round_decimal false (s1, n1).1 ((s1, n1).2 - k) = x)) as [H1|H1];
  destruct (bool_decide_reflect (round_decimal false (s2, n2).1 ((s2, n2).2 - k) = x)) as [H2|H2];
    simpl; intros Hs; try discriminate.
  - destruct Hnh as [Hn|Hn]; rewrite Hn in Hs; injection Hs as <- <-; assumption.
  - injection Hs as <- <-. exact H1.
  - injection Hs as <- <-. exact H2.
Qed.

(** The search returns an accepted candidate, or the nearest decimal with
    [k + fuel] digits. *)
Lemma shortest_search_cases x num den n k fuel s k' n' :
  0 < den -> shortest_search x num den n k fuel = (s, k', n') ->
  round_decimal false s (n' - k') = x \/
  (k' = k + Z.of_nat fuel /\
   normalise k' n (nearest (fst (scaled num den k' n)) (snd (scaled num den k' n))) = (s, n')).
Proof.
  intros Hden. revert k. induction fuel as [|fuel IH]; intros k; simpl.
  - destruct (scaled num den k n) as [N D] eqn:ES. destruct (normalise k n (nearest N D)) as [s0 n0] eqn:E.
    intros [= <- <- <-]. right. split; [lia | rewrite ES; exact E].
  - destruct (shortest_step x num den n k) as [[s0 n0]|] eqn:Hst.
    + intros [= <- <- <-]. left. exact (shortest_step_ok _ _ _ _ _ _ _ Hden Hst).
    + intros H. destruct (IH (k + 1) H) as [Hok|[Hk Hn]]; [left; exact Hok | right].
      split; [lia | exact Hn].
Qed.

(** Seventeen digits: the nearest 17-digit decimal [s0] of [x = m * 2^e]
    ([N / D = x * 10^(17-n)] lies in [[10^16, 10^17)]) is within half
    of the distance from [x] to its neighbours (a quarter below a power
    of two); here [Z1 / Z2] is [10^(n-17) / 2^e]. *)
Lemma seventeen_digits_close m Z1 Z2 s0 c :
  0 < Z1 -> 0 < Z2 -> 0 < m < 2 ^ 53 -> (c = 2 \/ c = 1 /\ m = 2 ^ 52) ->
  Z.abs (2 * (s0 * Z1 - m * Z2)) <= Z1 -> 10 ^ 16 * Z1 <= m * Z2 ->
  (4 * m - c) * Z2 < 4 * s0 * Z1 /\ 4 * s0 * Z1 < (4 * m + 2) * Z2.
Proof.
  intros H1 H2 Hm Hc Hn Hw.
  assert (m * Z2 < 10 ^ 16 * Z2) by (apply Z.mul_lt_mono_pos_r; lia).
  assert (Hz : Z1 < Z2) by lia.
  assert (Hc2 : 2 * Z1 < c * Z2).
  { destruct Hc as [-> | [-> ->]]; [lia|]. lia. }
  split; lia.
Qed.

(** A decimal [10^17 * 10^(n0 - 17)] read as [10^16 * 10^(n0 + 1 - 17)]:
    the cross-multiplied comparisons of [round_decimal_inside] carry over. *)
Lemma decade_lt X D n0 :
  0 <= X -> 0 <= D -> X * 10 ^ Z.max 0 (17 - n0) < 4 * 10 ^ 17 * (D * 10 ^ Z.max 0 (n0 - 17)) ->
  X * 10 ^ Z.max 0 (- (n0 + 1 - 17)) < 4 * Zpos (Z.to_pos (10 ^ 16)) * 10 ^ Z.max 0 (n0 + 1 - 17) * D.
Proof.
  intros HX HD H. change (Zpos (Z.to_pos (10 ^ 16))) with (10 ^ 16).
  replace (4 * 10 ^ 16 * 10 ^ Z.max 0 (n0 + 1 - 17) * D) with ((4 * D) * 10 ^ (16 + Z.max 0 (n0 + 1 - 17)))
    by (rewrite Z.pow_add_r by lia; ring).
  apply (pow10_cross_lt _ _ (Z.max 0 (17 - n0)) (17 + Z.max 0 (n0 - 17))); try lia.
  rewrite Z.pow_add_r by lia. lia.
Qed.

Lemma decade_gt Y D n0 :
  0 <= Y -> 0 <= D -> 4 * 10 ^ 17 * (D * 10 ^ Z.max 0 (n0 - 17)) < Y * 10 ^ Z.max 0 (17 - n0) ->
  4 * Zpos (Z.to_pos (10 ^ 16)) * 10 ^ Z.max 0 (n0 + 1 - 17) * D < Y * 10 ^ Z.max 0 (- (n0 + 1 - 17)).
Proof.
  intros HY HD H. change (Zpos (Z.to_pos (10 ^ 16))) with (10 ^ 16).
  replace (4 * 10 ^ 16 * 10 ^ Z.max 0 (n0 + 1 - 17) * D) with ((4 * D) * 10 ^ (16 + Z.max 0 (n0 + 1 - 17)))
    by (rewrite Z.pow_add_r by lia; ring).
  apply (pow10_cross_lt _ _ (17 + Z.max 0 (n0 - 17)) (Z.max 0 (17 - n0))); try lia.
  rewrite Z.pow_add_r by lia. lia.
Qed.

Lemma decade_big n0 :
  0 <= n0 + 1 - 17 -> 2 ^ 53 <= Zpos (Z.to_pos (10 ^ 16)) * 10 ^ (n0 + 1 - 17).
Proof.
  intros H. change (Zpos (Z.to_pos (10 ^ 16))) with (10 ^ 16).
  pose proof (Z.pow_pos_nonneg 10 (n0 + 1 - 17) ltac:(lia)). nia.
Qed.

(** Scaled by [10^(k-n0)], [num / den] has [k] digits before the point. *)
Lemma decade_window num den n0 k :
  0 < num -> 0 < den -> n0 = dec_exponent num den + 1 -> 1 <= k ->
  10 ^ (k - 1) * (den * 10 ^ Z.max 0 (n0 - k)) <= num * 10 ^ Z.max 0 (k - n0) /\
  num * 10 ^ Z.max 0 (k - n0) < 10 ^ k * (den * 10 ^ Z.max 0 (n0 - k)).
Proof.
  intros Hnum Hden Hn0 Hk. destruct (dec_exponent_spec num den Hnum Hden) as [Hd1 Hd2].
  replace (- dec_exponent num den - 1) with (- n0) in Hd2 by lia. rewrite <- Hn0 in Hd2.
  replace (dec_exponent num den) with (n0 - 1) in Hd1 by lia. clear Hn0.
  split.
  - replace (10 ^ (k - 1) * (den * 10 ^ Z.max 0 (n0 - k))) with (den * 10 ^ (k - 1 + Z.max 0 (n0 - k)))
      by (rewrite Z.pow_add_r by lia; ring).
    eapply pow10_cross_le; [| | | | | | | exact Hd1]; lia.
  - replace (10 ^ k * (den * 10 ^ Z.max 0 (n0 - k))) with (den * 10 ^ (k + Z.max 0 (n0 - k)))
      by (rewrite Z.pow_add_r by lia; ring).
    eapply pow10_cross_lt; [| | | | | | | exact Hd2]; lia.
Qed.

Lemma seventeen_window num den n0 :
  0 < num -> 0 < den -> n0 = dec_exponent num den + 1 ->
  10 ^ 16 * (den * 10 ^ Z.max 0 (n0 - 17)) <= num * 10 ^ Z.max 0 (17 - n0) /\
  num * 10 ^ Z.max 0 (17 - n0) < 10 ^ 17 * (den * 10 ^ Z.max 0 (n0 - 17)).
Proof. intros Hnum Hden Hn0. exact (decade_window num den n0 17 Hnum Hden Hn0 ltac:(lia)). Qed.

(** The nearest 17-digit decimal of a finite positive binary64 value
    rounds back to it: the fallback of [shortest_search] is exact. *)
Lemma shortest_fallback m e :
  bounded prec emax m e = true ->
  let num := Zpos m * 2 ^ Z.max 0 e in
  let den := 2 ^ Z.max 0 (- e) in
  let n0 := dec_exponent num den + 1 in
  forall s n', normalise 17 n0 (nearest (fst (scaled num den 17 n0)) (snd (scaled num den 17 n0))) = (s, n') ->
  round_decimal false s (n' - 17) = S754_finite false m e.
Proof.
  intros Hb num den n0 s n'. rewrite scaled_eq. simpl fst; simpl snd.
  destruct (bounded_cases m e Hb) as (Hm53 & He & _).
  pose proof (pow2_pos (Z.max 0 e) ltac:(lia)) as HP2. pose proof (pow2_pos (Z.max 0 (- e)) ltac:(lia)) as HQ2.
  assert (Hnum : 0 < num) by (unfold num; lia). assert (Hden : 0 < den) by exact HQ2.
  destruct (seventeen_window num den n0 Hnum Hden eq_refl) as [Hlo Hhi].
  assert (Hnum_eq : num = Zpos m * 2 ^ Z.max 0 e) by reflexivity.
  assert (Hden_eq : den = 2 ^ Z.max 0 (- e)) by reflexivity.
  clearbody num den n0.
  set (u := 10 ^ Z.max 0 (17 - n0)) in *. set (w := 10 ^ Z.max 0 (n0 - 17)) in *.
  assert (Hu : 0 < u) by (apply Z.pow_pos_nonneg; lia). assert (Hw : 0 < w) by (apply Z.pow_pos_nonneg; lia).
  assert (HD : 0 < den * w) by (apply Z.mul_pos_pos; assumption).
  destruct (nearest_spec (num * u) (den * w) HD) as (Hn & Hq & _).
  set (s0 := nearest (num * u) (den * w)) in *.
  assert (Hs0 : 10 ^ 16 <= s0 <= 10 ^ 17).
  { split.
    - transitivity (num * u / (den * w)); [apply Z.div_le_lower_bound; lia | lia].
    - assert (num * u / (den * w) < 10 ^ 17) by (apply Z.div_lt_upper_bound; lia). lia. }
  rewrite Hnum_eq, <- Z.mul_assoc in Hn, Hlo.
  destruct (seventeen_digits_close (Zpos m) (den * w) (2 ^ Z.max 0 e * u) s0 (gap m e)) as [Hc1 Hc2];
    [exact HD | apply Z.mul_pos_pos; assumption | lia | apply gap_cases | exact Hn | exact Hlo |].
  assert (Hg : 0 <= (4 * Zpos m - gap m e) * 2 ^ Z.max 0 e)
    by (apply Z.mul_nonneg_nonneg; [destruct (gap_cases m e) as [-> | [-> _]] |]; lia).
  clear Hn Hlo Hhi Hq Hnum_eq.
  unfold normalise. destruct (Z.eqb_spec s0 (10 ^ 17)) as [E17|E17]; intros [= <- <-].
  - (* [s0 = 10^17]: the decimal [10^16 * 10^(n0 + 1 - 17)] *)
    change (10 ^ (17 - 1)) with (10 ^ 16). rewrite E17 in Hc1, Hc2.
    apply (round_decimal_inside (Z.to_pos (10 ^ 16))); [exact Hb | exact (decade_big n0) | |].
    + rewrite <- Hden_eq. apply decade_lt; [exact Hg | lia | fold u w; lia].
    + rewrite <- Hden_eq. apply decade_gt; [lia | lia | fold u w; lia].
  - (* the decimal [s0 * 10^(n0 - 17)] *)
    destruct s0 as [|ps|ps] eqn:Es; try lia.
    apply round_decimal_inside; [exact Hb | intros; pose proof (Z.pow_pos_nonneg 10 (n0 - 17)); nia | |];
      replace (Z.max 0 (- (n0 - 17))) with (Z.max 0 (17 - n0)) by lia; fold u w; rewrite <- Hden_eq.
    + replace ((4 * Zpos m - gap m e) * 2 ^ Z.max 0 e * u) with ((4 * Zpos m - gap m e) * (2 ^ Z.max 0 e * u)) by ring.
      replace (4 * Zpos ps * w * den) with (4 * Zpos ps * (den * w)) by ring. exact Hc1.
    + replace ((4 * Zpos m + 2) * 2 ^ Z.max 0 e * u) with ((4 * Zpos m + 2) * (2 ^ Z.max 0 e * u)) by ring.
      replace (4 * Zpos ps * w * den) with (4 * Zpos ps * (den * w)) by ring. exact Hc2.
Qed.

(** ** The digit count of the result *)

(** A rounding up to [10^k] moves to the next decade: [k] digits. *)
Lemma normalise_digits k n c s n' :
  1 <= k -> 10 ^ (k - 1) <= c <= 10 ^ k -> normalise k n c = (s, n') -> 10 ^ (k - 1) <= s < 10 ^ k.
Proof.
  intros Hk Hc. unfold normalise. assert (10 ^ (k - 1) < 10 ^ k) by (apply Z.pow_lt_mono_r; lia).
  destruct (Z.eqb_spec c (10 ^ k)); intros [= <- <-]; lia.
Qed.

(** The candidates of [k] digits: [N / D], [N / D + 1] and the nearest. *)
Lemma candidates_digits num den n0 k :
  0 < num -> 0 < den -> n0 = dec_exponent num den + 1 -> 1 <= k ->
  let N := fst (scaled num den k n0) in let D := snd (scaled num den k n0) in
  0 < D /\ 10 ^ (k - 1) <= N / D /\ N / D + 1 <= 10 ^ k /\
  10 ^ (k - 1) <= nearest N D <= 10 ^ k.
Proof.
  intros Hnum Hden Hn0 Hk N D. unfold N, D. rewrite scaled_eq. simpl fst; simpl snd.
  destruct (decade_window num den n0 k Hnum Hden Hn0 Hk) as [Hlo Hhi].
  assert (HD : 0 < den * 10 ^ Z.max 0 (n0 - k)) by (pose proof (Z.pow_pos_nonneg 10 (Z.max 0 (n0 - k))); nia).
  assert (10 ^ (k - 1) <= num * 10 ^ Z.max 0 (k - n0) / (den * 10 ^ Z.max 0 (n0 - k)))
    by (apply Z.div_le_lower_bound; lia).
  assert (num * 10 ^ Z.max 0 (k - n0) / (den * 10 ^ Z.max 0 (n0 - k)) < 10 ^ k)
    by (apply Z.div_lt_upper_bound; lia).
  destruct (nearest_spec (num * 10 ^ Z.max 0 (k - n0)) _ HD) as (_ & Hq & _). lia.
Qed.

Lemma shortest_step_digits x num den n0 k s n' :
  0 < num -> 0 < den -> n0 = dec_exponent num den + 1 -> 1 <= k ->
  shortest_step x num den n0 k = Some (s, n') -> 10 ^ (k - 1) <= s < 10 ^ k.
Proof.
  intros Hnum Hden Hn0 Hk. pose proof (candidates_digits num den n0 k Hnum Hden Hn0 Hk) as Hc.
  unfold shortest_step. destruct (scaled num den k n0) as [N D]. simpl in Hc.
  destruct Hc as (HD & Hlo & Hhi & Hn).
  assert (Hh : 10 ^ (k - 1) <= (if N mod D =? 0 then N / D else N / D + 1) <= 10 ^ k) by (case_match; lia).
  intros H. repeat case_match; simplify_eq;
    match goal with H : normalise k _ ?c = (s, _) |- _ => refine (normalise_digits k _ c s _ Hk _ H); lia end.
Qed.

(** Every result of the search has as many digits as it says. *)
Lemma shortest_search_digits x num den n0 k fuel s k' n' :
  0 < num -> 0 < den -> n0 = dec_exponent num den + 1 -> 1 <= k ->
  shortest_search x num den n0 k fuel = (s, k', n') -> 1 <= k' /\ 10 ^ (k' - 1) <= s < 10 ^ k'.
Proof.
  intros Hnum Hden Hn0. revert k. induction fuel as [|fuel IH]; intros k Hk; simpl.
  - pose proof (candidates_digits num den n0 k Hnum Hden Hn0 Hk) as Hc.
    destruct (scaled num den k n0) as [N D]. simpl in Hc.
    destruct (normalise k n0 (nearest N D)) as [s0 n1] eqn:E. intros [= <- <- <-].
    split; [done |]. eapply normalise_digits; [done | | exact E]. lia.
  - destruct (shortest_step x num den n0 k) as [[s0 n1]|] eqn:Hst.
    + intros [= <- <- <-]. split; [done |]. exact (shortest_step_digits _ _ _ _ _ _ _ Hnum Hden Hn0 Hk Hst).
    + apply IH. lia.
Qed.

Lemma shortest_digits m e s k n :
  shortest m e = (s, k, n) -> 1 <= k /\ 10 ^ (k - 1) <= s < 10 ^ k.
Proof.
  unfold shortest, ratio. pose proof (pow2_pos (Z.max 0 e)).
  apply shortest_search_digits; [lia | apply pow2_pos | reflexivity | lia]; lia.
Qed.

(** The search with fuel 16 and its 17-digit fallback always round-trip. *)
Lemma printed_value_exact m e :
  bounded prec emax m e = true -> printed_value m e = S754_finite false m e.
Proof.
  intros Hb. unfold printed_value, shortest, ratio.
  destruct (shortest_search _ _ _ _ _ _) as [[s k] n] eqn:E.
  pose proof (shortest_search_cases _ _ _ _ _ _ _ _ _ (pow2_pos (Z.max 0 (-e)) ltac:(lia)) E) as HH.
  destruct HH as [Hok|[Hk Hn]];  [exact Hok|].
  simpl in Hk. subst k. exact (shortest_fallback m e Hb s n Hn).
Qed.

(** ** The claim *)

(** C28: for every finite positive binary64 value [m * 2^e], the digits
    [s], their count [k] and the decimal exponent [n] that
    Number::toString prints denote a decimal [s * 10^(n-k)] that reads
    back (rounded to nearest, ties to even) as exactly [m * 2^e]: the
    search with fuel 16 and its 17-digit fallback always round-trip. *)
Theorem shortest_roundtrips m e :
  bounded prec emax m e = true -> printed_value m e = S754_finite false m e.
Proof. exact (printed_value_exact m e). Qed.
(** The witness: [0.1], whose nearest binary64 value is
    [7205759403792794 * 2^-56]. *)
Lemma shortest_roundtrips_witness :
  bounded prec emax 7205759403792794 (-56) = true /\
  printed_value 7205759403792794 (-56) = S754_finite false 7205759403792794 (-56).
Proof.
  split; [vm_compute; reflexivity |].
  apply (shortest_roundtrips 7205759403792794 (-56)). vm_compute. reflexivity.
Defined.
