(* ===== verification/ReadBack.v ===== *)
(** * The text of a Number reads back as the Number

    [NumberFormat.to_string] (Number::toString, ECMA-262 6.1.6.1.20)
    prints the digits [s], their count [k] and the decimal exponent [n]
    that [shortest] finds in one of four notations ([format_decimal]:
    trailing zeros, a point inside the digits, [0.] and zeros before
    them, or exponential).  This file reads each notation back with the
    scanner of [parseFloat] (NumberParse.v): every branch scans as a
    decimal literal that denotes [s * 10^(n-k)] ([format_decimal_scan]),
    and with the exactness of the printed decimal (Shortest.v),
    [parseFloat] of the text of a Number is the Number itself,
    [-0] apart, which prints as ["0"] ([to_string_reads_back]). *)

From S2P Require Import Prelude Binary64 NumberFormat NumberParse Rounding LiteralSpec Shortest.
From Stdlib Require Import DecimalPos DecimalFacts.

#[local] Open Scope string_scope.
#[local] Open Scope Z_scope.

(** ** The digits of an integer *)

Lemma all_digits_string_of_uint u : all_digits (NilEmpty.string_of_uint u) = true.
Proof. induction u; simpl; rewrite ?IHu; reflexivity. Qed.

Lemma digits_of_Z_digits n : all_digits (digits_of_Z n) = true /\ digits_of_Z n <> "".
Proof.
  destruct n as [|p|p]; simpl; [split; [reflexivity | discriminate] | | split; [reflexivity | discriminate]].
  unfold digits_of_pos. split; [apply all_digits_string_of_uint |].
  pose proof (DecimalPos.Unsigned.to_uint_nonnil p) as Hn.
  destruct (Pos.to_uint p); simpl; done.
Qed.

Lemma all_digits_repeat_0 k : all_digits (str_repeat "0"%char k) = true.
Proof. induction k as [|k IH]; simpl; [done | by rewrite IH]. Qed.

Lemma substring_all_digits n l s : all_digits s = true -> all_digits (String.substring n l s) = true.
Proof.
  revert n l. induction s as [|c s IH]; intros [|n] [|l] H; simpl in *; try done.
  - apply andb_true_iff in H as [Hc Hs]. by rewrite Hc, IH.
  - apply andb_true_iff in H as [_ Hs]. by apply IH.
  - apply andb_true_iff in H as [_ Hs]. by apply IH.
Qed.

Lemma substring_length n l s :
  (n + l <= String.length s)%nat -> String.length (String.substring n l s) = l.
Proof.
  revert n l. induction s as [|c s IH]; intros [|n] [|l] H; simpl in *; try lia; try done.
  - f_equal. apply IH. lia.
  - apply IH. lia.
  - apply IH. lia.
Qed.

Lemma string_of_uint_length u : String.length (NilEmpty.string_of_uint u) = N.to_nat (Unsigned.usize u).
Proof. induction u; simpl; rewrite ?IHu; lia. Qed.

Lemma string_of_uint_value u :
  digits_val (NilEmpty.string_of_uint u) = Z.of_N (Unsigned.of_lu (Decimal.rev u)).
Proof.
  induction u; [reflexivity | ..]; cbn [NilEmpty.string_of_uint digits_val];
    rewrite string_of_uint_length, IHu, N_nat_Z;
    match goal with
    | |- context [Decimal.rev (?D u)] =>
        change (Decimal.rev (D u)) with (Decimal.revapp u (D Decimal.Nil));
        rewrite (Unsigned.of_lu_revapp u (D Decimal.Nil))
    end;
    cbn [Unsigned.of_lu]; rewrite N2Z.inj_add, N2Z.inj_mul, N2Z.inj_pow; vm_compute digit_value; lia.
Qed.

Lemma digits_of_Z_value p : digits_val (digits_of_Z (Zpos p)) = Zpos p.
Proof.
  simpl. unfold digits_of_pos. rewrite string_of_uint_value, <- Unsigned.of_uint_alt, Unsigned.of_to. reflexivity.
Qed.

Lemma digits_of_Z_length p : Z.of_nat (String.length (digits_of_Z (Zpos p))) = ndigits (Zpos p).
Proof.
  simpl. unfold digits_of_pos. rewrite string_of_uint_length, usize_nb. lia.
Qed.

(** An integer with [k] digits has [k] characters. *)
Lemma digits_of_Z_length_k s k :
  1 <= k -> 10 ^ (k - 1) <= s < 10 ^ k -> Z.of_nat (String.length (digits_of_Z s)) = k.
Proof.
  intros Hk Hs. destruct s as [|p|p]; [pose proof (Z.pow_pos_nonneg 10 (k - 1)); lia | | pose proof (Z.pow_pos_nonneg 10 (k - 1)); lia].
  rewrite digits_of_Z_length. pose proof (ndigits_bounds p) as [B1 B2]. pose proof (ndigits_pos p).
  destruct (Z.lt_total (ndigits (Zpos p)) k) as [Hlt | [Heq | Hgt]]; [| exact Heq |].
  - assert (10 ^ ndigits (Zpos p) <= 10 ^ (k - 1)) by (apply Z.pow_le_mono_r; lia). lia.
  - assert (10 ^ k <= 10 ^ (ndigits (Zpos p) - 1)) by (apply Z.pow_le_mono_r; lia). lia.
Qed.

(** ** Reading back the digits *)

Lemma span_digits_app d r :
  all_digits d = true -> no_digit_head r -> span_digits (d ++ r) = (digits_val d, String.length d, r).
Proof.
  intros Hd Hr. induction d as [|c d IH].
  - destruct r as [|c r]; [done |]. simpl in *. by rewrite Hr.
  - simpl in Hd. apply andb_true_iff in Hd as [Hc Hd]. rewrite str_append_cons. simpl. rewrite Hc, IH by done.
    reflexivity.
Qed.

Lemma digits_val_zeros k : digits_val (str_repeat "0"%char k) = 0.
Proof. induction k as [|k IH]; simpl; [done | rewrite IH; vm_compute digit_value; lia]. Qed.

Lemma substring_split s n :
  (n <= String.length s)%nat -> String.substring 0 n s ++ String.substring n (String.length s - n) s = s.
Proof.
  revert n. induction s as [|c s IH]; intros [|n] H; simpl in *; try lia; try done.
  - rewrite str_append_nil_l. f_equal. clear. induction s as [|c s IH]; simpl; [done | by rewrite IH].
  - rewrite str_append_cons. f_equal. apply IH. lia.
Qed.

Lemma prefix_infinity_digit c t : is_digit c = true -> String.prefix "Infinity" (String c t) = false.
Proof.
  intros Hc. destruct c as [[] [] [] [] [] [] [] []]; first [discriminate Hc | reflexivity].
Qed.

Lemma no_digit_head_point t : no_digit_head (String "." t).
Proof. reflexivity. Qed.

Lemma no_digit_head_e t : no_digit_head (String "e" t).
Proof. reflexivity. Qed.

Lemma span_digits_all d : all_digits d = true -> span_digits d = (digits_val d, String.length d, "").
Proof. intros Hd. rewrite <- (str_append_nil_r d) at 1. by apply span_digits_app. Qed.

Lemma nonempty_length d : d <> "" -> exists l, String.length d = S l.
Proof. destruct d; [done | eauto]. Qed.

(** Digits, then something that is neither a digit nor a point. *)
Lemma scan_int_gen b a r :
  all_digits a = true -> a <> "" -> no_digit_head r -> (forall t, r <> String "." t) ->
  scan_unsigned b (a ++ r) = Some (LitDecimal b (digits_val a) (scan_exponent r)).
Proof.
  intros Ha Hne Hr Hnp. unfold scan_unsigned.
  destruct (nonempty_digits_head a r Hne Ha) as (c & t & Ht & Hc). rewrite Ht, prefix_infinity_digit by done.
  rewrite <- Ht, span_digits_app by done. destruct (nonempty_length a Hne) as [l Hl]. rewrite Hl.
  destruct r as [|c' r'].
  - cbn. rewrite Z.mul_1_r, Z.add_0_r, Z.sub_0_r. reflexivity.
  - rewrite point_match_other by (intros ->; exact (Hnp r' eq_refl)).
    cbn. rewrite Z.mul_1_r, Z.add_0_r, Z.sub_0_r. reflexivity.
Qed.

(** Digits, a point, digits, then something that is not a digit. *)
Lemma scan_point_gen b a f r :
  all_digits a = true -> a <> "" -> all_digits f = true -> no_digit_head r ->
  scan_unsigned b (a ++ String "." (f ++ r)) =
  Some (LitDecimal b (digits_val (a ++ f)) (scan_exponent r - Z.of_nat (String.length f))).
Proof.
  intros Ha Hne Hf Hr. unfold scan_unsigned.
  destruct (nonempty_digits_head a (String "." (f ++ r)) Hne Ha) as (c & t & Ht & Hc).
  rewrite Ht, prefix_infinity_digit by done.
  rewrite <- Ht, span_digits_app by done. destruct (nonempty_length a Hne) as [l Hl]. rewrite Hl.
  cbn -[span_digits Z.pow digits_val]. rewrite span_digits_app by done.
  cbn -[Z.pow digits_val]. rewrite digits_val_app. reflexivity.
Qed.

Lemma digits_of_Z_val z : 0 <= z -> digits_val (digits_of_Z z) = z.
Proof. destruct z as [|p|p]; intros Hz; [reflexivity | apply digits_of_Z_value | lia]. Qed.

(** The exponent [Number::toString] prints reads back. *)
Lemma scan_exponent_printed e :
  scan_exponent ("e" ++ (if 0 <=? e then "+" else "-") ++ digits_of_Z (Z.abs e)) = e.
Proof.
  destruct (digits_of_Z_digits (Z.abs e)) as [Hd Hne].
  destruct (Z.leb_spec 0 e); rewrite !str_append_cons, !str_append_nil_l; cbn -[span_digits digits_of_Z];
    rewrite span_digits_all by done; destruct (nonempty_length _ Hne) as [l ->];
    rewrite digits_of_Z_val by lia; lia.
Qed.

(** Trailing zeros of the digits or a larger exponent: the same number. *)
Lemma round_decimal_shift s j :
  0 < s -> 0 <= j -> round_decimal false (s * 10 ^ j) 0 = round_decimal false s j.
Proof.
  intros Hs Hj. destruct s as [|p|p]; try lia.
  assert (0 < 10 ^ j) by lia.
  destruct (Z.pos p * 10 ^ j) as [|q|q] eqn:E; try lia.
  unfold round_decimal. destruct (Z.leb_spec 0 j); [| lia]. cbn [cond_Zopp Z.leb Z.compare].
  rewrite Z.pow_0_r, Z.mul_1_r, E. reflexivity.
Qed.

Lemma str_app_nonempty a b : a <> "" -> a ++ b <> "".
Proof. by destruct a. Qed.

(** The digits [d] split at [n]: a nonempty head and the rest. *)
Lemma digits_split d n :
  (1 <= n <= String.length d)%nat ->
  String.substring 0 n d <> "" /\
  String.substring 0 n d ++ String.substring n (String.length d - n) d = d /\
  String.length (String.substring n (String.length d - n) d) = (String.length d - n)%nat.
Proof.
  intros Hn. split_and!; [| apply substring_split; lia | apply substring_length; lia].
  intros E. pose proof (substring_length 0 n d ltac:(lia)) as L. rewrite E in L. simpl in L. lia.
Qed.

(** Every branch of [format_decimal] starts with a digit and reads back
    as a decimal of the same value. *)
Lemma format_decimal_scan b s k n :
  1 <= k -> 10 ^ (k - 1) <= s < 10 ^ k ->
  exists c t M E, format_decimal s k n = String c t /\ is_digit c = true /\
    scan_unsigned b (format_decimal s k n) = Some (LitDecimal b M E) /\
    round_decimal false M E = round_decimal false s (n - k).
Proof.
  intros Hk Hs.
  destruct (digits_of_Z_digits s) as [Hd Hne].
  pose proof (digits_of_Z_length_k s k Hk Hs) as HL.
  assert (Hv : digits_val (digits_of_Z s) = s) by (apply digits_of_Z_val; lia).
  unfold format_decimal. cbv zeta. set (d := digits_of_Z s) in *.
  destruct ((k <=? n) && (n <=? 21)) eqn:E1.
  { (* integral, trailing zeros *)
    rewrite andb_true_iff, !Z.leb_le in E1.
    set (z := str_repeat "0"%char (Z.to_nat (n - k))).
    assert (Ha : all_digits (d ++ z) = true) by (rewrite all_digits_app, Hd; apply all_digits_repeat_0).
    assert (Hane : d ++ z <> "") by (by apply str_app_nonempty).
    destruct (nonempty_digits_head (d ++ z) "" Hane Ha) as (c & t & Ht & Hc). rewrite str_append_nil_r in Ht.
    exists c, t, (digits_val (d ++ z)), 0. split_and!; [done | done | |].
    - pose proof (scan_int_gen b (d ++ z) "" Ha Hane I ltac:(discriminate)) as Hsc.
      rewrite str_append_nil_r in Hsc. exact Hsc.
    - unfold z. rewrite digits_val_app, Hv, digits_val_zeros, str_length_repeat, Z2Nat.id, Z.add_0_r by lia.
      apply round_decimal_shift; lia. }
  destruct ((0 <? n) && (n <=? 21)) eqn:E2.
  { (* a point inside the digits *)
    rewrite andb_false_iff, Z.leb_gt, Z.leb_gt in E1. rewrite andb_true_iff, Z.ltb_lt, Z.leb_le in E2.
    assert (Hn : (1 <= Z.to_nat n <= String.length d)%nat) by lia.
    destruct (digits_split d (Z.to_nat n) Hn) as (Hane & Hsplit & Hlf).
    replace (Z.to_nat (k - n)) with (String.length d - Z.to_nat n)%nat by lia.
    set (a := String.substring 0 (Z.to_nat n) d) in *.
    set (f := String.substring (Z.to_nat n) (String.length d - Z.to_nat n) d) in *.
    assert (Ha : all_digits a = true) by (apply substring_all_digits; exact Hd).
    assert (Hf : all_digits f = true) by (apply substring_all_digits; exact Hd).
    destruct (nonempty_digits_head a ("." ++ f) Hane Ha) as (c & t & Ht & Hc).
    exists c, t, (digits_val (a ++ f)), (scan_exponent "" - Z.of_nat (String.length f)).
    split_and!; [done | done | |].
    - pose proof (scan_point_gen b a f "" Ha Hane Hf I) as Hsc. rewrite str_append_nil_r in Hsc. exact Hsc.
    - rewrite Hsplit, Hv, Hlf. f_equal. cbn [scan_exponent]. lia. }
  destruct ((-6 <? n) && (n <=? 0)) eqn:E3.
  { (* a point and zeros before the digits *)
    rewrite andb_true_iff, Z.ltb_lt, Z.leb_le in E3.
    set (z := str_repeat "0"%char (Z.to_nat (- n))).
    assert (Hf : all_digits (z ++ d) = true) by (rewrite all_digits_app, Hd, andb_true_r; apply all_digits_repeat_0).
    exists "0"%char, ("." ++ z ++ d), (digits_val ("0" ++ z ++ d)), (scan_exponent "" - Z.of_nat (String.length (z ++ d))).
    split_and!; [reflexivity | reflexivity | |].
    - pose proof (scan_point_gen b "0" (z ++ d) "" eq_refl ltac:(discriminate) Hf I) as Hsc.
      rewrite str_append_nil_r in Hsc. exact Hsc.
    - unfold z. rewrite !digits_val_app, Hv, digits_val_zeros, str_length_append, str_length_repeat.
      f_equal; cbn [scan_exponent digits_val]; vm_compute digit_value; lia. }
  (* exponential notation *)
  set (r := "e" ++ (if 0 <=? n - 1 then "+" else "-") ++ digits_of_Z (Z.abs (n - 1))).
  assert (Hr : no_digit_head r) by reflexivity.
  destruct (Z.eqb_spec k 1) as [->|Hk1].
  - destruct (nonempty_digits_head d r Hne Hd) as (c & t & Ht & Hc).
    exists c, t, (digits_val d), (scan_exponent r). split_and!; [done | done | |].
    + apply scan_int_gen; [done | done | done | intros t' E; discriminate E].
    + unfold r. rewrite Hv, scan_exponent_printed. reflexivity.
  - assert (Hn : (1 <= 1 <= String.length d)%nat) by lia.
    destruct (digits_split d 1 Hn) as (Hane & Hsplit & Hlf).
    replace (Z.to_nat (k - 1)) with (String.length d - 1)%nat by lia.
    set (a := String.substring 0 1 d) in *.
    set (f := String.substring 1 (String.length d - 1) d) in *.
    assert (Ha : all_digits a = true) by (apply substring_all_digits; exact Hd).
    assert (Hf : all_digits f = true) by (apply substring_all_digits; exact Hd).
    rewrite <- !str_append_assoc.
    destruct (nonempty_digits_head a ("." ++ f ++ r) Hane Ha) as (c & t & Ht & Hc).
    exists c, t, (digits_val (a ++ f)), (scan_exponent r - Z.of_nat (String.length f)).
    split_and!; [done | done | exact (scan_point_gen b a f r Ha Hane Hf Hr) |].
    unfold r. rewrite Hsplit, Hv, Hlf, scan_exponent_printed. f_equal. lia.
Qed.



(** ** The text of a finite Number *)

Lemma is_digit_not_ws c : is_digit c = true -> is_ws c = false.
Proof.
  unfold is_digit. intros H. apply andb_true_iff in H as [H1 H2]. apply Z.leb_le in H1, H2.
  unfold is_ws. cbv zeta. zbool.
Qed.

Lemma scan_sign_digit c t : is_digit c = true -> scan_sign (String c t) = (false, String c t).
Proof.
  intros Hc. destruct c as [[] [] [] [] [] [] [] []]; first [discriminate Hc | reflexivity].
Qed.

(** [parseFloat] of the text [Number::toString] prints for a Number is
    that Number; [-0] prints as ["0"] and reads as [+0]. *)
Lemma to_string_reads_back x :
  valid x = true ->
  parse_float_str (to_string x) = match x with S754_zero _ => PosZero | _ => x end.
Proof.
  destruct x as [neg|[]| |neg m e]; intros Hv; [reflexivity .. |].
  unfold to_string. destruct (shortest m e) as [[s k] n] eqn:Hsh.
  destruct (shortest_digits m e s k n Hsh) as [Hk Hs].
  destruct (format_decimal_scan neg s k n Hk Hs) as (c & t & M & E & Ht & Hc & Hscan & Hval).
  pose proof (printed_value_exact m e Hv) as Hx. unfold printed_value in Hx. rewrite Hsh, <- Hval in Hx.
  unfold parse_float_str. destruct neg.
  - change (scan_literal (trim_start ("-" ++ format_decimal s k n))) with (scan_unsigned true (format_decimal s k n)).
    rewrite Hscan. cbn [literal_value]. rewrite round_decimal_neg, Hx. reflexivity.
  - change ("" ++ format_decimal s k n) with (format_decimal s k n). rewrite Ht. cbn [trim_start].
    rewrite is_digit_not_ws by exact Hc. unfold scan_literal. rewrite scan_sign_digit by exact Hc.
    rewrite <- Ht, Hscan. exact Hx.
Qed.
