(* ===== verification/JsValue.v ===== *)
(** * JavaScript values of the script

    The values src/script.js handles besides numbers: the JSON value
    [response.json()] resolves to (line 43), the [undefined] a missing
    property reads as, and the strings of the file keys and table cells.
    This file gives their type and the language operations the script
    applies to them, translated from ECMA-262: [ToBoolean] and the [||]
    of [vendor || 'Unknown Vendor'] and [total || 0] (line 29),
    [ToString] of template literals and [parseFloat] (lines 18, 64, 48),
    property reads [result.vendor] and [result.total] (lines 47-48), and
    [encodeURIComponent] of the request URL (line 42).

    [ToString] can throw: an object with an own [toString] property (a
    JSON object can have one) has no callable [toString] nor a
    [valueOf] that returns a primitive, and OrdinaryToPrimitive throws a
    TypeError; the result is [None] then.

    The last section shows that [parseFloat] of a Number, the
    [parseFloat(result.total)] of a total the API returns as a JSON
    number, is that number (ReadBack.v reads its text back). *)

From S2P Require Import Prelude Binary64 NumberFormat NumberParse Rounding LiteralSpec Shortest ReadBack.

#[local] Open Scope string_scope.

(** ** Values *)

#[warnings="-register-all"]
Inductive jsval :=
  | JUndefined
  | JNull
  | JBool (b : bool)
  | JNum (n : number)
  | JStr (s : string)
  | JArr (elems : list jsval)
  | JObj (props : list (string * jsval)).

(** ** ToBoolean and [||] *)

Definition truthy (v : jsval) : bool :=
  match v with
  | JUndefined | JNull => false
  | JBool b => b
  | JNum n => num_truthy n
  | JStr s => negb (String.eqb s "")
  | JArr _ | JObj _ => true
  end.

(** [a || b]: [a] when it is truthy, [b] otherwise. *)
Definition js_or (a b : jsval) : jsval := if truthy a then a else b.

Notation "a ||| b" := (js_or a b) (at level 50, left associativity) : js_scope.

(** On two numbers [||] is [num_or]. *)
Lemma js_or_num (a b : number) : js_or (JNum a) (JNum b) = JNum (num_or a b).
Proof. unfold js_or, num_or. simpl. by destruct (num_truthy a). Qed.

(** ** Own properties

    [JSON.parse] keeps the last of duplicated keys. *)
Fixpoint lookup_prop (k : string) (props : list (string * jsval)) : option jsval :=
  match props with
  | [] => None
  | (k', v) :: rest =>
      match lookup_prop k rest with
      | Some w => Some w
      | None => if String.eqb k k' then Some v else None
      end
  end.

Definition has_own (k : string) (props : list (string * jsval)) : bool :=
  match lookup_prop k props with Some _ => true | None => false end.

(** [v.k] for a key [k] that no built-in prototype defines (the script
    reads [vendor] and [total]): a TypeError on [undefined] and [null],
    the own property of an object, [undefined] otherwise. *)
Definition get_prop (v : jsval) (k : string) : option jsval :=
  match v with
  | JUndefined | JNull => None
  | JObj props => Some (default JUndefined (lookup_prop k props))
  | _ => Some JUndefined
  end.

(** ** ToString

    Arrays print with [Array.prototype.join] (holes, [undefined] and
    [null] print empty); plain objects print as [[object Object]]. *)
Fixpoint to_str (v : jsval) : option string :=
  match v with
  | JUndefined => Some "undefined"
  | JNull => Some "null"
  | JBool b => Some (if b then "true" else "false")
  | JNum n => Some (to_string n)
  | JStr s => Some s
  | JArr elems =>
      str_join "," <$> mapM (fun e => match e with
                                     | JUndefined | JNull => Some ""
                                     | _ => to_str e
                                     end) elems
  | JObj props => if has_own "toString" props then None else Some "[object Object]"
  end.

(** [parseFloat(v)]: ToString, then the string parse. *)
Definition parse_float (v : jsval) : option number :=
  parse_float_str <$> to_str v.

(** ** encodeURIComponent

    Characters outside [A-Z a-z 0-9 - _ . ! ~ * ' ( )] are replaced by
    the percent-encoded bytes of their UTF-8 encoding, with upper-case
    hexadecimal digits; a code unit below 256 takes one or two bytes. *)

Definition unreserved (c : ascii) : bool :=
  let n := code c in
  (48 <=? n)%Z && (n <=? 57)%Z || (65 <=? n)%Z && (n <=? 90)%Z
  || (97 <=? n)%Z && (n <=? 122)%Z
  || existsb (Z.eqb n) [45; 95; 46; 33; 126; 42; 39; 40; 41]%Z.

Definition hex_digit (d : Z) : ascii :=
  ascii_of_nat (Z.to_nat (if (d <? 10)%Z then 48 + d else 55 + d)%Z).

Definition pct (b : Z) : string :=
  String "%" (String (hex_digit (Z.shiftr b 4)) (String (hex_digit (Z.land b 15)) "")).

Definition utf8_bytes (n : Z) : list Z :=
  if (n <? 128)%Z then [n]
  else [Z.lor 192 (Z.shiftr n 6); Z.lor 128 (Z.land n 63)].

Definition encode_char (c : ascii) : string :=
  if unreserved c then String c "" else str_concat (map pct (utf8_bytes (code c))).

Fixpoint encode_uri_component (s : string) : string :=
  match s with
  | EmptyString => EmptyString
  | String c s' => encode_char c ++ encode_uri_component s'
  end.

(** ** The receiving side: percent-decoding of a query component

    The endpoint recovers the key by decoding its query parameter
    (decodeURIComponent on the UTF-8 bytes).  On the 8-bit strings of the
    model it decodes one-byte sequences and the two-byte sequences of
    code points 128 to 255, and fails on anything else. *)

Definition hex_value (c : ascii) : option Z :=
  let n := code c in
  if (48 <=? n)%Z && (n <=? 57)%Z then Some (n - 48)%Z
  else if (65 <=? n)%Z && (n <=? 70)%Z then Some (n - 55)%Z
  else if (97 <=? n)%Z && (n <=? 102)%Z then Some (n - 87)%Z
  else None.

Definition hex_byte (h1 h2 : ascii) : option Z :=
  v1 ← hex_value h1; v2 ← hex_value h2; Some (16 * v1 + v2)%Z.

Definition char_of (n : Z) : ascii := ascii_of_nat (Z.to_nat n).

Fixpoint uri_decode (s : string) : option string :=
  match s with
  | EmptyString => Some EmptyString
  | String "%" (String h1 (String h2 r)) =>
      b ← hex_byte h1 h2;
      if (b <? 128)%Z then String (char_of b) <$> uri_decode r
      else if (b =? 194)%Z || (b =? 195)%Z then
        match r with
        | String "%" (String h3 (String h4 r')) =>
            b2 ← hex_byte h3 h4;
            if (128 <=? b2)%Z && (b2 <? 192)%Z
            then String (char_of (Z.lor (Z.shiftl (b - 192) 6) (b2 - 128))) <$> uri_decode r'
            else None
        | _ => None
        end
      else None
  | String "%" _ => None
  | String c r => String c <$> uri_decode r
  end.

(** ** When ToString throws *)

(** The value holds, at the top or inside arrays, an object with an own
    [toString] key. *)
Fixpoint bad_object (v : jsval) : bool :=
  match v with
  | JObj props => has_own "toString" props
  | JArr elems => existsb bad_object elems
  | _ => false
  end.

(** Induction on values with a hypothesis for every array element. *)
Section jsval_ind_deep.
Variable P : jsval -> Prop.
Hypothesis HUndefined : P JUndefined.
Hypothesis HNull : P JNull.
Hypothesis HBool : forall b, P (JBool b).
Hypothesis HNum : forall n, P (JNum n).
Hypothesis HStr : forall s, P (JStr s).
Hypothesis HArr : forall l, Forall P l -> P (JArr l).
Hypothesis HObj : forall props, P (JObj props).

Fixpoint jsval_ind_deep (v : jsval) : P v :=
  match v with
  | JUndefined => HUndefined
  | JNull => HNull
  | JBool b => HBool b
  | JNum n => HNum n
  | JStr s => HStr s
  | JArr l =>
      HArr l ((fix go (l : list jsval) : Forall P l :=
                 match l with
                 | [] => Forall_nil_2 _
                 | x :: l' => Forall_cons_2 _ _ _ (jsval_ind_deep x) (go l')
                 end) l)
  | JObj props => HObj props
  end.
End jsval_ind_deep.

(** C18: ToString (of a template literal, of [parseFloat]'s argument)
    throws exactly on values that hold an object with an own [toString]
    key, at the top or inside arrays; on every other value it returns a
    string. *)
Theorem to_str_fails v : to_str v = None <-> bad_object v = true.
Proof.
  induction v as [| | | | | l IH |] using jsval_ind_deep; simpl; try done.
  - rewrite fmap_None, mapM_None, Exists_exists, existsb_exists. rewrite Forall_forall in IH.
    split; intros (x & Hin & Hx); exists x; rewrite <- list_elem_of_In in *; split; try done;
      destruct x; try done; by apply IH.
  - by destruct (has_own "toString" props).
Qed.

(** ** The query component carries the key *)

(** The characters [encodeURIComponent] outputs: unreserved ones, [%]
    and upper-case hexadecimal digits. *)
Definition query_safe (c : ascii) : bool :=
  unreserved c || (c =? "%")%char || (65 <=? code c)%Z && (code c <=? 70)%Z.

Lemma encode_char_safe c : forallb query_safe (String.list_ascii_of_string (encode_char c)) = true.
Proof. destruct c as [[] [] [] [] [] [] [] []]; reflexivity. Qed.

Lemma encode_char_decode c r : uri_decode (encode_char c ++ r) = String c <$> uri_decode r.
Proof. destruct c as [[] [] [] [] [] [] [] []]; reflexivity. Qed.

(** [encodeURIComponent] outputs only query-safe characters and the
    percent-decoding gives its input back. *)
Lemma encode_uri_component_spec (s : string) :
  forallb query_safe (String.list_ascii_of_string (encode_uri_component s)) = true /\
  uri_decode (encode_uri_component s) = Some s.
Proof.
  induction s as [|c s [IHs IHd]]; [done |]. simpl. split.
  - by rewrite list_ascii_of_string_app, forallb_app, encode_char_safe, IHs.
  - by rewrite encode_char_decode, IHd.
Qed.

(** ** parseFloat of a Number *)

(** C36: [parseFloat(result.total)] (line 48) of a total the API
    returns as a JSON number is that number: ToString prints the
    shortest decimal that rounds back, and parseFloat reads every
    notation it prints (plain, fractional, [0.000ddd], exponential)
    back to it.  Only [-0] changes: it prints as ["0"] and reads as
    [+0]; NaN and the infinities read back as themselves. *)
Theorem parse_float_json_number x :
  valid x = true -> parse_float (JNum x) = Some (match x with S754_zero _ => PosZero | _ => x end).
Proof. intros Hv. unfold parse_float. cbn [to_str fmap option_fmap option_map]. by rewrite to_string_reads_back. Qed.

(** The witness: [0.1], the binary64 value [7205759403792794 * 2^-56]. *)
Lemma parse_float_json_number_witness :
  valid (S754_finite false 7205759403792794 (-56)) = true /\
  parse_float (JNum (S754_finite false 7205759403792794 (-56))) = Some (S754_finite false 7205759403792794 (-56)).
Proof.
  assert (Hv : valid (S754_finite false 7205759403792794 (-56)) = true) by (vm_compute; reflexivity).
  split; [exact Hv | exact (parse_float_json_number _ Hv)].
Defined.
