(* ===== verification/Receipt.v ===== *)
(** * fetchReceiptDetails (src/script.js, lines 39-54)

    The function runs in three segments separated by its two [await]s:
    it builds the request URL and calls [fetch] (lines 41-42); when the
    response arrives it calls [response.json()] (line 43); when the body
    is parsed it logs it and builds [{vendor, total}] (lines 44-49).  Any
    rejection or exception in these segments lands in the [catch] of
    lines 50-53, which logs the error and returns the fallback
    [{vendor: 'Unknown', total: 0}].  The segments are separate
    definitions here, so that [Pipeline.v] can interleave them with the
    other pending uploads; the console is the list of messages written. *)

From S2P Require Import Prelude Binary64 NumberFormat NumberParse JsValue.

#[local] Open Scope string_scope.

(** ** Errors and console messages *)

(** What a [catch] clause of the script receives. *)
Inductive error :=
  | UploadError    (** [Storage.put] rejected *)
  | NetworkError   (** [fetch] rejected *)
  | JsonError      (** [response.json()] rejected: the body is not JSON *)
  | TypeError      (** a property read of [null] or a failed ToString *)
  | CanvasInUse.   (** [new Chart] on a canvas that still holds a chart *)

#[export] Instance error_eq_dec : EqDecision error.
Proof. solve_decision. Defined.

Inductive log_entry :=
  | LogUploaded (key : string)     (** [console.log(`File uploaded successfully: ${fileKey}`)] *)
  | LogReceipt (result : jsval)    (** [console.log('Receipt details:', result)] *)
  | ErrFetch (e : error)           (** [console.error('Error fetching receipt details:', error)] *)
  | ErrUpload (e : error).         (** [console.error('Error uploading file:', error)] *)

(** ** The request *)

Definition apiUrl : string := "https://4rz5bax45h.execute-api.us-east-1.amazonaws.com".

(** [`${apiUrl}?fileKey=${encodeURIComponent(fileKey)}`] *)
Definition request_url (fileKey : string) : string :=
  apiUrl ++ "?fileKey=" ++ encode_uri_component fileKey.

(** ** The result *)

(** The object [{ vendor, total }] the function resolves to. *)
Record details := mk_details { d_vendor : jsval; d_total : number }.

(** [{ vendor: 'Unknown', total: 0 }] *)
Definition fallback_details : details := mk_details (JStr "Unknown") (of_Z 0).

(** Lines 46-49: [result.vendor], then [parseFloat(result.total)]; [None]
    when a property read or the ToString of [parseFloat] throws. *)
Definition details_of_result (result : jsval) : option details :=
  vendor ← get_prop result "vendor";
  total ← get_prop result "total";
  t ← parse_float total;
  Some (mk_details vendor t).

(** The segment after [response.json()] resolves with [result]: the log
    of line 44, then the object of lines 46-49 or, when building it
    throws, the [catch] of lines 50-53. *)
Definition on_json (result : jsval) : details * list log_entry :=
  match details_of_result result with
  | Some d => (d, [LogReceipt result])
  | None => (fallback_details, [LogReceipt result; ErrFetch TypeError])
  end.

(** The [catch] of lines 50-53 after a rejected [fetch] or [json()]. *)
Definition on_failure (e : error) : details * list log_entry :=
  (fallback_details, [ErrFetch e]).

(** ** Properties *)

(** C16: The request URL of a key is the API URL with the single query
    parameter [fileKey], whose value has no [&], [#], [=] or space (only
    unreserved characters, [%] and hexadecimal digits) and decodes back
    to the key exactly: the endpoint receives the key the upload used. *)
Theorem request_url_key_roundtrip (key : string) :
  exists q, request_url key = apiUrl ++ "?fileKey=" ++ q /\
    forallb query_safe (String.list_ascii_of_string q) = true /\
    uri_decode q = Some key.
Proof. exists (encode_uri_component key). split; [done |]. apply encode_uri_component_spec. Qed.

(** C17: Building [{vendor, total}] from the parsed body throws (and the
    fallback is used) exactly when the body is [null] or [undefined]
    (reading [result.vendor] fails) or when ToString of [result.total]
    throws. *)
Theorem details_of_result_fails v :
  details_of_result v = None <->
  v = JUndefined \/ v = JNull \/ (exists t, get_prop v "total" = Some t /\ to_str t = None).
Proof.
  unfold details_of_result, parse_float.
  destruct v as [| | b | n | s | l | props]; simpl.
  3-6: split; [discriminate | intros [?|[?|(t & [= <-] & Ht)]]; discriminate].
  - split; [by left | done].
  - split; [by right; left | done].
  - split.
    + intros H. right; right. eexists; split; [done |].
      by destruct (to_str (default JUndefined (lookup_prop "total" props))).
    + intros [?|[?|(t & [= <-] & Ht)]]; [discriminate | discriminate |]. by rewrite Ht.
Qed.
