(* ===== verification/ChartLib.v ===== *)
(** * The chart library as the script uses it

    updateChart (src/script.js, lines 76-78) talks to Chart.js through
    two calls: [chart.destroy()] on the current chart and
    [new Chart(ctx, cfg)], which throws when the canvas still holds a
    live chart.  [ChartLib] states these operations on an abstract state
    of the canvas, and [ChartLibLaws] what the library promises about
    them; [redraw] is the script's code written against them.  The
    theorem [redraw_single] is proved from the laws alone: if the only
    live chart is the current one, the redraw never throws and leaves
    exactly one live chart, the new one.  Render.v gives the instance of
    the canvas model used by the page and discharges the laws. *)

From S2P Require Import Prelude Binary64 JsValue Receipt.

(** ** The configuration object of [new Chart] (lines 78-102) *)

Record dataset := mk_dataset {
  ds_label : string;
  ds_data : list number;
  ds_background : list string;
  ds_border : list string;
  ds_border_width : Z
}.

Record chart_config := mk_config {
  cfg_type : string;
  cfg_labels : list jsval;
  cfg_datasets : list dataset
}.

(** ** The interface *)

Class ChartLib (C Cfg : Type) := {
  chart_lib_new : C -> Cfg -> option (C * nat);    (** [new Chart(ctx, cfg)] *)
  chart_lib_destroy : C -> nat -> C;               (** [chart.destroy()] *)
  chart_lib_live : C -> nat -> bool;               (** chart [i] is drawn and not destroyed *)
  chart_lib_config : C -> nat -> option Cfg        (** the configuration chart [i] was made with *)
}.

Class ChartLibLaws (C Cfg : Type) `{!ChartLib C Cfg} := {
  chart_lib_new_fails c cfg :
    chart_lib_new c cfg = None <-> exists i, chart_lib_live c i = true;
  chart_lib_new_live c cfg c' i j :
    chart_lib_new c cfg = Some (c', i) ->
    chart_lib_live c' j = if decide (j = i) then true else chart_lib_live c j;
  chart_lib_new_config c cfg c' i :
    chart_lib_new c cfg = Some (c', i) -> chart_lib_config c' i = Some cfg;
  chart_lib_destroy_live c i j :
    chart_lib_live (chart_lib_destroy c i) j = if decide (j = i) then false else chart_lib_live c j
}.

(** ** The client: lines 76-78 *)

Section Redraw.
Context {C Cfg : Type} `{ChartLibLaws C Cfg}.

(** [if (chart) chart.destroy(); chart = new Chart(ctx, cfg);]: the new
    canvas state, the new value of [chart] and the exception, if any
    ([chart] keeps its value when [new Chart] throws). *)
Definition redraw (cur : option nat) (c : C) (cfg : Cfg) : C * option nat * option error :=
  let c1 := match cur with Some i => chart_lib_destroy c i | None => c end in
  match chart_lib_new c1 cfg with
  | Some (c2, i) => (c2, Some i, None)
  | None => (c1, cur, Some CanvasInUse)
  end.

(** Every live chart is the current one. *)
Definition single_live (cur : option nat) (c : C) : Prop :=
  forall j, chart_lib_live c j = true -> cur = Some j.

Lemma redraw_destroyed_none cur c :
  single_live cur c ->
  forall j, chart_lib_live (match cur with Some i => chart_lib_destroy c i | None => c end) j = false.
Proof.
  intros Hs j. destruct cur as [i|].
  - rewrite chart_lib_destroy_live. case_decide; [done |].
    destruct (chart_lib_live c j) eqn:Hl; [| done]. specialize (Hs j Hl). congruence.
  - destruct (chart_lib_live c j) eqn:Hl; [| done]. specialize (Hs j Hl). discriminate.
Qed.

(** Against any library that keeps its contract: when every live chart
    is the current one, the redraw throws nothing and leaves exactly one
    live chart, the new current one, made with [cfg]. *)
Lemma redraw_single cur c cfg :
  single_live cur c ->
  let '(c', cur', err) := redraw cur c cfg in
  err = None /\ single_live cur' c' /\
  exists i, cur' = Some i /\ chart_lib_live c' i = true /\ chart_lib_config c' i = Some cfg.
Proof.
  intros Hs. pose proof (redraw_destroyed_none cur c Hs) as Hno. unfold redraw.
  set (c1 := match cur with Some i => chart_lib_destroy c i | None => c end) in *.
  destruct (chart_lib_new c1 cfg) as [[c2 i]|] eqn:Hn.
  - split_and!; [done | |].
    2: { exists i. split_and!; [done | | by eapply chart_lib_new_config].
         rewrite (chart_lib_new_live _ _ _ _ i Hn). by case_decide. }
    intros j Hj. rewrite (chart_lib_new_live _ _ _ _ j Hn), Hno in Hj. case_decide; congruence.
  - apply chart_lib_new_fails in Hn as [j Hj]. by rewrite Hno in Hj.
Qed.
End Redraw.

(** ** The canvas model of Chart.js *)

Record chart_instance := mk_chart { ch_config : chart_config; ch_live : bool }.

(** [new Chart(ctx, cfg)]: a new live chart, numbered by construction
    order; fails when the canvas still holds a live chart. *)
Definition chart_new (cs : list chart_instance) (cfg : chart_config)
    : option (list chart_instance * nat) :=
  if existsb ch_live cs then None else Some ((cs ++ [mk_chart cfg true])%list, length cs).

(** [chart.destroy()] *)
Definition chart_destroy (cs : list chart_instance) (i : nat) : list chart_instance :=
  alter (fun c => mk_chart (ch_config c) false) i cs.

(** The canvas model is an instance of the interface. *)
Definition canvas_live (cs : list chart_instance) (i : nat) : bool :=
  match cs !! i with Some c => ch_live c | None => false end.

#[export] Instance canvas_chart_lib : ChartLib (list chart_instance) chart_config := {
  chart_lib_new := chart_new;
  chart_lib_destroy := chart_destroy;
  chart_lib_live := canvas_live;
  chart_lib_config cs i := ch_config <$> cs !! i
}.

(** The canvas model keeps the contract of Chart.js. *)
#[export] Instance canvas_chart_lib_laws : ChartLibLaws (list chart_instance) chart_config.
Proof.
  split; simpl.
  - intros cs cfg. unfold chart_new, canvas_live. split.
    + case_match eqn:He; [| discriminate]. intros _.
      apply existsb_exists in He as (c & Hin & Hl).
      apply list_elem_of_In, list_elem_of_lookup in Hin as [i Hi]. exists i. by rewrite Hi.
    + intros [i Hi]. destruct (cs !! i) as [c|] eqn:Hc; [| discriminate].
      replace (existsb ch_live cs) with true; [done |]. symmetry. apply existsb_exists.
      exists c. split; [apply list_elem_of_In; by eapply list_elem_of_lookup_2 | done].
  - intros cs cfg cs' i j. unfold chart_new, canvas_live.
    case_match; [discriminate |]. intros [= <- <-].
    case_decide as Hj.
    + subst j. by rewrite list_lookup_middle.
    + destruct (decide (j < length cs)) as [Hlt|Hge].
      * by rewrite lookup_app_l.
      * rewrite lookup_app_r by lia. rewrite (lookup_ge_None_2 cs j) by lia.
        destruct (j - length cs) as [|k] eqn:E; [lia | done].
  - intros cs cfg cs' i. unfold chart_new. case_match; [discriminate |]. intros [= <- <-].
    by rewrite list_lookup_middle.
  - intros cs i j. unfold chart_destroy, canvas_live. case_decide as Hj.
    + subst j. rewrite list_lookup_alter. destruct (cs !! i); simpl; destruct (decide (i = i)); first [reflexivity | congruence].
    + by rewrite list_lookup_alter_ne by congruence.
Qed.


(** ** The claim *)

(** C31: The chart handling of updateChart (lines 76-78), run against
    any chart library that keeps the contract of Chart.js: when every
    live chart on the canvas is the one [chart] refers to, destroying it
    and calling [new Chart] throws nothing, and afterwards exactly one
    chart is live, the new current one, made with the new
    configuration.  The canvas model above keeps the contract. *)
Theorem redraw_keeps_single_chart {C Cfg : Type} `{ChartLibLaws C Cfg} cur (c : C) (cfg : Cfg) :
  single_live cur c ->
  let '(c', cur', err) := redraw cur c cfg in
  err = None /\ single_live cur' c' /\
  exists i, cur' = Some i /\ chart_lib_live c' i = true /\ chart_lib_config c' i = Some cfg.
Proof. exact (redraw_single cur c cfg). Qed.

Definition empty_pie : chart_config := mk_config "pie" [] [].
Definition acme_pie : chart_config := mk_config "pie" [JStr "ACME"] [].

Lemma redraw_keeps_single_chart_witness :
  single_live (Some 0) [mk_chart empty_pie true] /\
  let '(c', cur', err) := redraw (Some 0) [mk_chart empty_pie true] acme_pie in
  err = None /\ single_live cur' c' /\
  exists i, cur' = Some i /\ chart_lib_live c' i = true /\ chart_lib_config c' i = Some acme_pie.
Proof.
  assert (H : single_live (Some 0) [mk_chart empty_pie true]) by (intros [|j] Hj; [reflexivity | discriminate Hj]).
  split; [exact H | exact (redraw_keeps_single_chart (Some 0) [mk_chart empty_pie true] acme_pie H)].
Defined.
