(* ===== verification/Render.v ===== *)
(** * The page: the data array, the table and the chart

    The page state of src/script.js is the array [data] (line 12), the
    rows of [#expenseTable tbody] (line 8) and the chart instances drawn
    on the canvas [#expenseChart] (lines 9-10).  [updateTable] (lines
    59-69) replaces the rows by one row per entry; [updateChart] (lines
    72-103) destroys the current chart and draws a new pie chart of the
    entries.  Rows are kept as the markup the script assigns to
    [row.innerHTML]; charts as their configuration and whether they are
    still live.

    The chart library is Chart.js, outside the repository; its interface
    and canvas model are in ChartLib.v.  [updateChart] is shown equal to
    the interface's [redraw] on the canvas model, so its single-chart
    lemma follows from the laws of the interface. *)

From S2P Require Import Prelude Binary64 NumberFormat NumberParse JsValue Receipt ChartLib.

#[local] Open Scope string_scope.

(** ** Entries *)

(** An element of [data]: [{ vendor, price }] (line 29). *)
Record entry := mk_entry { vendor : jsval; price : number }.

(** ** updateTable *)

Definition nl : string := String "010"%char "".

(** The template literal of lines 63-66, with [entry.vendor] through
    ToString (which can throw) and the price through [toFixed(2)]. *)
Definition row_markup (e : entry) : option string :=
  v ← to_str (vendor e);
  Some (nl ++ str_repeat " " 12 ++ "<td>" ++ v ++ "</td>" ++
        nl ++ str_repeat " " 12 ++ "<td>" ++ to_fixed (price e) 2 ++ "</td>" ++
        nl ++ str_repeat " " 8).

(** The [forEach] of lines 61-68 on an emptied body: the rows appended
    before the first entry whose markup throws, and the error. *)
Fixpoint table_rows (data : list entry) : list string * option error :=
  match data with
  | [] => ([], None)
  | e :: data' =>
      match row_markup e with
      | Some m => let '(rows, err) := table_rows data' in (m :: rows, err)
      | None => ([], Some TypeError)
      end
  end.

(** ** Chart configuration (lines 78-102) *)

Definition background_colors : list string :=
  ["rgba(255, 99, 132, 0.2)"; "rgba(54, 162, 235, 0.2)"; "rgba(255, 206, 86, 0.2)";
   "rgba(75, 192, 192, 0.2)"; "rgba(153, 102, 255, 0.2)"].

Definition border_colors : list string :=
  ["rgba(255, 99, 132, 1)"; "rgba(54, 162, 235, 1)"; "rgba(255, 206, 86, 1)";
   "rgba(75, 192, 192, 1)"; "rgba(153, 102, 255, 1)"].

Definition pie_config (labels : list jsval) (values : list number) : chart_config :=
  mk_config "pie" labels
    [mk_dataset "Expenses" values background_colors border_colors 1].

(** ** The page state *)

Record ui := mk_ui {
  data : list entry;                 (** [const data = []] *)
  tbody : list string;               (** the rows of the table body *)
  charts : list chart_instance;      (** every chart drawn on the canvas *)
  chart : option nat                 (** [let chart], the current one *)
}.

Definition ui_init : ui := mk_ui [] [] [] None.

(** [updateTable()]: the body is emptied, then filled by [forEach]. *)
Definition updateTable (u : ui) : ui * option error :=
  let '(rows, err) := table_rows (data u) in
  (mk_ui (data u) rows (charts u) (chart u), err).

(** [if (chart) chart.destroy();] (line 76) *)
Definition destroy_current (u : ui) : list chart_instance :=
  match chart u with
  | Some i => chart_destroy (charts u) i
  | None => charts u
  end.

(** [updateChart()]: destroy the current chart, if any, then assign a
    new one; when [new Chart] throws, [chart] keeps its old value. *)
Definition updateChart (u : ui) : ui * option error :=
  let labels := map vendor (data u) in
  let values := map price (data u) in
  let cs := destroy_current u in
  match chart_new cs (pie_config labels values) with
  | Some (cs', i) => (mk_ui (data u) (tbody u) cs' (Some i), None)
  | None => (mk_ui (data u) (tbody u) cs (chart u), Some CanvasInUse)
  end.

(** ** The chart: one live chart, the current one *)

(** Every live chart on the canvas is the one [chart] refers to. *)
Definition chart_inv (u : ui) : Prop :=
  forall i c, charts u !! i = Some c -> ch_live c = true -> chart u = Some i.

(** The page's invariant is the interface's: the only live chart is the
    current one. *)
Lemma chart_inv_single_live u : chart_inv u <-> single_live (chart u) (charts u).
Proof.
  unfold chart_inv, single_live. simpl. unfold canvas_live. split.
  - intros H j Hj. destruct (charts u !! j) as [c|] eqn:Hc; [| discriminate]. exact (H j c Hc Hj).
  - intros H i c Hc Hl. apply H. by rewrite Hc.
Qed.

(** updateChart is the interface's [redraw] on the canvas model, with
    the pie configuration of [data]. *)
Lemma updateChart_redraw u :
  updateChart u =
  let '(cs', cur', err) := redraw (chart u) (charts u) (pie_config (map vendor (data u)) (map price (data u))) in
  (mk_ui (data u) (tbody u) cs' cur', err).
Proof.
  unfold updateChart, redraw, destroy_current. simpl.
  destruct (chart u); destruct (chart_new _ _) as [[]|]; reflexivity.
Qed.

(** [updateChart()] on a page whose live chart is the current one. *)
Lemma updateChart_spec u :
  chart_inv u ->
  let '(u', err) := updateChart u in
  err = None /\ chart_inv u' /\ data u' = data u /\ tbody u' = tbody u /\
  exists i, chart u' = Some i /\
    charts u' !! i = Some (mk_chart (pie_config (map vendor (data u)) (map price (data u))) true).
Proof.
  intros Hinv. apply chart_inv_single_live in Hinv.
  pose proof (redraw_single (chart u) (charts u) (pie_config (map vendor (data u)) (map price (data u))) Hinv) as Hr.
  rewrite updateChart_redraw. destruct (redraw _ _ _) as [[cs' cur'] err].
  destruct Hr as (-> & Hs & i & -> & Hl & Hc). simpl.
  split_and!; [done | by apply chart_inv_single_live | done | done |].
  exists i. split; [done |]. simpl in Hl, Hc. unfold canvas_live in Hl.
  destruct (cs' !! i) as [[cfg live]|]; simplify_eq/=. done.
Qed.

(** C7: After [updateChart()] on a page whose live chart is the current
    one, no error is thrown ([new Chart] never finds the canvas in use),
    the table and the data are untouched, and exactly one chart is live:
    the new current one, a pie chart of the vendors and prices of the
    data in order. *)
Theorem updateChart_single_chart u :
  chart_inv u ->
  let '(u', err) := updateChart u in
  err = None /\ chart_inv u' /\ data u' = data u /\ tbody u' = tbody u /\
  exists i, chart u' = Some i /\
    charts u' !! i = Some (mk_chart (pie_config (map vendor (data u)) (map price (data u))) true).
Proof. exact (updateChart_spec u). Qed.

(** ** The table *)

(** An entry whose vendor ToString does not throw. *)
Definition printable (e : entry) : Prop := is_Some (to_str (vendor e)).

(** The boolean test of [Forall printable], for computed lists. *)
Definition printable_b (e : entry) : bool :=
  match to_str (vendor e) with Some _ => true | None => false end.

Lemma forallb_printable (d : list entry) :
  forallb printable_b d = true <-> Forall printable d.
Proof.
  induction d as [|e d IH]; simpl; [split; constructor |].
  rewrite andb_true_iff, IH, Forall_cons. unfold printable_b, printable.
  destruct (to_str (vendor e)); simpl; split; intros [H1 H2]; try done.
Qed.

Lemma row_markup_printable e : printable e -> exists m, row_markup e = Some m.
Proof. intros [s Hs]. unfold row_markup. rewrite Hs. by eexists. Qed.

(** C13: When every vendor prints, [updateTable] builds exactly one row per
    entry, in the order of [data], each the template of its entry, and
    throws nothing. *)
Theorem table_rows_printable (d : list entry) :
  Forall printable d ->
  exists rows, table_rows d = (rows, None) /\ Forall2 (fun e m => row_markup e = Some m) d rows.
Proof.
  induction 1 as [|e d He _ IH]; [by exists [] |].
  destruct IH as (rows & Hrows & Hall). destruct (row_markup_printable e He) as [m Hm].
  exists (m :: rows). simpl. rewrite Hm, Hrows. auto.
Qed.

(** C14: One entry whose vendor does not print (an object with an own
    [toString] key) stops [updateTable]: it throws a TypeError and the
    table keeps only the rows of the entries before it. *)
Theorem table_rows_stuck (pre : list entry) bad (post : list entry) :
  Forall printable pre -> to_str (vendor bad) = None ->
  exists rows, table_rows (pre ++ bad :: post) = (rows, Some TypeError) /\
    length rows = length pre.
Proof.
  intros Hpre Hbad. induction Hpre as [|e pre He _ IH].
  - exists []. simpl. unfold row_markup. by rewrite Hbad.
  - destruct IH as (rows & Hrows & Hlen). destruct (row_markup_printable e He) as [m Hm].
    exists (m :: rows). simpl. rewrite Hm, Hrows. simpl. auto.
Qed.

(** The price cell of a row whose vendor prints. *)
Lemma row_markup_price_cell e s :
  to_str (vendor e) = Some s ->
  exists m, row_markup e = Some m /\ str_infix ("<td>" ++ to_fixed (price e) 2 ++ "</td>") m.
Proof.
  intros Hs. unfold row_markup. rewrite Hs. eexists. split; [done |].
  exists (nl ++ str_repeat " " 12 ++ "<td>" ++ s ++ "</td>" ++ nl ++ str_repeat " " 12).
  eexists. rewrite <- !str_append_assoc. reflexivity.
Qed.

(** C15: The vendor text is inserted into the row markup as it is, between
    [<td>] and [</td>]: markup in a vendor name reaches [innerHTML]
    unescaped.  The price cell is [toFixed(2)] of the price. *)
Theorem row_markup_cells e s :
  to_str (vendor e) = Some s ->
  exists m, row_markup e = Some m /\
    str_infix ("<td>" ++ s ++ "</td>") m /\
    str_infix ("<td>" ++ to_fixed (price e) 2 ++ "</td>") m.
Proof.
  intros Hs. unfold row_markup. rewrite Hs. eexists. split; [done |]. split.
  - exists (nl ++ str_repeat " " 12).
    eexists. rewrite <- !str_append_assoc. reflexivity.
  - exists (nl ++ str_repeat " " 12 ++ "<td>" ++ s ++ "</td>" ++ nl ++ str_repeat " " 12).
    eexists. rewrite <- !str_append_assoc. reflexivity.
Qed.

(** ** Frame lemmas *)

Lemma updateTable_data u : data (updateTable u).1 = data u.
Proof. unfold updateTable. by destruct (table_rows (data u)). Qed.

Lemma updateChart_data u : data (updateChart u).1 = data u.
Proof. unfold updateChart. by repeat case_match. Qed.

#[export] Hint Rewrite updateTable_data updateChart_data : expense_rw.

(** [table_rows] either renders every entry or stops at an unprintable one. *)
Lemma table_rows_cases (d : list entry) :
  (exists rows, table_rows d = (rows, None) /\ Forall printable d /\ length rows = length d)
  \/ (exists rows, table_rows d = (rows, Some TypeError) /\ ~ Forall printable d /\
        length rows < length d).
Proof.
  induction d as [|e d IH]; simpl; [left; by exists [] |].
  destruct (row_markup e) as [m|] eqn:Hm.
  - assert (printable e) as He.
    { unfold row_markup in Hm. unfold printable. by destruct (to_str (vendor e)). }
    destruct IH as [(rows & -> & Hp & Hl) | (rows & -> & Hp & Hl)].
    + left. exists (m :: rows). simpl. auto.
    + right. exists (m :: rows). split_and!; [done | | simpl; lia].
      intros Hall. apply Hp. by inversion Hall.
  - right. exists []. split_and!; [done | | simpl; lia].
    intros Hall. inversion Hall as [|? ? [s Hs]]; subst. unfold row_markup in Hm.
    by rewrite Hs in Hm.
Qed.

(** ** Witnesses *)

Definition entry_acme : entry := mk_entry (JStr "ACME") (parse_float_str "12.3").
Definition entry_bad : entry := mk_entry (JObj [("toString", JNum PosZero)]) PosZero.
Definition ui_acme : ui := mk_ui [entry_acme] [] [] None.

Lemma updateChart_single_chart_witness :
  chart_inv ui_acme /\
  let '(u', err) := updateChart ui_acme in
  err = None /\ chart_inv u' /\ data u' = data ui_acme /\ tbody u' = tbody ui_acme /\
  exists i, chart u' = Some i /\
    charts u' !! i = Some (mk_chart (pie_config (map vendor (data ui_acme)) (map price (data ui_acme))) true).
Proof.
  assert (chart_inv ui_acme) as H by (intros i c Hc; simpl in Hc; by rewrite lookup_nil in Hc).
  split; [exact H | apply updateChart_single_chart; exact H].
Defined.

Lemma table_rows_printable_witness :
  Forall printable [entry_acme; entry_acme] /\
  exists rows, table_rows [entry_acme; entry_acme] = (rows, None) /\
    Forall2 (fun e m => row_markup e = Some m) [entry_acme; entry_acme] rows.
Proof.
  assert (Forall printable [entry_acme; entry_acme]) as H by (repeat constructor; by eexists).
  split; [exact H | apply table_rows_printable; exact H].
Defined.

Lemma table_rows_stuck_witness :
  Forall printable [entry_acme] /\ to_str (vendor entry_bad) = None /\
  exists rows, table_rows ([entry_acme] ++ entry_bad :: [entry_acme])%list = (rows, Some TypeError) /\
    length rows = length [entry_acme].
Proof.
  assert (Forall printable [entry_acme]) as H by (repeat constructor; by eexists).
  split_and!; [exact H | reflexivity |].
  apply table_rows_stuck; [exact H | reflexivity].
Defined.

Lemma row_markup_cells_witness :
  to_str (vendor entry_acme) = Some "ACME" /\
  exists m, row_markup entry_acme = Some m /\
    str_infix ("<td>" ++ "ACME" ++ "</td>") m /\
    str_infix ("<td>" ++ to_fixed (price entry_acme) 2 ++ "</td>") m.
Proof. split; [reflexivity | apply row_markup_cells; reflexivity]. Defined.
