(* ===== verification/PriceCell.v ===== *)
(** * The price cell of a row

    Line 65 of src/script.js prints [entry.price.toFixed(2)] into the
    second cell of each row; the specification (4.2) says the price is
    "fixed to two decimal places".  This file shows that this holds for
    every price whose magnitude is below [10^21]: the cell is an
    optional minus sign, a nonempty run of digits, a point and exactly
    two digits.  At [10^21] and above, ECMA-262's [toFixed] returns
    [Number::toString] of the number instead, which prints exponential
    notation ([to_fixed_exponential]). *)

From S2P Require Import Prelude Binary64 NumberFormat NumberParse Rounding LiteralSpec Shortest ReadBack JsValue Receipt ChartLib Render.
From Stdlib Require Import DecimalPos.

#[local] Open Scope string_scope.
#[local] Open Scope Z_scope.

(** A number [toFixed] prints in fixed notation: zero, or finite with a
    magnitude below [10^21]. *)
Definition below_1e21 (x : number) : bool :=
  match x with
  | S754_zero _ => true
  | S754_finite _ m e => let '(num, den) := ratio m e in num <? 10 ^ 21 * den
  | _ => false
  end.

(** [fixed_digits n 2]: digits, a point and two digits. *)
Lemma fixed_digits_two n :
  exists ip fp, fixed_digits n 2 = ip ++ "." ++ fp /\ ip <> "" /\ all_digits ip = true /\
    String.length fp = 2%nat /\ all_digits fp = true.
Proof.
  destruct (digits_of_Z_digits n) as [Hd Hne]. unfold fixed_digits.
  set (m := digits_of_Z n) in *.
  assert (Hk : (1 <= String.length m)%nat) by (destruct m; [done | simpl; lia]).
  destruct (Nat.leb_spec (String.length m) 2) as [Hle|Hgt].
  - set (m' := str_repeat "0"%char (2 + 1 - String.length m) ++ m).
    assert (Hm' : all_digits m' = true) by (unfold m'; by rewrite all_digits_app, all_digits_repeat_0, Hd).
    assert (Hl' : String.length m' = 3%nat) by (unfold m'; rewrite str_length_append, str_length_repeat; lia).
    exists (String.substring 0 1 m'), (String.substring 1 2 m').
    split_and!; [reflexivity | | by apply substring_all_digits | apply substring_length; lia | by apply substring_all_digits].
    intros E. pose proof (substring_length 0 1 m' ltac:(lia)) as L. rewrite E in L. discriminate.
  - exists (String.substring 0 (String.length m - 2) m), (String.substring (String.length m - 2) 2 m).
    split_and!; [reflexivity | | by apply substring_all_digits | apply substring_length; lia | by apply substring_all_digits].
    intros E. pose proof (substring_length 0 (String.length m - 2) m ltac:(lia)) as L. rewrite E in L. simpl in L. lia.
Qed.

(** [toFixed(2)] of a number below [10^21] in magnitude. *)
Lemma to_fixed_two_decimals x :
  below_1e21 x = true ->
  exists sign ip fp, to_fixed x 2 = sign ++ ip ++ "." ++ fp /\ (sign = "" \/ sign = "-") /\
    ip <> "" /\ all_digits ip = true /\ String.length fp = 2%nat /\ all_digits fp = true.
Proof.
  destruct x as [neg| neg | | neg m e]; intros Hb; try discriminate Hb.
  - exists "", "0", "00". split_and!; [reflexivity | by left | discriminate | reflexivity | reflexivity | reflexivity].
  - unfold below_1e21 in Hb. unfold to_fixed. destruct (ratio m e) as [num den]. apply Z.ltb_lt in Hb.
    destruct (Z.leb_spec (10 ^ 21 * den) num) as [Hge|_]; [lia |].
    destruct (fixed_digits_two (fixed_n num den 2)) as (ip & fp & Hf & H).
    exists (if neg then "-" else ""), ip, fp. rewrite Hf. split; [done |].
    split; [destruct neg; auto | exact H].
Qed.

(** ** Claims *)

(** C35: The price cell of a row whose vendor prints holds, between
    [<td>] and [</td>], an optional minus sign, a nonempty run of
    digits, a point and exactly two digits, for every price of
    magnitude below [10^21]: "fixed to two decimal places". *)
Theorem price_cell_two_decimals en s :
  to_str (vendor en) = Some s -> below_1e21 (price en) = true ->
  exists m sign ip fp, row_markup en = Some m /\
    str_infix ("<td>" ++ sign ++ ip ++ "." ++ fp ++ "</td>") m /\
    (sign = "" \/ sign = "-") /\ ip <> "" /\ all_digits ip = true /\
    String.length fp = 2%nat /\ all_digits fp = true.
Proof.
  intros Hs Hb. destruct (row_markup_price_cell en s Hs) as (m & Hm & Hin).
  destruct (to_fixed_two_decimals _ Hb) as (sign & ip & fp & Hf & H).
  exists m, sign, ip, fp. rewrite Hf in Hin. rewrite !str_append_assoc in Hin |- *. auto.
Qed.

Lemma price_cell_two_decimals_witness :
  to_str (vendor (mk_entry (JStr "ACME") (parse_float_str "-0.5"))) = Some "ACME" /\
  below_1e21 (price (mk_entry (JStr "ACME") (parse_float_str "-0.5"))) = true /\
  exists m sign ip fp, row_markup (mk_entry (JStr "ACME") (parse_float_str "-0.5")) = Some m /\
    str_infix ("<td>" ++ sign ++ ip ++ "." ++ fp ++ "</td>") m /\
    (sign = "" \/ sign = "-") /\ ip <> "" /\ all_digits ip = true /\
    String.length fp = 2%nat /\ all_digits fp = true.
Proof.
  split_and!; [reflexivity | vm_compute; reflexivity |].
  apply (price_cell_two_decimals _ "ACME"); [reflexivity | vm_compute; reflexivity].
Defined.

(** At [10^21] the cell is not in fixed notation: [toFixed(2)] of
    [1e21] is ["1e+21"]. *)
Lemma to_fixed_exponential : to_fixed (parse_float_str "1e21") 2 = "1e+21".
Proof. vm_compute. reflexivity. Qed.
