(* ===== verification/Pipeline.v ===== *)
(** * addEntry (src/script.js, lines 15-35): one upload pipeline

    A call [addEntry(file)] derives the key [receipts/${file.name}] and
    starts [Storage.put] (lines 18-21); it then waits for the upload, for
    [fetch] and [response.json()] inside fetchReceiptDetails, and for
    fetchReceiptDetails itself to settle, before it pushes the entry and
    redraws the table and the chart (lines 29-31).  Other handlers and
    other pipelines run while it waits, so a call is a [task]: the await
    it is suspended at, and [task_step] runs the segment that follows an
    await once the environment settles it ([settle]).  Everything a
    segment changes is in the [world]: the page, the object store, the
    console and the list of requested URLs.

    A call receives whatever the caller passes as [file]: a [File] from
    a file list, or, as the event handlers of the script do, the string
    of a fake vendor name ([entry_arg]). *)

From S2P Require Import Prelude Binary64 NumberFormat NumberParse Rounding JsValue Receipt ChartLib Render.

#[local] Open Scope string_scope.

(** ** Arguments and stored objects *)

(** A [File] of a file list: its [name], its MIME [type] and its bytes. *)
Record file := mk_file { f_name : string; f_type : string; f_content : string }.

(** The value bound to the parameter [file]. *)
Inductive entry_arg :=
  | ArgFile (f : file)
  | ArgStr (s : string).

(** [file.name] and [file.type]: a string primitive has neither. *)
Definition arg_name (a : entry_arg) : jsval :=
  match a with ArgFile f => JStr (f_name f) | ArgStr _ => JUndefined end.

Definition arg_type (a : entry_arg) : jsval :=
  match a with ArgFile f => JStr (f_type f) | ArgStr _ => JUndefined end.

(** [`receipts/${file.name}`] (line 18). *)
Definition file_key (a : entry_arg) : option string :=
  s ← to_str (arg_name a); Some ("receipts/" ++ s).

(** What [Storage.put(fileKey, file, { contentType: file.type })] stores. *)
Record stored := mk_stored { st_body : entry_arg; st_content_type : jsval }.

(** ** The world a pipeline acts on *)

Record world := mk_world {
  w_ui : ui;
  w_store : gmap string stored;    (** the bucket behind [Storage] *)
  w_console : list log_entry;
  w_requests : list string         (** the URLs passed to [fetch] *)
}.

Definition log (w : world) (l : list log_entry) : world :=
  mk_world (w_ui w) (w_store w) (w_console w ++ l) (w_requests w).

(** ** Suspended calls *)

Inductive task :=
  | AwaitPut (key : string) (obj : stored)   (** [await Storage.put(...)], line 19 *)
  | AwaitFetch (key : string)                (** [await fetch(...)], line 42 *)
  | AwaitJson (key : string)                 (** [await response.json()], line 43 *)
  | AwaitDetails (d : details)               (** [await fetchReceiptDetails(...)], line 26 *)
  | Done.

(** How the environment settles the pending await. *)
Inductive settle :=
  | PutResolved | PutRejected
  | FetchResolved | FetchRejected
  | JsonResolved (v : jsval) | JsonRejected
  | Resume.

(** ** Segments *)

(** The synchronous start of [addEntry(a)]: key, then [Storage.put];
    a ToString that throws on [file.name] goes to the [catch]. *)
Definition addEntry_start (a : entry_arg) (w : world) : task * world :=
  match file_key a with
  | Some key => (AwaitPut key (mk_stored a (arg_type a)), w)
  | None => (Done, log w [ErrUpload TypeError])
  end.

(** The object pushed by line 29. *)
Definition make_entry (d : details) : entry :=
  mk_entry (js_or (d_vendor d) (JStr "Unknown Vendor")) (num_or (d_total d) (of_Z 0)).

(** Lines 29-31: push, [updateTable()], then [updateChart()] unless the
    table threw. *)
Definition push_and_render (d : details) (u : ui) : ui * option error :=
  let u1 := mk_ui (data u ++ [make_entry d])%list (tbody u) (charts u) (chart u) in
  let '(u2, err) := updateTable u1 in
  match err with
  | Some e => (u2, Some e)
  | None => updateChart u2
  end.

(** The segment run when the pending await of [t] settles as [x];
    [None] when [x] does not settle that await. *)
Definition task_step (t : task) (x : settle) (w : world) : option (task * world) :=
  match t, x with
  | AwaitPut key obj, PutResolved =>
      Some (AwaitFetch key,
            mk_world (w_ui w) (<[key := obj]> (w_store w))
                     (w_console w ++ [LogUploaded key]) (w_requests w ++ [request_url key]))
  | AwaitPut _ _, PutRejected => Some (Done, log w [ErrUpload UploadError])
  | AwaitFetch key, FetchResolved => Some (AwaitJson key, w)
  | AwaitFetch _, FetchRejected =>
      let '(d, l) := on_failure NetworkError in Some (AwaitDetails d, log w l)
  | AwaitJson _, JsonResolved v => let '(d, l) := on_json v in Some (AwaitDetails d, log w l)
  | AwaitJson _, JsonRejected =>
      let '(d, l) := on_failure JsonError in Some (AwaitDetails d, log w l)
  | AwaitDetails d, Resume =>
      let '(u, err) := push_and_render d (w_ui w) in
      Some (Done, mk_world u (w_store w)
                    (w_console w ++ match err with Some e => [ErrUpload e] | None => [] end)
                    (w_requests w))
  | _, _ => None
  end.

(** A call driven through a sequence of settlements; [None] when one of
    them does not apply. *)
Fixpoint run_task (t : task) (xs : list settle) (w : world) : option (task * world) :=
  match xs with
  | [] => Some (t, w)
  | x :: xs' => '(t', w') ← task_step t x w; run_task t' xs' w'
  end.

(** ** Frame lemmas *)

Lemma run_task_app t xs ys w :
  run_task t (xs ++ ys) w = '(t', w') ← run_task t xs w; run_task t' ys w'.
Proof.
  revert t w. induction xs as [|x xs IH]; intros t w; simpl; [done |].
  destruct (task_step t x w) as [[t1 w1]|]; simpl; [apply IH | done].
Qed.

Lemma push_and_render_data d u :
  data (push_and_render d u).1 = (data u ++ [make_entry d])%list.
Proof.
  unfold push_and_render.
  destruct (updateTable _) as [u2 err] eqn:Ht.
  pose proof (updateTable_data (mk_ui (data u ++ [make_entry d])%list (tbody u) (charts u) (chart u))) as Hd.
  rewrite Ht in Hd. simpl in Hd.
  destruct err; simpl; [done |]. by rewrite updateChart_data.
Qed.

#[export] Hint Rewrite push_and_render_data : expense_rw.

(** [task_step] cases: one goal per enabled settlement, the step
    computed. *)
Ltac task_step_cases H :=
  match type of H with
  | task_step ?t ?x _ = Some _ => destruct t, x; simpl in H; try discriminate H
  end.

(** ** Termination *)

(** How many awaits a call has still to pass. *)
Definition task_rank (t : task) : nat :=
  match t with
  | AwaitPut _ _ => 4
  | AwaitFetch _ => 3
  | AwaitJson _ => 2
  | AwaitDetails _ => 1
  | Done => 0
  end.

Lemma task_step_rank t x w t' w' :
  task_step t x w = Some (t', w') -> task_rank t' < task_rank t.
Proof.
  intros H. task_step_cases H; repeat case_match; simplify_eq/=; lia.
Qed.

Lemma run_task_rank t xs w t' w' :
  run_task t xs w = Some (t', w') -> length xs + task_rank t' <= task_rank t.
Proof.
  revert t w. induction xs as [|x xs IH]; intros t w H; simpl in H.
  - simplify_eq/=. lia.
  - destruct (task_step t x w) as [[t1 w1]|] eqn:Hs; simpl in H; [| discriminate].
    apply task_step_rank in Hs. apply IH in H. simpl. lia.
Qed.

(** The settlement that completes each await successfully. *)
Definition settle_ok (t : task) : settle :=
  match t with
  | AwaitPut _ _ => PutResolved
  | AwaitFetch _ => FetchResolved
  | AwaitJson _ => JsonResolved JNull
  | _ => Resume
  end.

(** A call of addEntry terminates: it passes at most four awaits
    (upload, fetch, json, fetchReceiptDetails), any sequence of
    settlements it accepts is no longer than the awaits it has left, and
    from every state, whatever the page, some sequence of exactly that
    many settlements brings it to its end. *)
Lemma addEntry_terminates t w :
  task_rank t <= 4 /\
  (forall xs t' w', run_task t xs w = Some (t', w') -> length xs <= task_rank t) /\
  exists xs w', length xs = task_rank t /\ run_task t xs w = Some (Done, w').
Proof.
  split; [destruct t; simpl; lia |]. split.
  { intros xs t' w' H. apply run_task_rank in H. lia. }
  remember (task_rank t) as n eqn:Hn. revert t w Hn.
  induction n as [|n IH]; intros t w Hn.
  - destruct t; simpl in Hn; try discriminate. by exists [], w.
  - destruct (task_step t (settle_ok t) w) as [[t1 w1]|] eqn:Hs.
    + pose proof Hs as Hr. apply task_step_rank in Hr.
      assert (task_rank t1 = n) as Hn1.
      { task_step_cases Hs; repeat case_match; simplify_eq/=; lia. }
      destruct (IH t1 w1 (eq_sym Hn1)) as (xs & w' & Hlen & Hrun).
      exists (settle_ok t :: xs), w'. simpl. rewrite Hs. simpl. auto.
    + destruct t; simpl in Hn, Hs; try discriminate; repeat case_match; discriminate.
Qed.

(** ** What a call does *)

(** Peel one settlement off [run_task] in hypothesis [H]. *)
Ltac run_task_step H :=
  let x := fresh "x" in
  let xs := fresh "xs" in
  match type of H with
  | run_task _ ?l _ = Some _ =>
      destruct l as [|x xs]; simpl in H; [simplify_eq/= | destruct x; simpl in H; try discriminate H]
  end.

Lemma run_task_done xs w t' w' :
  run_task Done xs w = Some (t', w') -> xs = [] /\ t' = Done /\ w' = w.
Proof. intros H. run_task_step H. done. Qed.

(** The last segment: [Resume] appends [make_entry d] and leaves the
    bucket and the requests alone. *)
Lemma run_resume_done d xs w w' :
  run_task (AwaitDetails d) xs w = Some (Done, w') ->
  data (w_ui w') = (data (w_ui w) ++ [make_entry d])%list /\
  w_store w' = w_store w /\ w_requests w' = w_requests w.
Proof.
  intros H. run_task_step H.
  destruct (push_and_render d (w_ui w)) as [u e] eqn:Hp.
  apply run_task_done in H as (_ & _ & ->). simpl.
  pose proof (push_and_render_data d (w_ui w)) as Hd. rewrite Hp in Hd. auto.
Qed.

(** C3: A call of addEntry that runs to its end either had its upload
    rejected, and then appended nothing, stored nothing and requested
    nothing, or stored the object under its key, requested the details
    of that key once, and appended exactly one entry, built from the
    fallback [{Unknown, 0}] or from the JSON body the API returned. *)
Theorem addEntry_outcome key obj xs w w' :
  run_task (AwaitPut key obj) xs w = Some (Done, w') ->
  (xs = [PutRejected] /\ data (w_ui w') = data (w_ui w) /\
     w_store w' = w_store w /\ w_requests w' = w_requests w)
  \/ (exists d, data (w_ui w') = (data (w_ui w) ++ [make_entry d])%list /\
        w_store w' = <[key := obj]> (w_store w) /\
        w_requests w' = (w_requests w ++ [request_url key])%list /\
        (d = fallback_details \/ exists v, d = (on_json v).1)).
Proof.
  intros H. run_task_step H; [right | left; by apply run_task_done in H as (-> & _ & ->)].
  run_task_step H; [run_task_step H |].
  - destruct (on_json v) as [d l] eqn:Hj. apply run_resume_done in H as (? & -> & ->).
    exists d. split_and!; try done. right. exists v. by rewrite Hj.
  - apply run_resume_done in H as (? & -> & ->). exists fallback_details. auto.
  - apply run_resume_done in H as (? & -> & ->). exists fallback_details. auto.
Qed.

(** ** The pushed entry *)

(** C9: The price of a pushed entry is [total || 0]: the parsed total
    when it is truthy, +0 otherwise; it is never NaN and never -0. *)
Theorem make_entry_price d :
  price (make_entry d) = (if num_truthy (d_total d) then d_total d else PosZero) /\
  price (make_entry d) <> NaN /\ price (make_entry d) <> NegZero.
Proof.
  unfold make_entry, num_or. simpl.
  destruct (d_total d) as [[]|[]| |[]] eqn:Ht; simpl; split_and!; done.
Qed.

(** The vendor of a pushed entry is [vendor || 'Unknown Vendor']: the
    API's vendor when it is truthy, the string "Unknown Vendor"
    otherwise; it is always truthy. *)
Lemma make_entry_vendor d :
  vendor (make_entry d) = (if truthy (d_vendor d) then d_vendor d else JStr "Unknown Vendor") /\
  truthy (vendor (make_entry d)) = true.
Proof.
  unfold make_entry, js_or. simpl.
  destruct (truthy (d_vendor d)) eqn:Hv; split; done.
Qed.

(** C8: When fetching the details fails (the request is rejected, the
    body is not JSON, or reading [vendor]/[total] of the body throws),
    the call still completes and appends the entry [{Unknown, 0}]. *)
Theorem fetch_failure_unknown key w pre :
  pre = [FetchRejected] \/ pre = [FetchResolved; JsonRejected] \/
  (exists v, pre = [FetchResolved; JsonResolved v] /\ details_of_result v = None) ->
  exists w', run_task (AwaitFetch key) (pre ++ [Resume])%list w = Some (Done, w') /\
    data (w_ui w') = (data (w_ui w) ++ [mk_entry (JStr "Unknown") PosZero])%list.
Proof.
  intros Hpre.
  assert (exists w1 l, run_task (AwaitFetch key) pre w = Some (AwaitDetails fallback_details, w1) /\
                       w1 = log w l) as (w1 & l & Hrun & ->).
  { destruct Hpre as [-> | [-> | (v & -> & Hv)]]; simpl; eauto.
    unfold on_json. rewrite Hv. simpl. eauto. }
  destruct (push_and_render fallback_details (w_ui w)) as [u e] eqn:Hp.
  eexists. split.
  - rewrite run_task_app, Hrun. simpl. rewrite Hp. reflexivity.
  - simpl. pose proof (push_and_render_data fallback_details (w_ui w)) as Hd.
    rewrite Hp in Hd. exact Hd.
Qed.

(** ** The page invariant *)

(** The chart invariant; when every vendor prints, the table is the
    rendering of [data] and the current chart (if any, and there is one
    as soon as [data] is nonempty) is the live pie chart of [data]; when
    some vendor does not print, the table and the current chart show
    fewer entries than [data] holds. *)
Definition ui_inv (u : ui) : Prop :=
  chart_inv u /\
  (Forall printable (data u) ->
     table_rows (data u) = (tbody u, None) /\
     (data u = [] /\ chart u = None \/
      exists i, chart u = Some i /\
        charts u !! i = Some (mk_chart (pie_config (map vendor (data u)) (map price (data u))) true))) /\
  (~ Forall printable (data u) ->
     length (tbody u) < length (data u) /\
     forall i c, chart u = Some i -> charts u !! i = Some c ->
       length (cfg_labels (ch_config c)) < length (data u)).

Lemma ui_inv_init : ui_inv ui_init.
Proof.
  split_and!; [intros i c Hc; discriminate | intros _; split; [done | by left] |].
  intros H. contradict H. constructor.
Qed.

(** [push_and_render] keeps the invariant and never throws a chart error. *)
Lemma push_and_render_inv d u :
  ui_inv u ->
  let '(u', err) := push_and_render d u in ui_inv u' /\ err <> Some CanvasInUse.
Proof.
  intros (Hc & Hp & Hnp). unfold push_and_render, updateTable. simpl.
  set (d' := (data u ++ [make_entry d])%list).
  destruct (table_rows_cases d') as [(rows & Hr & Hall & Hl) | (rows & Hr & Hbad & Hl)];
    rewrite Hr.
  - (* every vendor prints: the chart is redrawn *)
    pose proof (updateChart_spec (mk_ui d' rows (charts u) (chart u)) Hc) as Hu.
    destruct (updateChart _) as [u' err] eqn:Hup. simpl in Hu.
    destruct Hu as (-> & Hc' & Hd & Ht & Hi). split; [| done].
    split_and!; [done | | intros Hn; exfalso; apply Hn; by rewrite Hd].
    intros _. rewrite Hd, Ht. split; [done |]. by right.
  - (* an unprintable vendor: the table stops, the chart stays *)
    split; [| done]. split_and!; [done | intros Hall; by contradict Hbad | intros _; split; [done |]].
    simpl. intros i c Hi Hci. unfold d'. rewrite length_app. simpl.
    destruct (decide (Forall printable (data u))) as [Hall | Hn].
    + destruct (Hp Hall) as [_ [[_ Hn] | (j & Hj & Hcj)]]; [congruence |].
      rewrite Hi in Hj. injection Hj as <-. rewrite Hcj in Hci. injection Hci as <-.
      simpl. rewrite length_map. lia.
    + destruct (Hnp Hn) as [_ H]. specialize (H i c Hi Hci). lia.
Qed.

(** ** Prices from total strings *)

(** [total || 0] prints as the total itself unless the total is NaN: a
    zero of either sign prints "0.00" like the +0 that replaces it. *)
Lemma to_fixed_or_zero x f : x <> NaN -> to_fixed (num_or x (of_Z 0)) f = to_fixed x f.
Proof. intros Hx. unfold num_or. destruct x; done. Qed.

(** C26: When the API returns the total as a string whose decimal literal
    is non-negative (no minus sign), has at most two fraction digits and fewer than [2^51] hundredths,
    and the vendor prints, the row of the pushed entry shows that
    literal's exact hundredths in its price cell ("12.3" gives "12.30",
    "0.1" gives "0.10", "7" gives "7.00"): rounding to binary64 and back
    never changes a cent. *)
Theorem string_total_cell result vend s v (m e : Z) :
  get_prop result "vendor" = Some vend -> to_str vend = Some v ->
  get_prop result "total" = Some (JStr s) ->
  scan_literal (trim_start s) = Some (LitDecimal false m e) -> (-2 <= e)%Z -> (m * 10 ^ (e + 2) < 2 ^ 51)%Z ->
  exists row, row_markup (make_entry (on_json result).1) = Some row /\
    str_infix ("<td>" ++ fixed_digits (m * 10 ^ (e + 2))%Z 2 ++ "</td>") row.
Proof.
  intros Hv Hsv Ht Hs He HP.
  unfold on_json, details_of_result. rewrite Hv, Ht. simpl.
  assert (Hp : to_fixed (price (make_entry (mk_details vend (parse_float_str s)))) 2
               = fixed_digits (m * 10 ^ (e + 2))%Z 2).
  { simpl. unfold parse_float_str. rewrite Hs. simpl literal_value.
    rewrite to_fixed_or_zero by apply round_decimal_not_nan.
    apply to_fixed_round_decimal; [exact (scan_literal_nonneg _ _ _ _ Hs) | exact He | exact HP]. }
  assert (Hn : exists v', to_str (vendor (make_entry (mk_details vend (parse_float_str s)))) = Some v').
  { simpl. unfold js_or. destruct (truthy vend); eauto. }
  destruct Hn as [v' Hn]. destruct (row_markup_price_cell _ _ Hn) as (row & Hr & Hc).
  rewrite Hp in Hc. eauto.
Qed.

Lemma string_total_cell_witness :
  get_prop (JObj [("vendor", JStr "ACME"); ("total", JStr "19.99")]) "vendor" = Some (JStr "ACME") /\
  to_str (JStr "ACME") = Some "ACME" /\
  get_prop (JObj [("vendor", JStr "ACME"); ("total", JStr "19.99")]) "total" = Some (JStr "19.99") /\
  scan_literal (trim_start "19.99") = Some (LitDecimal false 1999 (-2)) /\
  exists row, row_markup (make_entry (on_json (JObj [("vendor", JStr "ACME"); ("total", JStr "19.99")])).1)
                = Some row /\ str_infix ("<td>" ++ fixed_digits (1999 * 10 ^ (-2 + 2))%Z 2 ++ "</td>") row.
Proof.
  split_and!; [reflexivity | reflexivity | reflexivity | reflexivity |].
  apply (string_total_cell _ (JStr "ACME") "19.99" "ACME" 1999 (-2)); (reflexivity || lia).
Defined.

(** ** Witnesses *)

Definition w0 : world := mk_world ui_init ∅ [] [].
Definition obj0 : stored := mk_stored (ArgStr "Vendor 1") JUndefined.
Definition xs_ok : list settle :=
  [PutResolved; FetchResolved; JsonResolved (JObj [("vendor", JStr "ACME"); ("total", JStr "12.3")]); Resume].
Definition w_ok : world :=
  match run_task (AwaitPut "receipts/undefined" obj0) xs_ok w0 with Some (_, w') => w' | None => w0 end.

Lemma addEntry_outcome_witness :
  run_task (AwaitPut "receipts/undefined" obj0) xs_ok w0 = Some (Done, w_ok) /\
  ((xs_ok = [PutRejected] /\ data (w_ui w_ok) = data (w_ui w0) /\
     w_store w_ok = w_store w0 /\ w_requests w_ok = w_requests w0)
  \/ (exists d, data (w_ui w_ok) = (data (w_ui w0) ++ [make_entry d])%list /\
        w_store w_ok = <[ "receipts/undefined" := obj0]> (w_store w0) /\
        w_requests w_ok = (w_requests w0 ++ [request_url "receipts/undefined"])%list /\
        (d = fallback_details \/ exists v, d = (on_json v).1))).
Proof.
  assert (run_task (AwaitPut "receipts/undefined" obj0) xs_ok w0 = Some (Done, w_ok)) as H
    by (vm_compute; reflexivity).
  split; [exact H | exact (addEntry_outcome _ _ _ _ _ H)].
Defined.

Lemma fetch_failure_unknown_witness :
  ([FetchRejected] = [FetchRejected] \/ [FetchRejected] = [FetchResolved; JsonRejected] \/
   (exists v, [FetchRejected] = [FetchResolved; JsonResolved v] /\ details_of_result v = None)) /\
  exists w', run_task (AwaitFetch "receipts/undefined") ([FetchRejected] ++ [Resume])%list w0
             = Some (Done, w') /\
    data (w_ui w') = (data (w_ui w0) ++ [mk_entry (JStr "Unknown") PosZero])%list.
Proof.
  assert ([FetchRejected] = [FetchRejected] \/ [FetchRejected] = [FetchResolved; JsonRejected] \/
          (exists v, [FetchRejected] = [FetchResolved; JsonResolved v] /\ details_of_result v = None))
    as H by (by left).
  split; [exact H | exact (fetch_failure_unknown _ _ _ H)].
Defined.
