(* ===== verification/Events.v ===== *)
(** * The event handlers (src/script.js, lines 105-132)

    The file input's [change] handler and the drop area's [drop] handler
    loop over the selected or dropped files, but each iteration draws a
    fake vendor name and price from [Math.random()] and calls
    [addEntry(vendor, price)]: the file itself is never passed, the
    string [vendor] becomes addEntry's [file] parameter and [price] is an
    extra argument that addEntry ignores.  The [dragover] and [dragleave]
    handlers toggle the [dragging] class of the drop area; [dragover] and
    [drop] cancel the browser's default action.

    [Math.random()] is modelled as the stream of the values it returns
    ([rng]); the class list as a DOMTokenList (an ordered list without
    duplicates). *)

From S2P Require Import Prelude Binary64 NumberFormat NumberParse Rounding JsValue Receipt ChartLib Render Pipeline.

#[local] Open Scope string_scope.

(** ** Math.random *)

Record rng := mk_rng { draws : nat -> number; used : nat }.

Definition math_random (r : rng) : number * rng :=
  (draws r (used r), mk_rng (draws r) (S (used r))).

(** The values [Math.random()] may return (ECMA-262 21.3.2.27): a number
    with positive sign, at least +0 and below 1. *)
Definition is_draw (x : number) : bool :=
  match x with
  | S754_zero false => true
  | S754_finite false m e => bounded prec emax m e && (Zpos m <? 2 ^ (- e))%Z
  | _ => false
  end.

(** ** The loop body of lines 108-113 and 127-131 *)

(** [`Vendor ${Math.floor(Math.random() * 100)}`] for the draw [x]. *)
Definition fake_vendor (x : number) : string :=
  "Vendor " ++ to_string (floor (mul x (of_Z 100))).

(** One iteration: the vendor string, the price [Math.random() * 100],
    the stream after both draws. *)
Definition fake_entry (r : rng) : entry_arg * number * rng :=
  let '(x, r1) := math_random r in
  let '(y, r2) := math_random r1 in
  (ArgStr (fake_vendor x), mul y (of_Z 100), r2).

(** [for (let file of files) { ...; addEntry(vendor, price); }]: one call
    per file, each started synchronously; the price is dropped because
    addEntry declares a single parameter. *)
Fixpoint demo_loop (files : list file) (r : rng) (w : world) : list task * rng * world :=
  match files with
  | [] => ([], r, w)
  | _ :: fs =>
      let '(a, _, r1) := fake_entry r in
      let '(t, w1) := addEntry_start a w in
      let '(ts, r2, w2) := demo_loop fs r1 w1 in
      (t :: ts, r2, w2)
  end.

(** ** The drop area *)

(** [classList.add] and [classList.remove]. *)
Definition class_add (c : string) (cls : list string) : list string :=
  if bool_decide (c ∈ cls) then cls else (cls ++ [c])%list.

Definition class_remove (c : string) (cls : list string) : list string :=
  filter (fun x => x ≠ c) cls.

Inductive dom_event :=
  | InputChange (files : list file)   (** [change] on [#fileInput] *)
  | DragOver                          (** [dragover] on [#drop-area] *)
  | DragLeave                         (** [dragleave] on [#drop-area] *)
  | DropFiles (files : list file).    (** [drop] on [#drop-area] *)

(** What dispatching an event does: whether its default action was
    prevented, the drop area's classes, the calls started, the random
    stream and the world afterwards. *)
Record dispatched := mk_dispatched {
  dp_prevented : bool;
  dp_classes : list string;
  dp_tasks : list task;
  dp_rng : rng;
  dp_world : world
}.

Definition dispatch (ev : dom_event) (cls : list string) (r : rng) (w : world) : dispatched :=
  match ev with
  | InputChange fs =>
      let '(ts, r', w') := demo_loop fs r w in mk_dispatched false cls ts r' w'
  | DragOver => mk_dispatched true (class_add "dragging" cls) [] r w
  | DragLeave => mk_dispatched false (class_remove "dragging" cls) [] r w
  | DropFiles fs =>
      let '(ts, r', w') := demo_loop fs r w in
      mk_dispatched true (class_remove "dragging" cls) ts r' w'
  end.

(** ** Frame lemmas *)

(** A call started by the demo handlers: the key is always
    [receipts/undefined] and the uploaded body is the fake vendor string. *)
Definition demo_task (t : task) : Prop :=
  exists x, t = AwaitPut "receipts/undefined" (mk_stored (ArgStr (fake_vendor x)) JUndefined).

(** The loop starts one call per file, all of the demo shape, and changes
    nothing else. *)
Lemma demo_loop_spec fs r w :
  let '(ts, _, w') := demo_loop fs r w in
  w' = w /\ length ts = length fs /\ Forall demo_task ts.
Proof.
  revert r. induction fs as [|f fs IH]; intros r; simpl; [done |].
  destruct (demo_loop fs _ w) as [[ts r2] w2] eqn:Hl.
  specialize (IH (mk_rng (draws r) (S (S (used r))))). rewrite Hl in IH.
  destruct IH as (-> & Hlen & Hall). split_and!; [done | simpl; by f_equal |].
  constructor; [| done]. by eexists.
Qed.

Lemma dispatch_spec e cls r w :
  dp_world (dispatch e cls r w) = w /\ Forall demo_task (dp_tasks (dispatch e cls r w)).
Proof.
  destruct e as [fs| | |fs]; simpl; try by split.
  all: pose proof (demo_loop_spec fs r w) as H;
       destruct (demo_loop fs r w) as [[ts r'] w'];
       destruct H as (-> & _ & Hall); by split.
Qed.

(** What dispatching does to the drop area, and whether it prevents the
    default action. *)
Lemma dispatch_dom e cls r w :
  dp_classes (dispatch e cls r w) =
    match e with
    | InputChange _ => cls
    | DragOver => class_add "dragging" cls
    | DragLeave | DropFiles _ => class_remove "dragging" cls
    end /\
  dp_prevented (dispatch e cls r w) =
    match e with DragOver | DropFiles _ => true | _ => false end.
Proof. destruct e; simpl; try done; by destruct (demo_loop _ _ _) as [[? ?] ?]. Qed.

Lemma elem_of_class_add c x cls : c ∈ class_add x cls <-> c = x \/ c ∈ cls.
Proof.
  unfold class_add. case_bool_decide as Hx.
  - split; [tauto | by intros [-> | ?]].
  - rewrite elem_of_app, list_elem_of_singleton. tauto.
Qed.

Lemma elem_of_class_remove c x cls : c ∈ class_remove x cls <-> c <> x /\ c ∈ cls.
Proof. unfold class_remove. rewrite list_elem_of_filter. done. Qed.

(** The calls the loop starts: the [k]-th file uploads the fake vendor of
    the [2k]-th draw from the current position. *)
Definition demo_calls (r : rng) (n : nat) : list task :=
  map (fun k => AwaitPut "receipts/undefined"
                  (mk_stored (ArgStr (fake_vendor (draws r (used r + 2 * k)))) JUndefined))
      (seq 0 n).

Lemma demo_calls_S r n :
  demo_calls r (S n) =
    AwaitPut "receipts/undefined" (mk_stored (ArgStr (fake_vendor (draws r (used r)))) JUndefined)
    :: demo_calls (mk_rng (draws r) (S (S (used r)))) n.
Proof.
  unfold demo_calls. simpl. rewrite Nat.add_0_r. f_equal.
  rewrite <- seq_shift, map_map. apply map_ext. intros k. simpl. repeat f_equal. lia.
Qed.

(** C22: Dispatching a [change] or [drop] event with [n] files starts
    exactly [n] calls of addEntry, one per file in order, the [k]-th
    uploading the fake vendor drawn by the [2k]-th [Math.random()] call,
    consumes [2n] draws, and changes nothing else before the calls
    suspend. *)
Theorem dispatch_one_call_per_file e fs cls r w :
  e = InputChange fs \/ e = DropFiles fs ->
  dp_tasks (dispatch e cls r w) = demo_calls r (length fs) /\
  used (dp_rng (dispatch e cls r w)) = used r + 2 * length fs /\
  draws (dp_rng (dispatch e cls r w)) = draws r /\
  dp_world (dispatch e cls r w) = w.
Proof.
  assert (forall r, let '(ts, r', w') := demo_loop fs r w in
            ts = demo_calls r (length fs) /\ used r' = used r + 2 * length fs /\
            draws r' = draws r /\ w' = w) as Hloop.
  { induction fs as [|f fs IH]; intros r0; simpl; [split_and!; done || lia |].
    specialize (IH (mk_rng (draws r0) (S (S (used r0))))).
    destruct (demo_loop fs _ w) as [[ts r2] w2]. destruct IH as (-> & Hu & Hd & ->).
    rewrite demo_calls_S. simpl in *. split_and!; [done | lia | done | done]. }
  intros [-> | ->]; simpl; specialize (Hloop r);
    destruct (demo_loop fs r w) as [[ts r'] w']; exact Hloop.
Qed.

Lemma dispatch_one_call_per_file_witness :
  (DropFiles [mk_file "a.png" "image/png" "PNG"; mk_file "b.png" "image/png" "PNG"]
     = InputChange [mk_file "a.png" "image/png" "PNG"; mk_file "b.png" "image/png" "PNG"] \/
   DropFiles [mk_file "a.png" "image/png" "PNG"; mk_file "b.png" "image/png" "PNG"]
     = DropFiles [mk_file "a.png" "image/png" "PNG"; mk_file "b.png" "image/png" "PNG"]) /\
  let d := dispatch (DropFiles [mk_file "a.png" "image/png" "PNG"; mk_file "b.png" "image/png" "PNG"])
             [] (mk_rng (fun _ => PosZero) 0) (mk_world ui_init ∅ [] []) in
  dp_tasks d = demo_calls (mk_rng (fun _ => PosZero) 0) 2 /\
  used (dp_rng d) = 0 + 2 * 2 /\ draws (dp_rng d) = (fun _ => PosZero) /\
  dp_world d = mk_world ui_init ∅ [] [].
Proof.
  assert (DropFiles [mk_file "a.png" "image/png" "PNG"; mk_file "b.png" "image/png" "PNG"]
     = InputChange [mk_file "a.png" "image/png" "PNG"; mk_file "b.png" "image/png" "PNG"] \/
   DropFiles [mk_file "a.png" "image/png" "PNG"; mk_file "b.png" "image/png" "PNG"]
     = DropFiles [mk_file "a.png" "image/png" "PNG"; mk_file "b.png" "image/png" "PNG"]) as H
    by (by right).
  split; [exact H | exact (dispatch_one_call_per_file _ _ [] (mk_rng (fun _ => PosZero) 0) _ H)].
Defined.

(** ** The fake vendors *)

(** C27: For every value [x] that [Math.random()] may return, the fake
    vendor of the demo loop is ["Vendor " + k] for an integer [k] from 0
    to 99: [x * 100] never rounds up to 100, so [Math.floor] gives at
    most 99, printed without a fraction or an exponent. *)
Theorem fake_vendor_range x :
  is_draw x = true -> exists k, (0 <= k <= 99)%Z /\ fake_vendor x = "Vendor " ++ digits_of_Z k.
Proof.
  destruct x as [[]|[]| |[] m e]; simpl; try discriminate.
  - intros _. exists 0%Z. split; [lia | reflexivity].
  - intros Hd. apply andb_true_iff in Hd as [Hb Hlt]. apply Z.ltb_lt in Hlt.
    destruct (floor_mul_100 m e Hb Hlt) as (k & Hk & Hf).
    exists k. split; [lia|]. unfold fake_vendor. rewrite Hf, to_string_of_Z_small by lia. reflexivity.
Qed.

(** The largest value below 1 gives "Vendor 99". *)
Lemma fake_vendor_range_witness :
  is_draw (S754_finite false 9007199254740991 (-53)) = true /\
  exists k, (0 <= k <= 99)%Z /\ fake_vendor (S754_finite false 9007199254740991 (-53)) = "Vendor " ++ digits_of_Z k.
Proof.
  assert (H : is_draw (S754_finite false 9007199254740991 (-53)) = true) by (vm_compute; reflexivity).
  split; [exact H | exact (fake_vendor_range _ H)].
Defined.

