(* ===== verification/System.v ===== *)
(** * The page as a state machine

    The script's state is the world of [Pipeline.v] (page, bucket,
    console, requests), the suspended [addEntry] calls, the drop area's
    classes and the random stream, plus the trace of dispatched DOM
    events with whether their default action was prevented.  A step is
    either a DOM event, dispatched to the handlers of [Events.v], or the
    settlement of the pending await of one suspended call, chosen freely:
    the browser may settle the network operations of different calls in
    any order, and the free choice covers every order of the event
    loop. *)

From S2P Require Import Prelude Binary64 NumberFormat NumberParse JsValue Receipt ChartLib Render Pipeline Events.

#[local] Open Scope string_scope.

Record sys := mk_sys {
  s_world : world;
  s_tasks : list task;                       (** calls of addEntry, by start order *)
  s_classes : list string;                   (** [dropArea.classList] *)
  s_rng : rng;
  s_trace : list (dom_event * bool)          (** DOM events and [defaultPrevented] *)
}.

Inductive event :=
  | EvDom (e : dom_event)
  | EvSettle (i : nat) (x : settle).

(** The page after loading: empty data, table, bucket and console; the
    drop area has its classes [cls0] from the HTML. *)
Definition sys_init (rnd : nat -> number) (cls0 : list string) : sys :=
  mk_sys (mk_world ui_init ∅ [] []) [] cls0 (mk_rng rnd 0) [].

Definition sys_step (s : sys) (ev : event) : option sys :=
  match ev with
  | EvDom e =>
      let d := dispatch e (s_classes s) (s_rng s) (s_world s) in
      Some (mk_sys (dp_world d) (s_tasks s ++ dp_tasks d)%list (dp_classes d) (dp_rng d)
                   (s_trace s ++ [(e, dp_prevented d)])%list)
  | EvSettle i x =>
      t ← s_tasks s !! i;
      '(t', w') ← task_step t x (s_world s);
      Some (mk_sys w' (<[i := t']> (s_tasks s)) (s_classes s) (s_rng s) (s_trace s))
  end.

Fixpoint sys_run (s : sys) (evs : list event) : option sys :=
  match evs with
  | [] => Some s
  | ev :: evs' => s' ← sys_step s ev; sys_run s' evs'
  end.

(** The states the page can reach from its initial state. *)
Inductive reachable (rnd : nat -> number) (cls0 : list string) : sys -> Prop :=
  | reach_init : reachable rnd cls0 (sys_init rnd cls0)
  | reach_step s ev s' :
      reachable rnd cls0 s -> sys_step s ev = Some s' -> reachable rnd cls0 s'.

(** ** Steps *)

(** A step is a dispatch, which starts demo calls and leaves the world
    alone, or one segment of one suspended call. *)
Lemma sys_step_cases s ev s' :
  sys_step s ev = Some s' ->
  (exists e : dom_event, ev = EvDom e /\ s_world s' = s_world s /\
     exists ts, s_tasks s' = (s_tasks s ++ ts)%list /\ Forall demo_task ts)
  \/ (exists i x t t', ev = EvSettle i x /\ s_tasks s !! i = Some t /\
       task_step t x (s_world s) = Some (t', s_world s') /\
       s_tasks s' = <[i := t']> (s_tasks s)).
Proof.
  destruct ev as [e | i x]; simpl; intros H.
  - left. exists e. injection H as <-. simpl.
    destruct (dispatch_spec e (s_classes s) (s_rng s) (s_world s)) as [Hw Ht].
    split; [done |]. split; [done |]. by eexists.
  - right. destruct (s_tasks s !! i) as [t|] eqn:Ht; simpl in H; [| discriminate].
    destruct (task_step t x (s_world s)) as [[t' w']|] eqn:Hs; simpl in H; [| discriminate].
    injection H as <-. simpl. by exists i, x, t, t'.
Qed.

(** The messages of the JSON segment are no chart errors. *)
Lemma on_json_logs v : ErrUpload CanvasInUse ∉ (on_json v).2.
Proof. unfold on_json. case_match; simpl; rewrite !not_elem_of_cons; repeat split; try done; apply not_elem_of_nil. Qed.
(** Only the [Resume] segment changes the page, by [push_and_render]. *)
Lemma task_step_ui t x w t' w' :
  task_step t x w = Some (t', w') ->
  (w_ui w' = w_ui w /\ exists l, w_console w' = (w_console w ++ l)%list /\ ErrUpload CanvasInUse ∉ l)
  \/ (exists d err, t = AwaitDetails d /\ x = Resume /\ t' = Done /\
       push_and_render d (w_ui w) = (w_ui w', err) /\
       w_console w' = (w_console w ++ match err with Some e => [ErrUpload e] | None => [] end)%list).
Proof.
  intros H. task_step_cases H.
  all: try (destruct (on_json v) as [d l] eqn:Hj).
  all: try (destruct (push_and_render d (w_ui w)) as [u err] eqn:Hp).
  all: simplify_eq/=.
  all: first [ by right; do 2 eexists | left; split; [done |] ].
  all: first [ exists []; split; [by rewrite app_nil_r | apply not_elem_of_nil] | eexists; split; [reflexivity |] ].
  all: try (pose proof (on_json_logs v) as Hl; rewrite Hj in Hl; exact Hl).
  all: rewrite list_elem_of_singleton; discriminate.
Qed.

(** ** The page invariant holds in every reachable state *)

Definition page_inv (s : sys) : Prop :=
  ui_inv (w_ui (s_world s)) /\ ErrUpload CanvasInUse ∉ w_console (s_world s).

Lemma sys_step_page_inv s ev s' :
  sys_step s ev = Some s' -> page_inv s -> page_inv s'.
Proof.
  intros Hs [Hu Hc]. unfold page_inv. destruct (sys_step_cases s ev s' Hs) as [(e & _ & -> & _) | (i & x & t & t' & _ & _ & Ht & _)];
    [done |].
  destruct (task_step_ui _ _ _ _ _ Ht) as [(-> & l & -> & Hl) | (d & err & -> & _ & _ & Hp & ->)].
  - split; [done |]. rewrite elem_of_app. tauto.
  - pose proof (push_and_render_inv d _ Hu) as Hinv. rewrite Hp in Hinv.
    destruct Hinv as [Hu' Herr]. split; [done |].
    rewrite elem_of_app. intros [? | Hin]; [done |].
    destruct err as [e|]; [| by apply not_elem_of_nil in Hin].
    apply list_elem_of_singleton in Hin. congruence.
Qed.

Lemma reachable_page_inv rnd cls0 s : reachable rnd cls0 s -> page_inv s.
Proof.
  induction 1 as [| s ev s' _ IH Hs].
  - split; [apply ui_inv_init | apply not_elem_of_nil].
  - by apply (sys_step_page_inv s ev s').
Qed.

(** C6: In every reachable state of the page, every live chart is the
    current one, and no [new Chart] has ever thrown: the destroy before
    each redraw keeps the canvas free. *)
Theorem reachable_single_chart rnd cls0 s :
  reachable rnd cls0 s ->
  chart_inv (w_ui (s_world s)) /\ ErrUpload CanvasInUse ∉ w_console (s_world s).
Proof. intros H. destruct (reachable_page_inv _ _ _ H) as [[Hc _] Hn]. done. Qed.

(** C1: In every reachable state whose vendors all print, the table body
    holds exactly one row per entry of [data], in the order of [data]
    (the order in which the calls completed), and the current chart is
    the only live one and shows exactly the vendors and prices of
    [data]; before the first entry there is no chart. *)
Theorem reachable_page_shows_data rnd cls0 s :
  reachable rnd cls0 s ->
  let u := w_ui (s_world s) in
  Forall printable (data u) ->
  table_rows (data u) = (tbody u, None) /\ length (tbody u) = length (data u) /\
  (data u = [] /\ chart u = None \/
   exists i, chart u = Some i /\
     charts u !! i = Some (mk_chart (pie_config (map vendor (data u)) (map price (data u))) true) /\
     forall j c, charts u !! j = Some c -> ch_live c = true -> j = i).
Proof.
  intros H; cbv zeta; intros Hall. destruct (reachable_page_inv _ _ _ H) as [(Hc & Hp & _) _].
  destruct (Hp Hall) as [Ht Hch]. split; [done |]. split.
  - destruct (table_rows_cases (data (w_ui (s_world s)))) as [(rows & Hr & _ & Hl) | (rows & Hr & _)];
      rewrite Hr in Ht; by simplify_eq.
  - destruct Hch as [? | (i & Hi & Hci)]; [by left | right].
    exists i. split_and!; [done | done |]. intros j c Hj Hl. specialize (Hc j c Hj Hl). congruence.
Qed.

(** C5: In every reachable state where some vendor of [data] does not
    print (the API returned an object with an own [toString] key), the
    table body has fewer rows than [data] has entries and the current
    chart fewer slices: each later call throws in [updateTable] and
    never redraws the chart. *)
Theorem reachable_rendering_stuck rnd cls0 s :
  reachable rnd cls0 s ->
  let u := w_ui (s_world s) in
  ~ Forall printable (data u) ->
  length (tbody u) < length (data u) /\
  forall i c, chart u = Some i -> charts u !! i = Some c ->
    length (cfg_labels (ch_config c)) < length (data u).
Proof. intros H u Hn. destruct (reachable_page_inv _ _ _ H) as [(_ & _ & Hnp) _]. by apply Hnp. Qed.

(** ** What the demo handlers upload *)

(** The calls of a page whose only callers are the demo handlers. *)
Definition demo_shape (t : task) : Prop :=
  match t with
  | AwaitPut k o => k = "receipts/undefined" /\
                    exists x, o = mk_stored (ArgStr (fake_vendor x)) JUndefined
  | AwaitFetch k | AwaitJson k => k = "receipts/undefined"
  | _ => True
  end.

Definition upload_inv (s : sys) : Prop :=
  Forall demo_shape (s_tasks s) /\
  (forall k o, w_store (s_world s) !! k = Some o ->
     k = "receipts/undefined" /\ exists x, o = mk_stored (ArgStr (fake_vendor x)) JUndefined) /\
  Forall (fun url => url = request_url "receipts/undefined") (w_requests (s_world s)).

Lemma task_step_upload_inv t x w t' w' :
  task_step t x w = Some (t', w') -> demo_shape t ->
  (forall k o, w_store w !! k = Some o ->
     k = "receipts/undefined" /\ exists x, o = mk_stored (ArgStr (fake_vendor x)) JUndefined) ->
  Forall (fun url => url = request_url "receipts/undefined") (w_requests w) ->
  demo_shape t' /\
  (forall k o, w_store w' !! k = Some o ->
     k = "receipts/undefined" /\ exists x, o = mk_stored (ArgStr (fake_vendor x)) JUndefined) /\
  Forall (fun url => url = request_url "receipts/undefined") (w_requests w').
Proof.
  intros H Hshape Hstore Hreq. task_step_cases H; repeat case_match; simplify_eq/=; try done.
  destruct Hshape as [-> Hobj]. split_and!; [done | | apply Forall_app; split; [done | by repeat constructor]].
  intros k o Hk. rewrite lookup_insert in Hk. case_decide; simplify_eq; auto.
Qed.

Lemma sys_step_upload_inv s ev s' : sys_step s ev = Some s' -> upload_inv s -> upload_inv s'.
Proof.
  intros Hs (Hts & Hstore & Hreq). unfold upload_inv.
  destruct (sys_step_cases s ev s' Hs)
    as [(e & _ & -> & ts & -> & Hnew) | (i & x & t & t' & _ & Hi & Ht & ->)].
  - split_and!; [| done | done]. apply Forall_app; split; [done |].
    eapply Forall_impl; [exact Hnew |]. intros t (y & ->). simpl. eauto.
  - pose proof (Forall_lookup_1 _ _ _ _ Hts Hi) as Hshape.
    destruct (task_step_upload_inv _ _ _ _ _ Ht Hshape Hstore Hreq) as (Ht' & Hs' & Hr').
    split_and!; [by apply Forall_insert | done | done].
Qed.

(** C4: In every reachable state, the bucket holds objects under the key
    [receipts/undefined] only, each the fake vendor string of a demo
    handler with no content type, and every request asks for the details
    of [receipts/undefined]: the handlers pass a string to addEntry, whose
    [file.name] is undefined, so no receipt file is ever uploaded and all
    uploads overwrite one another. *)
Theorem reachable_uploads_collide rnd cls0 s :
  reachable rnd cls0 s ->
  (forall k o, w_store (s_world s) !! k = Some o ->
     k = "receipts/undefined" /\ exists x, o = mk_stored (ArgStr (fake_vendor x)) JUndefined) /\
  Forall (fun url => url = request_url "receipts/undefined") (w_requests (s_world s)).
Proof.
  intros H. cut (upload_inv s); [by intros (_ & ? & ?) |].
  induction H as [| s ev s' _ IH Hs].
  - split_and!; simpl; [constructor | intros k o Hk; by rewrite lookup_empty in Hk | constructor].
  - by apply (sys_step_upload_inv s ev s').
Qed.

(** ** The drop area *)

(** Whether the last drag event of a trace ([dragover], [dragleave] or
    [drop]) was a [dragover]. *)
Definition drag_highlight (tr : list (dom_event * bool)) : bool :=
  foldl (fun b ep => match ep.1 with
                     | DragOver => true
                     | DragLeave | DropFiles _ => false
                     | InputChange _ => b
                     end) false tr.

(** A step that is not a dispatch leaves the drop area and the trace. *)
Lemma sys_step_dom s ev s' :
  sys_step s ev = Some s' ->
  (exists e, ev = EvDom e /\
     s_classes s' = dp_classes (dispatch e (s_classes s) (s_rng s) (s_world s)) /\
     s_trace s' = (s_trace s ++ [(e, dp_prevented (dispatch e (s_classes s) (s_rng s) (s_world s)))])%list)
  \/ (s_classes s' = s_classes s /\ s_trace s' = s_trace s).
Proof.
  destruct ev as [e | i x]; simpl; intros H.
  - left. exists e. by injection H as <-.
  - right. destruct (s_tasks s !! i); simpl in H; [| discriminate].
    destruct (task_step _ _ _) as [[? ?]|]; simpl in H; [| discriminate].
    by injection H as <-.
Qed.

(** C11: In every reachable state, each dispatched [dragover] and [drop]
    event had its default action prevented (the browser never opens a
    dropped file), and no other event had. *)
Theorem reachable_drop_prevented rnd cls0 s :
  reachable rnd cls0 s ->
  Forall (fun ep => ep.2 = match ep.1 with DragOver | DropFiles _ => true | _ => false end)
    (s_trace s).
Proof.
  induction 1 as [| s ev s' _ IH Hs]; [constructor |].
  destruct (sys_step_dom s ev s' Hs) as [(e & _ & _ & ->) | (_ & ->)]; [| done].
  apply Forall_app. split; [done |]. constructor; [| constructor].
  simpl. by destruct (dispatch_dom e (s_classes s) (s_rng s) (s_world s)) as [_ ->].
Qed.

(** C12: When the drop area's initial classes do not include [dragging],
    in every reachable state it has the class [dragging] exactly when
    the last drag event was a [dragover], and its other classes are the
    initial ones. *)
Theorem reachable_dragging_class rnd cls0 s :
  "dragging" ∉ cls0 -> reachable rnd cls0 s ->
  ("dragging" ∈ s_classes s <-> drag_highlight (s_trace s) = true) /\
  (forall c, c <> "dragging" -> c ∈ s_classes s <-> c ∈ cls0).
Proof.
  intros H0. induction 1 as [| s ev s' _ IH Hs]; [simpl; split; [split; [done | discriminate] | done] |].
  destruct IH as [IHd IHc].
  destruct (sys_step_dom s ev s' Hs) as [(e & _ & -> & ->) | (-> & ->)]; [| done].
  unfold drag_highlight. rewrite foldl_app. fold (drag_highlight (s_trace s)).
  destruct (dispatch_dom e (s_classes s) (s_rng s) (s_world s)) as [-> _].
  destruct e; simpl; split; try done; intros;
    rewrite ?elem_of_class_add, ?elem_of_class_remove; try tauto.
  all: first [specialize (IHc c H); tauto | split; [by intros [? _] | discriminate]].
Qed.

(** ** Refinement: the page is an append-only container of entries *)

(** The abstract container of the specification: an ordered list of
    records whose only operation is appending one. *)
Inductive container_step : list entry -> list entry -> Prop :=
  | container_push l e : container_step l (l ++ [e])%list.

Definition sys_data (s : sys) : list entry := data (w_ui (s_world s)).

(** How one step changes [data]. *)
Lemma sys_step_data s ev s' :
  sys_step s ev = Some s' ->
  sys_data s' = sys_data s \/
  exists i d, ev = EvSettle i Resume /\ s_tasks s !! i = Some (AwaitDetails d) /\
    s_tasks s' !! i = Some Done /\ container_step (sys_data s) (sys_data s') /\
    sys_data s' = (sys_data s ++ [make_entry d])%list.
Proof.
  intros Hs. unfold sys_data.
  destruct (sys_step_cases s ev s' Hs) as [(e & _ & -> & _) | (i & x & t & t' & -> & Hi & Ht & Hts)];
    [by left |].
  destruct (task_step_ui _ _ _ _ _ Ht) as [(-> & _) | (d & err & -> & -> & -> & Hp & _)];
    [by left |].
  right. exists i, d. pose proof (push_and_render_data d (w_ui (s_world s))) as Hd.
  rewrite Hp in Hd. simpl in Hd. rewrite Hd. split_and!; try done; try constructor.
  rewrite Hts. apply list_lookup_insert_eq. by eapply lookup_lt_Some.
Qed.

(** C2: Every step of the page either leaves [data] unchanged or is the
    [Resume] of one suspended call, which then is finished, and performs
    one push of the container, the entry of that call: [data] grows by
    one entry at a time, in the order in which the calls complete. *)
Theorem sys_step_refines s ev s' :
  sys_step s ev = Some s' ->
  sys_data s' = sys_data s \/
  exists i d, ev = EvSettle i Resume /\ s_tasks s !! i = Some (AwaitDetails d) /\
    s_tasks s' !! i = Some Done /\ container_step (sys_data s) (sys_data s') /\
    sys_data s' = (sys_data s ++ [make_entry d])%list.
Proof. exact (sys_step_data s ev s'). Qed.

(** C21: Along any run of the page, [data] only grows by pushes: the
    state before is related to the state after by a sequence of
    container pushes. *)
Corollary sys_run_refines s evs s' :
  sys_run s evs = Some s' -> rtc container_step (sys_data s) (sys_data s').
Proof.
  revert s. induction evs as [|ev evs IH]; intros s H; simpl in H.
  - injection H as <-. apply rtc_refl.
  - destruct (sys_step s ev) as [s1|] eqn:Hs; simpl in H; [| discriminate].
    specialize (IH s1 H).
    destruct (sys_step_data _ _ _ Hs) as [Heq | (i & d & _ & _ & _ & Hc & _)].
    + by rewrite Heq in IH.
    + by eapply rtc_l.
Qed.

(** ** A rejected upload does not disturb the other calls *)

(** C23: When the upload of one call is rejected, that call ends and
    one error is logged; the page, the bucket, the requests and every
    other suspended call are unchanged, so the other files go on. *)
Theorem upload_rejected_frame s i key obj s' :
  s_tasks s !! i = Some (AwaitPut key obj) ->
  sys_step s (EvSettle i PutRejected) = Some s' ->
  s_tasks s' !! i = Some Done /\
  (forall j, j <> i -> s_tasks s' !! j = s_tasks s !! j) /\
  w_ui (s_world s') = w_ui (s_world s) /\ w_store (s_world s') = w_store (s_world s) /\
  w_requests (s_world s') = w_requests (s_world s) /\
  w_console (s_world s') = (w_console (s_world s) ++ [ErrUpload UploadError])%list.
Proof.
  intros Hi Hs. simpl in Hs. rewrite Hi in Hs. injection Hs as <-. simpl.
  split_and!; try done.
  - apply list_lookup_insert_eq. by eapply lookup_lt_Some.
  - intros j Hj. by apply list_lookup_insert_ne.
Qed.

(** ** Runs from the initial page *)

Lemma sys_run_reachable rnd cls0 s evs s' :
  reachable rnd cls0 s -> sys_run s evs = Some s' -> reachable rnd cls0 s'.
Proof.
  revert s. induction evs as [|ev evs IH]; intros s Hr H; simpl in H; [by injection H as <- |].
  destruct (sys_step s ev) as [s1|] eqn:Hs; simpl in H; [| discriminate].
  apply (IH s1); [by eapply reach_step | done].
Qed.

(** The page after the events [evs] (the initial page if one of them
    does not apply). *)
Definition run_from_init (rnd : nat -> number) (cls0 : list string) (evs : list event) : sys :=
  match sys_run (sys_init rnd cls0) evs with Some s => s | None => sys_init rnd cls0 end.

Lemma run_from_init_reachable rnd cls0 evs : reachable rnd cls0 (run_from_init rnd cls0 evs).
Proof.
  unfold run_from_init. destruct (sys_run _ evs) eqn:H; [| constructor].
  eapply sys_run_reachable; [constructor | exact H].
Qed.

(** ** Witnesses *)

Definition rnd0 : nat -> number := fun n => round_decimal false (Z.of_nat n) (-2).
Definition receipt_a : file := mk_file "a.png" "image/png" "PNG".
Definition receipt_b : file := mk_file "b.pdf" "application/pdf" "PDF".
Definition body_b : jsval := JObj [("vendor", JStr "B"); ("total", JStr "7.5")].
Definition body_bad : jsval := JObj [("vendor", JObj [("toString", JStr "x")]); ("total", JStr "5")].

(** Two receipts dropped; the second completes first, the first fails to
    fetch its details. *)
Definition good_events : list event :=
  [EvDom DragOver; EvDom (DropFiles [receipt_a; receipt_b]);
   EvSettle 1 PutResolved; EvSettle 0 PutResolved; EvSettle 1 FetchResolved;
   EvSettle 1 (JsonResolved body_b); EvSettle 1 Resume;
   EvSettle 0 FetchRejected; EvSettle 0 Resume].

(** Two receipts selected; the first gets a vendor that does not print. *)
Definition bad_events : list event :=
  [EvDom (InputChange [receipt_a; receipt_b]);
   EvSettle 0 PutResolved; EvSettle 0 FetchResolved; EvSettle 0 (JsonResolved body_bad);
   EvSettle 0 Resume; EvSettle 1 PutResolved; EvSettle 1 FetchRejected; EvSettle 1 Resume].

Definition good_page : sys := run_from_init rnd0 ["box"] good_events.
Definition bad_page : sys := run_from_init rnd0 ["box"] bad_events.

Lemma reachable_single_chart_witness :
  reachable rnd0 ["box"] good_page /\
  chart_inv (w_ui (s_world good_page)) /\ ErrUpload CanvasInUse ∉ w_console (s_world good_page).
Proof.
  assert (reachable rnd0 ["box"] good_page) as H by apply run_from_init_reachable.
  split; [exact H | exact (reachable_single_chart _ _ _ H)].
Defined.

Lemma reachable_page_shows_data_witness :
  reachable rnd0 ["box"] good_page /\
  Forall printable (data (w_ui (s_world good_page))) /\
  let u := w_ui (s_world good_page) in
  table_rows (data u) = (tbody u, None) /\ length (tbody u) = length (data u) /\
  (data u = [] /\ chart u = None \/
   exists i, chart u = Some i /\
     charts u !! i = Some (mk_chart (pie_config (map vendor (data u)) (map price (data u))) true) /\
     forall j c, charts u !! j = Some c -> ch_live c = true -> j = i).
Proof.
  assert (reachable rnd0 ["box"] good_page) as H by apply run_from_init_reachable.
  assert (Forall printable (data (w_ui (s_world good_page)))) as Hp
    by (apply forallb_printable; vm_compute; reflexivity).
  split_and!; [exact H | exact Hp | exact (reachable_page_shows_data _ _ _ H Hp)].
Defined.

Lemma reachable_rendering_stuck_witness :
  reachable rnd0 ["box"] bad_page /\
  ~ Forall printable (data (w_ui (s_world bad_page))) /\
  let u := w_ui (s_world bad_page) in
  length (tbody u) < length (data u) /\
  forall i c, chart u = Some i -> charts u !! i = Some c ->
    length (cfg_labels (ch_config c)) < length (data u).
Proof.
  assert (reachable rnd0 ["box"] bad_page) as H by apply run_from_init_reachable.
  assert (~ Forall printable (data (w_ui (s_world bad_page)))) as Hn.
  { rewrite <- forallb_printable. vm_compute. discriminate. }
  split_and!; [exact H | exact Hn | exact (reachable_rendering_stuck _ _ _ H Hn)].
Defined.

Lemma reachable_uploads_collide_witness :
  reachable rnd0 ["box"] good_page /\
  (forall k o, w_store (s_world good_page) !! k = Some o ->
     k = "receipts/undefined" /\ exists x, o = mk_stored (ArgStr (fake_vendor x)) JUndefined) /\
  Forall (fun url => url = request_url "receipts/undefined") (w_requests (s_world good_page)).
Proof.
  assert (reachable rnd0 ["box"] good_page) as H by apply run_from_init_reachable.
  split; [exact H | exact (reachable_uploads_collide _ _ _ H)].
Defined.

Lemma reachable_drop_prevented_witness :
  reachable rnd0 ["box"] good_page /\
  Forall (fun ep => ep.2 = match ep.1 with DragOver | DropFiles _ => true | _ => false end)
    (s_trace good_page).
Proof.
  assert (reachable rnd0 ["box"] good_page) as H by apply run_from_init_reachable.
  split; [exact H | exact (reachable_drop_prevented _ _ _ H)].
Defined.

Lemma sys_step_refines_witness :
  sys_step (run_from_init rnd0 ["box"] (take 6 good_events)) (EvSettle 1 Resume)
    = Some (run_from_init rnd0 ["box"] (take 7 good_events)) /\
  (sys_data (run_from_init rnd0 ["box"] (take 7 good_events))
     = sys_data (run_from_init rnd0 ["box"] (take 6 good_events)) \/
   exists i d, EvSettle 1 Resume = EvSettle i Resume /\
     s_tasks (run_from_init rnd0 ["box"] (take 6 good_events)) !! i = Some (AwaitDetails d) /\
     s_tasks (run_from_init rnd0 ["box"] (take 7 good_events)) !! i = Some Done /\
     container_step (sys_data (run_from_init rnd0 ["box"] (take 6 good_events)))
                    (sys_data (run_from_init rnd0 ["box"] (take 7 good_events))) /\
     sys_data (run_from_init rnd0 ["box"] (take 7 good_events))
       = (sys_data (run_from_init rnd0 ["box"] (take 6 good_events)) ++ [make_entry d])%list).
Proof.
  assert (sys_step (run_from_init rnd0 ["box"] (take 6 good_events)) (EvSettle 1 Resume)
            = Some (run_from_init rnd0 ["box"] (take 7 good_events))) as H
    by (vm_compute; reflexivity).
  split; [exact H | exact (sys_step_refines _ _ _ H)].
Defined.

Lemma sys_run_refines_witness :
  sys_run (sys_init rnd0 ["box"]) good_events = Some good_page /\
  rtc container_step (sys_data (sys_init rnd0 ["box"])) (sys_data good_page).
Proof.
  assert (sys_run (sys_init rnd0 ["box"]) good_events = Some good_page) as H
    by (vm_compute; reflexivity).
  split; [exact H | exact (sys_run_refines _ _ _ H)].
Defined.

Lemma upload_rejected_frame_witness :
  s_tasks (run_from_init rnd0 ["box"] (take 2 good_events)) !! 0
    = Some (AwaitPut "receipts/undefined" (mk_stored (ArgStr (fake_vendor (rnd0 0))) JUndefined)) /\
  sys_step (run_from_init rnd0 ["box"] (take 2 good_events)) (EvSettle 0 PutRejected)
    = Some (run_from_init rnd0 ["box"] (take 2 good_events ++ [EvSettle 0 PutRejected])) /\
  let s := run_from_init rnd0 ["box"] (take 2 good_events) in
  let s' := run_from_init rnd0 ["box"] (take 2 good_events ++ [EvSettle 0 PutRejected]) in
  s_tasks s' !! 0 = Some Done /\
  (forall j, j <> 0 -> s_tasks s' !! j = s_tasks s !! j) /\
  w_ui (s_world s') = w_ui (s_world s) /\ w_store (s_world s') = w_store (s_world s) /\
  w_requests (s_world s') = w_requests (s_world s) /\
  w_console (s_world s') = (w_console (s_world s) ++ [ErrUpload UploadError])%list.
Proof.
  assert (s_tasks (run_from_init rnd0 ["box"] (take 2 good_events)) !! 0
    = Some (AwaitPut "receipts/undefined" (mk_stored (ArgStr (fake_vendor (rnd0 0))) JUndefined)))
    as H1 by (vm_compute; reflexivity).
  assert (sys_step (run_from_init rnd0 ["box"] (take 2 good_events)) (EvSettle 0 PutRejected)
    = Some (run_from_init rnd0 ["box"] (take 2 good_events ++ [EvSettle 0 PutRejected])))
    as H2 by (vm_compute; reflexivity).
  split_and!; [exact H1 | exact H2 | exact (upload_rejected_frame _ _ _ _ _ H1 H2)].
Defined.

(** The page after a drop of no file and a [dragover]: the drop area
    is highlighted. *)
Definition dragged_page : sys := run_from_init rnd0 ["box"] [EvDom (DropFiles []); EvDom DragOver].

Lemma reachable_dragging_class_witness :
  ("dragging" ∉ ["box"]) /\ reachable rnd0 ["box"] dragged_page /\
  "dragging" ∈ s_classes dragged_page /\
  ("dragging" ∈ s_classes dragged_page <-> drag_highlight (s_trace dragged_page) = true) /\
  (forall c, c <> "dragging" -> c ∈ s_classes dragged_page <-> c ∈ ["box"]).
Proof.
  assert ("dragging" ∉ ["box"]) as H by (rewrite list_elem_of_singleton; discriminate).
  assert (Hr : reachable rnd0 ["box"] dragged_page) by apply run_from_init_reachable.
  assert (Hd : "dragging" ∈ s_classes dragged_page) by (vm_compute; right; left).
  split; [exact H |]. split; [exact Hr |]. split; [exact Hd |].
  exact (reachable_dragging_class rnd0 ["box"] dragged_page H Hr).
Defined.
