(* ===== verification/Liveness.v ===== *)
(** * Every call of addEntry completes

    The browser settles the awaits of the suspended calls one at a time,
    in an order and with outcomes the script does not control.  This
    file shows that, whatever that order and those outcomes, once no
    further DOM event arrives every run of settlements ends, after at
    most four settlements per pending call, in a state where every call
    has returned; and that [data] then holds one more entry for every
    call that had passed its upload, and at most one more for every call
    that was still uploading.  A call whose await never settles (a hung
    request, which the script does not time out) blocks no other call:
    the runs that settle only the other calls end with all of them
    returned, and [data] then holds one more entry for each of them
    that had passed its upload and at most one more for each of them
    still uploading.

    [eventually step P s] is the inductive "every maximal run reaches
    [P]" of small-step semantics: [P] holds now, or [s] can step and
    every successor eventually reaches [P]. *)

From S2P Require Import Prelude Binary64 NumberFormat NumberParse JsValue Receipt ChartLib Render Pipeline Events System.

(** ** Eventually, over any step relation *)

Section Eventually.
Context {State : Type} (step : State -> State -> Prop).

Inductive eventually (P : State -> Prop) (s : State) : Prop :=
  | eventually_done : P s -> eventually P s
  | eventually_step :
      (exists s', step s s') -> (forall s', step s s' -> eventually P s') -> eventually P s.

Lemma eventually_weaken (P Q : State -> Prop) s :
  eventually P s -> (forall s', P s' -> Q s') -> eventually Q s.
Proof.
  intros H HPQ. induction H as [s HP | s Hex _ IH].
  - apply eventually_done. auto.
  - by apply eventually_step.
Qed.

(** A variant that decreases along every step, an invariant kept by
    every step, and progress out of every state that is not final
    give [eventually]. *)
Lemma eventually_measure (I P : State -> Prop) (f : State -> nat) :
  (forall s s', I s -> step s s' -> I s' /\ f s' < f s) ->
  (forall s, I s -> P s \/ exists s', step s s') ->
  forall s, I s -> eventually P s.
Proof.
  intros Hdec Hprog s. remember (f s) as n eqn:Hn. revert s Hn.
  induction n as [n IH] using lt_wf_ind. intros s -> HI.
  destruct (Hprog s HI) as [HP | Hex]; [by apply eventually_done |].
  apply eventually_step; [exact Hex |].
  intros s' Hs. destruct (Hdec s s' HI Hs) as [HI' Hlt].
  exact (IH (f s') Hlt s' eq_refl HI').
Qed.
End Eventually.

(** ** Settlements *)

(** One await of one suspended call settles. *)
Definition settle_step (s s' : sys) : Prop :=
  exists i x, sys_step s (EvSettle i x) = Some s'.

(** One await of a call other than [i] settles: call [i] hangs. *)
Definition settle_step_except (i : nat) (s s' : sys) : Prop :=
  exists j x, j <> i /\ sys_step s (EvSettle j x) = Some s'.

Definition task_done (t : task) : bool :=
  match t with Done => true | _ => false end.

(** Every call has returned. *)
Definition quiescent (s : sys) : bool := forallb task_done (s_tasks s).

(** Every call other than call [i] has returned. *)
Definition others_returned (i : nat) (s : sys) : bool := forallb task_done (delete i (s_tasks s)).

(** A call that has passed its upload (it will push one entry). *)
Definition task_uploaded (t : task) : nat :=
  match t with AwaitFetch _ | AwaitJson _ | AwaitDetails _ => 1 | _ => 0 end.

(** A call that has not returned (it may still push one entry). *)
Definition task_pending (t : task) : nat := if task_done t then 0 else 1.

Definition pending_rank (s : sys) : nat := sum_list_with task_rank (s_tasks s).

(** The least and the greatest length [data] can end with. *)
Definition data_lo (s : sys) : nat := length (sys_data s) + sum_list_with task_uploaded (s_tasks s).
Definition data_hi (s : sys) : nat := length (sys_data s) + sum_list_with task_pending (s_tasks s).

(** ** Lemmas *)

Lemma sum_list_with_insert {A} (f : A -> nat) l i x y :
  l !! i = Some x -> sum_list_with f (<[i := y]> l) + f x = sum_list_with f l + f y.
Proof.
  revert i. induction l as [|a l IH]; intros [|i] H; simpl in *; try discriminate.
  - injection H as ->. lia.
  - specialize (IH i H). lia.
Qed.

Lemma sum_list_with_done f l :
  (forall t, task_done t = true -> f t = 0) -> forallb task_done l = true -> sum_list_with f l = 0.
Proof.
  intros Hf. induction l as [|t l IH]; simpl; [done |].
  rewrite andb_true_iff. intros [Ht Hl]. rewrite (Hf t Ht), (IH Hl). done.
Qed.

Lemma forallb_false_lookup {A} (f : A -> bool) l :
  forallb f l = false -> exists i x, l !! i = Some x /\ f x = false.
Proof.
  induction l as [|a l IH]; simpl; [discriminate |].
  destruct (f a) eqn:Ha; simpl; intros H.
  - destruct (IH H) as (i & x & Hi & Hx). by exists (S i), x.
  - by exists 0, a.
Qed.

(** Every call that has not returned can take its next segment. *)
Lemma task_step_progress t w :
  task_done t = false -> exists t' w', task_step t (settle_ok t) w = Some (t', w').
Proof.
  destruct t; simpl; try discriminate; intros _; repeat case_match; eauto.
Qed.

(** One segment: the rank drops, [data] grows by at most one entry, and
    by one exactly when the call leaves the set of uploaded calls. *)
Lemma task_step_counts t x w t' w' :
  task_step t x w = Some (t', w') ->
  task_rank t' < task_rank t /\
  length (data (w_ui w)) + task_uploaded t <= length (data (w_ui w')) + task_uploaded t' /\
  length (data (w_ui w')) + task_pending t' <= length (data (w_ui w)) + task_pending t.
Proof.
  intros H. split; [exact (task_step_rank _ _ _ _ _ H) |].
  task_step_cases H; repeat case_match; simplify_eq/=; unfold task_pending; simpl; try lia.
  all: match goal with
  | Hp : push_and_render ?d ?u = _ |- _ =>
      pose proof (push_and_render_data d u) as Hd; rewrite Hp in Hd; simpl in Hd; rewrite Hd, length_app; simpl; lia
  end.
Qed.

(** One settlement of call [i]: the ranks drop, the bounds on [data]
    only tighten. *)
Lemma settle_counts s i x s' :
  sys_step s (EvSettle i x) = Some s' ->
  pending_rank s' < pending_rank s /\ data_lo s <= data_lo s' /\ data_hi s' <= data_hi s.
Proof.
  intros Hs. simpl in Hs.
  destruct (s_tasks s !! i) as [t|] eqn:Hi; simpl in Hs; [| discriminate].
  destruct (task_step t x (s_world s)) as [[t' w']|] eqn:Ht; simpl in Hs; [| discriminate].
  injection Hs as <-. unfold pending_rank, data_lo, data_hi, sys_data. simpl.
  destruct (task_step_counts _ _ _ _ _ Ht) as (Hr & Hlo & Hhi).
  pose proof (sum_list_with_insert task_rank _ _ _ t' Hi).
  pose proof (sum_list_with_insert task_uploaded _ _ _ t' Hi).
  pose proof (sum_list_with_insert task_pending _ _ _ t' Hi). lia.
Qed.

Lemma settle_step_counts s s' :
  settle_step s s' ->
  pending_rank s' < pending_rank s /\ data_lo s <= data_lo s' /\ data_hi s' <= data_hi s.
Proof. intros (i & x & Hs). exact (settle_counts s i x s' Hs). Qed.

(** A state where some call has not returned can settle. *)
(** Call [i] of a state that has not returned can take its next segment. *)
Lemma settle_call_progress s i t :
  s_tasks s !! i = Some t -> task_done t = false -> exists x s', sys_step s (EvSettle i x) = Some s'.
Proof.
  intros Hi Ht. destruct (task_step_progress t (s_world s) Ht) as (t' & w' & Hst).
  exists (settle_ok t). eexists. simpl. rewrite Hi. simpl. rewrite Hst. reflexivity.
Qed.

Lemma settle_progress s : quiescent s = false -> exists s', settle_step s s'.
Proof.
  unfold quiescent. intros Hq.
  destruct (forallb_false_lookup _ _ Hq) as (i & t & Hi & Ht).
  destruct (settle_call_progress s i t Hi Ht) as (x & s' & Hs). by exists s', i, x.
Qed.

(** ** Every call completes *)

(** C29: Whatever order and outcomes the browser gives the pending
    awaits, every run of settlements from any state of the page ends
    (after at most four settlements per pending call) in a state where
    every call of addEntry has returned, and then [data] has grown by
    one entry for each call that had passed its upload and by at most
    one for each call still uploading. *)
Theorem pending_calls_complete s :
  eventually settle_step
    (fun s' => quiescent s' = true /\ data_lo s <= length (sys_data s') <= data_hi s) s.
Proof.
  apply (eventually_measure settle_step (fun s' => data_lo s <= data_lo s' /\ data_hi s' <= data_hi s)
           _ pending_rank); [| | lia].
  - intros s1 s2 [Hlo Hhi] Hs. destruct (settle_step_counts s1 s2 Hs) as (? & ? & ?). lia.
  - intros s1 [Hlo Hhi]. destruct (quiescent s1) eqn:Hq; [left | right; by apply settle_progress].
    unfold data_lo, data_hi in *.
    rewrite (sum_list_with_done task_uploaded (s_tasks s1)) in Hlo by (exact Hq || by intros [] ?).
    rewrite (sum_list_with_done task_pending (s_tasks s1)) in Hhi by (exact Hq || by intros [] ?).
    split; [done | lia].
Qed.

(** The sum over a list is the sum without entry [i] plus entry [i]
    (nothing when [i] is out of range). *)
Lemma sum_list_with_delete f l i :
  f Done = 0 -> sum_list_with f l = sum_list_with f (delete i l) + f (default Done (l !! i)).
Proof.
  intros H0. revert i. induction l as [|t l IH]; intros [|i]; simpl; rewrite ?H0; try lia.
  rewrite (IH i). lia.
Qed.

(** A settlement of call [j] leaves every other call as it was. *)
Lemma settle_other_lookup s j x s' i :
  sys_step s (EvSettle j x) = Some s' -> j <> i -> s_tasks s' !! i = s_tasks s !! i.
Proof.
  intros Hs Hji. simpl in Hs.
  destruct (s_tasks s !! j) as [t|]; simpl in Hs; [| discriminate].
  destruct (task_step t x (s_world s)) as [[t' w']|]; simpl in Hs; [| discriminate].
  injection Hs as <-. simpl. by rewrite list_lookup_insert_ne.
Qed.

(** C33: A call whose pending await never settles (a hung request)
    blocks no other call: whatever order and outcomes the browser gives
    the awaits of the other calls, every run of their settlements ends
    in a state where every other call has returned, the hung call is
    where it was, and [data] has grown by one entry for each other call
    that had passed its upload and by at most one for each other call
    still uploading. *)
Theorem hung_call_blocks_no_other i s :
  eventually (settle_step_except i)
    (fun s' => others_returned i s' = true /\ s_tasks s' !! i = s_tasks s !! i /\
       data_lo s <= length (sys_data s') + task_uploaded (default Done (s_tasks s !! i)) /\
       length (sys_data s') + task_pending (default Done (s_tasks s !! i)) <= data_hi s) s.
Proof.
  apply (eventually_measure _
           (fun s1 => s_tasks s1 !! i = s_tasks s !! i /\ data_lo s <= data_lo s1 /\ data_hi s1 <= data_hi s)
           _ pending_rank); [| | split_and!; [done | lia | lia]].
  - intros s1 s2 (Hi & Hlo & Hhi) (j & x & Hji & Hs).
    destruct (settle_counts s1 j x s2 Hs) as (? & ? & ?).
    rewrite (settle_other_lookup s1 j x s2 i Hs Hji). split_and!; [exact Hi | lia ..].
  - intros s1 (Hi & Hlo & Hhi). destruct (others_returned i s1) eqn:Hr; [left | right].
    + unfold data_lo, data_hi, others_returned in *. rewrite <- Hi.
      rewrite (sum_list_with_delete task_uploaded (s_tasks s1) i), (sum_list_with_delete task_pending (s_tasks s1) i)
        in * by done.
      rewrite (sum_list_with_done task_uploaded (delete i (s_tasks s1))) in Hlo by (exact Hr || by intros [] ?).
      rewrite (sum_list_with_done task_pending (delete i (s_tasks s1))) in Hhi by (exact Hr || by intros [] ?).
      split_and!; [done | done | lia | lia].
    + destruct (forallb_false_lookup _ _ Hr) as (k & t & Hk & Ht).
      set (j := if decide (k < i) then k else S k).
      assert (Hj : j <> i /\ s_tasks s1 !! j = Some t).
      { unfold j. case_decide.
        - rewrite list_lookup_delete_lt in Hk by done. split; [lia | done].
        - rewrite list_lookup_delete_ge in Hk by lia. split; [lia | done]. }
      destruct Hj as [Hji Hjt]. destruct (settle_call_progress s1 j t Hjt Ht) as (x & s' & Hs).
      by exists s', j, x.
Qed.
