(* ===== verification/Runs.v ===== *)
(** * Runs of the page and the shape of [data]

    [System.reachable] is the inductive closure of [sys_step] from the
    loaded page; [sys_run] executes a list of events.  This file shows
    that the two describe the same states, so every invariant of
    [reachable] holds after every sequence of events and every run
    computed by [vm_compute] is a reachable state; and that every entry
    of [data] in a reachable state has the shape the table and the chart
    expect: a truthy vendor and a price that is a Number other than NaN
    and -0 (line 29, [{ vendor: vendor || 'Unknown Vendor', price:
    total || 0 }]).  Finally, two calls can complete in either order and
    [data] records the order of completion ([completion_order]). *)

From S2P Require Import Prelude Binary64 NumberFormat NumberParse JsValue Receipt ChartLib Render Pipeline Events System.

(** ** Runs *)

(** The states some sequence of events leads to from the loaded page. *)
Definition run_reachable (rnd : nat -> number) (cls0 : list string) (s : sys) : Prop :=
  exists evs, sys_run (sys_init rnd cls0) evs = Some s.

Lemma sys_run_snoc s evs ev :
  sys_run s (evs ++ [ev]) = s1 ← sys_run s evs; sys_step s1 ev.
Proof.
  revert s. induction evs as [|ev' evs IH]; intros s; simpl.
  - by destruct (sys_step s ev).
  - destruct (sys_step s ev') as [s1|]; simpl; [apply IH | done].
Qed.

Lemma reachable_sys_run rnd cls0 s :
  reachable rnd cls0 s -> run_reachable rnd cls0 s.
Proof.
  induction 1 as [| s ev s' _ [evs IH] Hs]; [by exists [] |].
  exists (evs ++ [ev]). by rewrite sys_run_snoc, IH.
Qed.

(** ** The shape of an entry *)

(** [{vendor, price}] with a truthy vendor and a price that is +0 or a
    truthy Number: never NaN, never -0. *)
Definition entry_typed (en : entry) : bool :=
  truthy (vendor en) &&
  match price en with
  | S754_zero false => true
  | p => num_truthy p
  end.

Lemma make_entry_typed d : entry_typed (make_entry d) = true.
Proof.
  unfold entry_typed, make_entry, js_or, num_or. simpl.
  destruct (truthy (d_vendor d)) eqn:Hv; simpl; [rewrite Hv |];
    destruct (d_total d) as [[]|[]| |[]]; reflexivity.
Qed.

Lemma sys_step_typed s ev s' :
  sys_step s ev = Some s' ->
  Forall (fun en => entry_typed en = true) (sys_data s) ->
  Forall (fun en => entry_typed en = true) (sys_data s').
Proof.
  intros Hs Hf. destruct (sys_step_data s ev s' Hs) as [-> | (i & d & _ & _ & _ & _ & ->)]; [done |].
  apply Forall_app. split; [done |]. constructor; [apply make_entry_typed | constructor].
Qed.

(** ** Claims *)

(** The reachable states of the page are exactly the states some
    sequence of events (DOM events and settlements) leads to from the
    loaded page: the step relation and the executable runs agree. *)
Lemma reachable_iff_run rnd cls0 s :
  reachable rnd cls0 s <-> run_reachable rnd cls0 s.
Proof.
  split; [apply reachable_sys_run |].
  intros [evs Hr]. eapply sys_run_reachable; [constructor | exact Hr].
Qed.

(** C30: In every reachable state, every entry of [data] is an object
    [{vendor, price}] whose vendor is truthy and whose price is a
    Number that is neither NaN nor -0, whatever the API returned. *)
Theorem reachable_data_typed rnd cls0 s :
  reachable rnd cls0 s -> Forall (fun en => entry_typed en = true) (sys_data s).
Proof.
  induction 1 as [| s ev s' _ IH Hs]; [constructor |].
  exact (sys_step_typed s ev s' Hs IH).
Qed.

Lemma reachable_data_typed_witness :
  reachable rnd0 ["box"] good_page /\
  Forall (fun en => entry_typed en = true) (sys_data good_page).
Proof.
  assert (H : reachable rnd0 ["box"] good_page) by apply run_from_init_reachable.
  split; [exact H | exact (reachable_data_typed rnd0 ["box"] good_page H)].
Defined.

(** ** The order of completions *)

(** The schedule that runs the last segments of the calls [order], in
    that order. *)
Definition complete_calls (order : list nat) : list event := map (fun i => EvSettle i Resume) order.

(** The last segment of a call waiting on [fetchReceiptDetails] can
    always run, and appends its entry. *)
Lemma resume_step s i d :
  s_tasks s !! i = Some (AwaitDetails d) ->
  exists s', sys_step s (EvSettle i Resume) = Some s' /\
    sys_data s' = (sys_data s ++ [make_entry d])%list /\ s_tasks s' = <[i := Done]> (s_tasks s).
Proof.
  intros Hi. simpl. rewrite Hi. simpl.
  destruct (push_and_render d (w_ui (s_world s))) as [u err] eqn:Hp. eexists. split; [reflexivity |].
  unfold sys_data. simpl. split; [| done].
  pose proof (push_and_render_data d (w_ui (s_world s))) as Hd. by rewrite Hp in Hd.
Qed.

(** C34: Two calls waiting on their details can complete in either
    order, and [data] records the order of completion, not the order in
    which the files were given: resuming [i] then [j] appends [i]'s
    entry first, resuming [j] then [i] appends [j]'s first, and the two
    results hold the same entries. *)
Theorem completion_order s i j di dj :
  i <> j -> s_tasks s !! i = Some (AwaitDetails di) -> s_tasks s !! j = Some (AwaitDetails dj) ->
  exists s2 s4,
    sys_run s (complete_calls [i; j]) = Some s2 /\
    sys_run s (complete_calls [j; i]) = Some s4 /\
    sys_data s2 = (sys_data s ++ [make_entry di; make_entry dj])%list /\
    sys_data s4 = (sys_data s ++ [make_entry dj; make_entry di])%list /\
    sys_data s2 ≡ₚ sys_data s4.
Proof.
  intros Hij Hi Hj.
  destruct (resume_step s i di Hi) as (s1 & Hs1 & Hd1 & Ht1).
  destruct (resume_step s j dj Hj) as (s3 & Hs3 & Hd3 & Ht3).
  assert (Hj1 : s_tasks s1 !! j = Some (AwaitDetails dj)) by (rewrite Ht1, list_lookup_insert_ne; auto).
  assert (Hi3 : s_tasks s3 !! i = Some (AwaitDetails di)) by (rewrite Ht3, list_lookup_insert_ne; auto).
  destruct (resume_step s1 j dj Hj1) as (s2 & Hs2 & Hd2 & _).
  destruct (resume_step s3 i di Hi3) as (s4 & Hs4 & Hd4 & _).
  exists s2, s4. cbn [sys_run complete_calls map]. rewrite Hs1, Hs3. cbn [mbind option_bind]. rewrite Hs2, Hs4.
  rewrite Hd2, Hd1, Hd4, Hd3, <- !app_assoc. simpl. split_and!; try done.
  apply Permutation_app_head. apply perm_swap.
Qed.

(** Two receipts dropped: the upload of both resolves, the first call's
    fetch fails, the second call's answer arrives; both wait to resume. *)
Definition both_waiting : sys :=
  run_from_init rnd0 ["box"]
    [EvDom (DropFiles [receipt_a; receipt_b]); EvSettle 0 PutResolved; EvSettle 1 PutResolved;
     EvSettle 0 FetchRejected; EvSettle 1 FetchResolved; EvSettle 1 (JsonResolved body_b)].

Lemma completion_order_witness :
  (0 <> 1)%nat /\
  s_tasks both_waiting !! 0 = Some (AwaitDetails (on_failure NetworkError).1) /\
  s_tasks both_waiting !! 1 = Some (AwaitDetails (on_json body_b).1) /\
  exists s2 s4,
    sys_run both_waiting (complete_calls [0; 1]) = Some s2 /\
    sys_run both_waiting (complete_calls [1; 0]) = Some s4 /\
    sys_data s2 = (sys_data both_waiting ++ [make_entry (on_failure NetworkError).1; make_entry (on_json body_b).1])%list /\
    sys_data s4 = (sys_data both_waiting ++ [make_entry (on_json body_b).1; make_entry (on_failure NetworkError).1])%list /\
    sys_data s2 ≡ₚ sys_data s4.
Proof.
  assert (H0 : s_tasks both_waiting !! 0 = Some (AwaitDetails (on_failure NetworkError).1))
    by (vm_compute; reflexivity).
  assert (H1 : s_tasks both_waiting !! 1 = Some (AwaitDetails (on_json body_b).1))
    by (vm_compute; reflexivity).
  split_and!; [lia | exact H0 | exact H1 |].
  exact (completion_order both_waiting 0 1 _ _ ltac:(lia) H0 H1).
Defined.
