(* ===== verification/Load.v ===== *)
(** * Loading the script: the DOM lookups and the listeners

    Before any event, the module body of src/script.js runs once:
    [Amplify.configure] (line 5), the lookups of [#fileInput], of the
    [tbody] inside [#expenseTable] and of [#expenseChart] with its 2D
    context (lines 7-9), the [change] listener on the file input
    (line 106), the lookup of [#drop-area] (line 117) and its three
    listeners (lines 118-123).  A lookup that finds nothing gives
    [null]; calling a method on [null] (or [getContext] on an element
    that is not a canvas) throws a TypeError, which ends the module body:
    the listeners registered before stay, the later ones never exist.

    This file models the document as a tree of elements, the two lookup
    functions, and the module body in a small state-and-exception monad
    over the registered listeners.  It shows that loading succeeds
    exactly on the documents the specification asks for, that a missing
    [#fileInput] leaves the drop area without listeners, so a drop is not
    prevented, and what a missing table body does to every later call of
    addEntry (line 60 throws inside its [try]). *)

From S2P Require Import Prelude Binary64 NumberFormat NumberParse JsValue Receipt ChartLib Render Pipeline Events System.

#[local] Open Scope string_scope.

(** ** The document *)

(** An element: its tag name, its [id] attribute and its children. *)
#[warnings="-register-all"]
Inductive node := Elem (tag : string) (id : option string) (children : list node).

Definition node_tag (n : node) : string := let 'Elem t _ _ := n in t.

(** [document.getElementById(i)]: the first element in document
    (preorder) order whose id is [i], or [null]. *)
Fixpoint find_id (i : string) (n : node) : option node :=
  let 'Elem _ oid cs := n in
  if bool_decide (oid = Some i) then Some n
  else (fix go (cs : list node) : option node :=
          match cs with
          | [] => None
          | c :: cs' => match find_id i c with Some r => Some r | None => go cs' end
          end) cs.

Definition get_element_by_id (doc : node) (i : string) : option node := find_id i doc.

(** [document.querySelector('#a t')]: the first element in document
    order with tag [t] that has an ancestor with id [a]; [inside] says
    whether such an ancestor encloses [n]. *)
Fixpoint find_desc (a t : string) (inside : bool) (n : node) : option node :=
  let 'Elem tg oid cs := n in
  if inside && String.eqb tg t then Some n
  else
    let inside' := inside || bool_decide (oid = Some a) in
    (fix go (cs : list node) : option node :=
       match cs with
       | [] => None
       | c :: cs' => match find_desc a t inside' c with Some r => Some r | None => go cs' end
       end) cs.

Definition query_selector_desc (doc : node) (a t : string) : option node := find_desc a t false doc.

(** ** The module body as a computation *)

(** The listeners the module body can register, in the order of the code. *)
Inductive listener := OnChange | OnDragOver | OnDragLeave | OnDrop.

#[export] Instance listener_eq_dec : EqDecision listener.
Proof. solve_decision. Defined.

Definition all_listeners : list listener := [OnChange; OnDragOver; OnDragLeave; OnDrop].

(** A statement of the module body: it registers listeners and either
    goes on with a value or throws. *)
Definition load_m (A : Type) : Type := list listener -> list listener * (A + error).

Definition load_ret {A} (x : A) : load_m A := fun ls => (ls, inl x).

Definition load_bind {A B} (m : load_m A) (f : A -> load_m B) : load_m B :=
  fun ls => match m ls with
            | (ls', inl x) => f x ls'
            | (ls', inr e) => (ls', inr e)
            end.

Definition load_throw {A} (e : error) : load_m A := fun ls => (ls, inr e).

(** The monad operations of stdpp, so that the module body reads with
    its [x ← m; k] and [m ;; k]. *)
#[export] Instance load_mret : MRet load_m := @load_ret.
#[export] Instance load_mbind : MBind load_m := fun A B f m => load_bind m f.

(** [target.addEventListener(type, handler)]: a TypeError on [null]. *)
Definition add_event_listener (target : option node) (l : listener) : load_m unit :=
  match target with
  | None => load_throw TypeError
  | Some _ => fun ls => ((ls ++ [l])%list, inl tt)
  end.

(** [el.getContext('2d')]: a TypeError on [null], and on an element
    that has no [getContext] method (anything but a canvas). *)
Definition get_context (el : option node) : load_m node :=
  match el with
  | Some n => if String.eqb (node_tag n) "canvas" then load_ret n else load_throw TypeError
  | None => load_throw TypeError
  end.

(** The elements the script keeps in its [const]s. *)
Record page_refs := mk_refs {
  ref_file_input : option node;
  ref_table_body : option node;
  ref_ctx : node;
  ref_drop_area : option node
}.

(** Lines 5-12, 106 and 117-123, in order.  [Amplify.configure] is a
    library call whose effects the model does not follow. *)
Definition script_body (doc : node) : load_m page_refs :=
  let fileInput := get_element_by_id doc "fileInput" in
  let tableBody := query_selector_desc doc "expenseTable" "tbody" in
  ctx ← get_context (get_element_by_id doc "expenseChart");
  add_event_listener fileInput OnChange;;
  let dropArea := get_element_by_id doc "drop-area" in
  add_event_listener dropArea OnDragOver;;
  add_event_listener dropArea OnDragLeave;;
  add_event_listener dropArea OnDrop;;
  mret (mk_refs fileInput tableBody ctx dropArea).

(** Loading the page: the listeners registered and the outcome. *)
Definition load_script (doc : node) : list listener * (page_refs + error) := script_body doc [].

(** The elements the specification requires (section 5): [#fileInput],
    a drawable [#expenseChart] and [#drop-area]. *)
Definition page_ready (doc : node) : bool :=
  match get_element_by_id doc "expenseChart" with
  | Some n => String.eqb (node_tag n) "canvas"
  | None => false
  end &&
  bool_decide (get_element_by_id doc "fileInput" <> None) &&
  bool_decide (get_element_by_id doc "drop-area" <> None).

(** ** Events on the loaded page *)

Definition listener_of (e : dom_event) : listener :=
  match e with
  | InputChange _ => OnChange
  | DragOver => OnDragOver
  | DragLeave => OnDragLeave
  | DropFiles _ => OnDrop
  end.

(** The browser runs the listener of an event if it was registered;
    otherwise nothing runs and the default action is not prevented. *)
Definition dispatch_on (ls : list listener) (e : dom_event) (cls : list string) (r : rng) (w : world)
    : dispatched :=
  if bool_decide (listener_of e ∈ ls) then dispatch e cls r w else mk_dispatched false cls [] r w.

(** ** A missing table body (line 60) *)

(** [updateTable()] with the [tableBody] found at load:
    [tableBody.innerHTML = ''] throws on [null] before anything else. *)
Definition updateTable_dom (tb : option node) (u : ui) : ui * option error :=
  match tb with
  | None => (u, Some TypeError)
  | Some _ => updateTable u
  end.

(** Lines 29-31 with that [updateTable]. *)
Definition push_and_render_dom (tb : option node) (d : details) (u : ui) : ui * option error :=
  let u1 := mk_ui (data u ++ [make_entry d])%list (tbody u) (charts u) (chart u) in
  let '(u2, err) := updateTable_dom tb u1 in
  match err with
  | Some e => (u2, Some e)
  | None => updateChart u2
  end.

(** The last segment of addEntry (lines 29-34): the [catch] logs what
    the redraw threw. *)
Definition resume_dom (tb : option node) (d : details) (w : world) : world :=
  let '(u, err) := push_and_render_dom tb d (w_ui w) in
  mk_world u (w_store w) (w_console w ++ match err with Some e => [ErrUpload e] | None => [] end)
           (w_requests w).

(** ** Lemmas *)

Ltac load_unfold :=
  cbv [load_script script_body mbind load_mbind load_bind mret load_mret load_ret
       add_event_listener get_context load_throw].

(** The module body, by the elements it finds. *)
Lemma load_script_cases doc :
  load_script doc =
  match get_element_by_id doc "expenseChart" with
  | Some n =>
      if String.eqb (node_tag n) "canvas" then
        match get_element_by_id doc "fileInput", get_element_by_id doc "drop-area" with
        | Some _, Some _ =>
            (all_listeners, inl (mk_refs (get_element_by_id doc "fileInput")
                                   (query_selector_desc doc "expenseTable" "tbody") n
                                   (get_element_by_id doc "drop-area")))
        | Some _, None => ([OnChange], inr TypeError)
        | None, _ => ([], inr TypeError)
        end
      else ([], inr TypeError)
  | None => ([], inr TypeError)
  end.
Proof.
  load_unfold. destruct (get_element_by_id doc "expenseChart") as [n|]; [| reflexivity].
  destruct (String.eqb (node_tag n) "canvas"); [| reflexivity].
  destruct (get_element_by_id doc "fileInput"), (get_element_by_id doc "drop-area"); reflexivity.
Qed.

Lemma dispatch_on_all e cls r w : dispatch_on all_listeners e cls r w = dispatch e cls r w.
Proof. unfold dispatch_on. rewrite bool_decide_eq_true_2; [done |]. destruct e; set_solver. Qed.

Lemma dispatch_on_nil e cls r w : dispatch_on [] e cls r w = mk_dispatched false cls [] r w.
Proof. unfold dispatch_on. rewrite bool_decide_eq_false_2; [done | set_solver]. Qed.

(** With the table body present, the last segment is the page model's. *)
Lemma resume_dom_present n d w :
  task_step (AwaitDetails d) Resume w = Some (Done, resume_dom (Some n) d w).
Proof.
  cbn [task_step]. unfold resume_dom.
  change (push_and_render_dom (Some n) d (w_ui w)) with (push_and_render d (w_ui w)).
  by destruct (push_and_render d (w_ui w)).
Qed.

(** With no table body, the last segment only pushes and logs. *)
Lemma resume_dom_missing d w :
  resume_dom None d w =
  mk_world (mk_ui (data (w_ui w) ++ [make_entry d])%list (tbody (w_ui w)) (charts (w_ui w)) (chart (w_ui w)))
           (w_store w) (w_console w ++ [ErrUpload TypeError]) (w_requests w).
Proof. reflexivity. Qed.

(** What a successful load keeps in [tableBody]. *)
Lemma load_table_body doc refs :
  snd (load_script doc) = inl refs -> ref_table_body refs = query_selector_desc doc "expenseTable" "tbody".
Proof. rewrite load_script_cases. repeat case_match; simpl; intros; simplify_eq; done. Qed.

(** ** Claims *)

(** C10: Loading the script registers its listeners in the order of the
    code and stops at the first TypeError: the registered listeners are
    always a prefix of [change, dragover, dragleave, drop].  It throws
    nothing exactly on the documents the specification asks for (a
    [#fileInput], a canvas [#expenseChart] and a [#drop-area]); then all
    four listeners are registered and every DOM event is dispatched as
    the page model [dispatch] says. *)
Theorem load_script_spec doc :
  let '(ls, res) := load_script doc in
  ls `prefix_of` all_listeners /\
  ((exists refs, res = inl refs) <-> page_ready doc = true) /\
  (forall e, res = inr e -> e = TypeError) /\
  (page_ready doc = true -> ls = all_listeners /\
     forall ev cls r w, dispatch_on ls ev cls r w = dispatch ev cls r w).
Proof.
  rewrite load_script_cases. unfold page_ready.
  destruct (get_element_by_id doc "expenseChart") as [n|]; [destruct (String.eqb (node_tag n) "canvas") |];
    destruct (get_element_by_id doc "fileInput"), (get_element_by_id doc "drop-area");
    cbn [andb]; repeat case_bool_decide; cbn [andb] in *; try congruence.
  all: split_and!; [first [apply prefix_nil | reflexivity | by exists [OnDragOver; OnDragLeave; OnDrop]]
                   | split; [intros [? ?]; first [done | congruence] | intros; first [congruence | by eexists]]
                   | intros ? ?; congruence
                   | intros Hc; first [discriminate Hc | split; [done | apply dispatch_on_all]]].
Qed.

(** A page as the specification describes it: a file input, the table
    with its body, the chart canvas and the drop area. *)
Definition spec_doc : node :=
  Elem "body" None
    [Elem "input" (Some "fileInput") [];
     Elem "table" (Some "expenseTable") [Elem "thead" None []; Elem "tbody" None []];
     Elem "canvas" (Some "expenseChart") [];
     Elem "div" (Some "drop-area") []].

Lemma load_script_spec_witness :
  page_ready spec_doc = true /\
  let '(ls, res) := load_script spec_doc in
  ls `prefix_of` all_listeners /\
  ((exists refs, res = inl refs) <-> page_ready spec_doc = true) /\
  (forall e, res = inr e -> e = TypeError) /\
  (page_ready spec_doc = true -> ls = all_listeners /\
     forall ev cls r w, dispatch_on ls ev cls r w = dispatch ev cls r w).
Proof. split; [reflexivity | exact (load_script_spec spec_doc)]. Defined.

(** C20: On a document without [#fileInput], loading throws a TypeError
    at line 106, before any listener is registered, so the page ignores
    every DOM event: a drop on the drop area is not prevented (the
    browser opens the dropped file), no call of addEntry starts and the
    class [dragging] never changes. *)
Theorem missing_file_input_ignores_events doc ev cls r w :
  get_element_by_id doc "fileInput" = None ->
  load_script doc = ([], inr TypeError) /\
  dispatch_on (fst (load_script doc)) ev cls r w = mk_dispatched false cls [] r w.
Proof.
  intros Hf. assert (Hl : load_script doc = ([], inr TypeError)).
  { rewrite load_script_cases, Hf. by repeat case_match. }
  rewrite Hl. split; [done | apply dispatch_on_nil].
Qed.

(** The specification's page without its file input. *)
Definition no_input_doc : node :=
  Elem "body" None
    [Elem "table" (Some "expenseTable") [Elem "tbody" None []];
     Elem "canvas" (Some "expenseChart") [];
     Elem "div" (Some "drop-area") []].

Lemma missing_file_input_ignores_events_witness :
  get_element_by_id no_input_doc "fileInput" = None /\
  load_script no_input_doc = ([], inr TypeError) /\
  dispatch_on (fst (load_script no_input_doc)) (DropFiles []) ["box"] (mk_rng (fun _ => PosZero) 0)
    (mk_world ui_init ∅ [] []) =
  mk_dispatched false ["box"] [] (mk_rng (fun _ => PosZero) 0) (mk_world ui_init ∅ [] []).
Proof.
  assert (H : get_element_by_id no_input_doc "fileInput" = None) by reflexivity.
  split; [exact H | exact (missing_file_input_ignores_events no_input_doc _ _ _ _ H)].
Defined.

(** C19: On a document that loads but has no [tbody] inside
    [#expenseTable] (the specification requires one), [tableBody] is
    [null] and every call of addEntry that reaches line 29 pushes its
    entry, then throws a TypeError at line 60 inside its [try]: the
    [catch] logs it as an upload error, [updateChart] is never reached,
    and however many calls complete, the table and the chart stay as
    they were while [data] grows. *)
Theorem missing_table_body_freezes doc refs ds w :
  snd (load_script doc) = inl refs -> query_selector_desc doc "expenseTable" "tbody" = None ->
  let w' := fold_left (fun w d => resume_dom (ref_table_body refs) d w) ds w in
  data (w_ui w') = (data (w_ui w) ++ map make_entry ds)%list /\ tbody (w_ui w') = tbody (w_ui w) /\
  charts (w_ui w') = charts (w_ui w) /\ chart (w_ui w') = chart (w_ui w) /\
  w_console w' = (w_console w ++ repeat (ErrUpload TypeError) (length ds))%list /\
  w_store w' = w_store w /\ w_requests w' = w_requests w.
Proof.
  intros Hl Hq. rewrite (load_table_body doc refs Hl), Hq. clear Hl Hq. cbv zeta.
  revert w. induction ds as [|d ds IH]; intros w; simpl.
  - by rewrite !app_nil_r.
  - destruct (IH (resume_dom None d w)) as (Hd & Ht & Hc & Hch & Hcon & Hs & Hr).
    rewrite resume_dom_missing in *. simpl in *.
    rewrite Hd, Ht, Hc, Hch, Hcon, Hs, Hr, <- !app_assoc. done.
Qed.

(** The specification's page without the body of its table. *)
Definition no_tbody_doc : node :=
  Elem "body" None
    [Elem "input" (Some "fileInput") [];
     Elem "table" (Some "expenseTable") [Elem "thead" None []];
     Elem "canvas" (Some "expenseChart") [];
     Elem "div" (Some "drop-area") []].

Definition no_tbody_refs : page_refs :=
  mk_refs (Some (Elem "input" (Some "fileInput") [])) None (Elem "canvas" (Some "expenseChart") [])
          (Some (Elem "div" (Some "drop-area") [])).

Lemma missing_table_body_freezes_witness :
  snd (load_script no_tbody_doc) = inl no_tbody_refs /\
  query_selector_desc no_tbody_doc "expenseTable" "tbody" = None /\
  let w0 := mk_world ui_init ∅ [] [] in
  let ds := [mk_details (JStr "ACME") (of_Z 12); mk_details JUndefined NaN] in
  let w' := fold_left (fun w d => resume_dom (ref_table_body no_tbody_refs) d w) ds w0 in
  data (w_ui w') = (data (w_ui w0) ++ map make_entry ds)%list /\ tbody (w_ui w') = tbody (w_ui w0) /\
  charts (w_ui w') = charts (w_ui w0) /\ chart (w_ui w') = chart (w_ui w0) /\
  w_console w' = (w_console w0 ++ repeat (ErrUpload TypeError) (length ds))%list /\
  w_store w' = w_store w0 /\ w_requests w' = w_requests w0.
Proof.
  assert (H1 : snd (load_script no_tbody_doc) = inl no_tbody_refs) by reflexivity.
  assert (H2 : query_selector_desc no_tbody_doc "expenseTable" "tbody" = None) by reflexivity.
  split_and!; [exact H1 | exact H2 | exact (missing_table_body_freezes _ _ _ _ H1 H2)].
Defined.
